(** * T-Display web editor: colour codec, hit testing, live socket and
      update-rate estimator of [script.js], embedded in Rocq.

    The development follows the layout of the script: the runtime
    operations the script relies on ([parseInt], 32-bit integer operators,
    string helpers, property access), then the utility functions, the
    [CanvasManager], the [WebSocketManager] and the [LiveDataManager].

    Numbers.  Cell geometry, packed colours and counters are integers in
    the script; they are modelled by [Z], which agrees with the binary64
    numbers of the runtime on the safe range (magnitude below 2^53).  The
    32-bit wrap-around of the bit operators is written out.  [NaN], which
    [parseInt] returns on text without digits, is the [None] of
    [option Z].  Readings of the clock and the update rate, which is a
    genuine fraction, are binary64 numbers ([float]).

    Strings.  A string is a sequence of code units below 256. *)

From Stdlib Require Import ZArith String Ascii List Bool Lia Floats.
From Stdlib Require DecimalString HexadecimalString.
From Stdlib Require Decimal DecimalPos.
Import ListNotations.

Open Scope string_scope.
Open Scope Z_scope.
Set Warnings "-abstract-large-number".

(* ====================================================================== *)
(** * Runtime operations used by the script                                *)
(* ====================================================================== *)

Module JS.

(** ** 32-bit integer operators

    [>>], [<<], [&] and [|] convert their operands with ToInt32 (the
    shift count with ToUint32, masked to five bits) and produce a signed
    32-bit result. *)

Definition ToInt32 (z : Z) : Z :=
  let m := z mod 2 ^ 32 in
  if 2 ^ 31 <=? m then m - 2 ^ 32 else m.

Definition shiftCount (z : Z) : Z := (z mod 2 ^ 32) mod 32.

(** [a >> b] *)
Definition sar (a b : Z) : Z := Z.shiftr (ToInt32 a) (shiftCount b).

(** [a << b] *)
Definition shl (a b : Z) : Z := ToInt32 (Z.shiftl (ToInt32 a) (shiftCount b)).

(** [a & b] *)
Definition band (a b : Z) : Z := Z.land (ToInt32 a) (ToInt32 b).

(** [a | b] *)
Definition bor (a b : Z) : Z := Z.lor (ToInt32 a) (ToInt32 b).

(** A number that may be [NaN], as an operand of a bit operator:
    ToInt32 sends [NaN] to 0. *)
Definition nanToZero (n : option Z) : Z :=
  match n with Some z => z | None => 0 end.

(** [n || 0] on a number: [NaN] and zero are falsy, every other number is
    kept. *)
Definition orZero (n : option Z) : Z :=
  match n with
  | Some z => if z =? 0 then 0 else z
  | None => 0
  end.

(** ** Strings *)

(** [s.replace(c, '')] for a one-character pattern: the first occurrence
    is removed. *)
Fixpoint removeFirst (c : ascii) (s : string) : string :=
  match s with
  | EmptyString => EmptyString
  | String d r => if Ascii.eqb c d then r else String d (removeFirst c r)
  end.

(** [s.substring(a, b)] for [a <= b]: the code units from index [a] up to
    index [b], clamped to the length of [s]. *)
Definition substring (a b : nat) (s : string) : string :=
  String.substring a (b - a) s.

Fixpoint repeatChar (c : ascii) (n : nat) : string :=
  match n with
  | O => EmptyString
  | S k => String c (repeatChar c k)
  end.

(** [s.padStart(n, c)] for a one-character filler. *)
Definition padStart (n : nat) (c : ascii) (s : string) : string :=
  repeatChar c (n - String.length s) ++ s.

(** [n.toString(16)] on an integer: lower-case digits, a minus sign for a
    negative number. *)
Definition toString16 (z : Z) : string :=
  let digits := HexadecimalString.NilZero.string_of_uint (N.to_hex_uint (Z.abs_N z)) in
  if z <? 0 then "-" ++ digits else digits.

(** ToString on an integer in decimal, as string concatenation and
    [parseInt] apply it to a number. *)
Definition toString10 (z : Z) : string :=
  DecimalString.NilZero.string_of_int (Z.to_int z).

(** ** parseInt *)

(** The white space and line terminators [parseInt] skips, among the code
    units below 256: TAB, LF, VT, FF, CR, SP and NBSP. *)
Definition isWhiteSpace (c : ascii) : bool :=
  let n := nat_of_ascii c in
  ((n =? 9) || (n =? 10) || (n =? 11) || (n =? 12) || (n =? 13)
   || (n =? 32) || (n =? 160))%nat.

Fixpoint trimStart (s : string) : string :=
  match s with
  | String c r => if isWhiteSpace c then trimStart r else s
  | EmptyString => EmptyString
  end.

(** The value of a digit or letter as a digit of some radix up to 36. *)
Definition digitValue (c : ascii) : option Z :=
  let n := Z.of_nat (nat_of_ascii c) in
  if (48 <=? n) && (n <=? 57) then Some (n - 48)
  else if (97 <=? n) && (n <=? 122) then Some (n - 87)
  else if (65 <=? n) && (n <=? 90) then Some (n - 55)
  else None.

(** The longest prefix of [s] made of radix-[R] digits, read as an
    integer; [acc] is the value read so far, [None] before the first
    digit. *)
Fixpoint readDigits (R : Z) (acc : option Z) (s : string) : option Z :=
  match s with
  | EmptyString => acc
  | String c r =>
      match digitValue c with
      | Some d =>
          if d <? R
          then readDigits R (Some (R * nanToZero acc + d)) r
          else acc
      | None => acc
      end
  end.

(** The sign [parseInt] reads after the white space: [true] for a minus
    sign, together with the text after the sign. *)
Definition readSign (s : string) : bool * string :=
  match s with
  | String "-" r => (true, r)
  | String "+" r => (false, r)
  | _ => (false, s)
  end.

(** With radix 16 a prefix [0x] or [0X] is skipped. *)
Definition stripPrefix (R : Z) (s : string) : string :=
  if R =? 16 then
    match s with
    | String "0" (String "x" r) => r
    | String "0" (String "X" r) => r
    | _ => s
    end
  else s.

(** [parseInt(s, R)] on a string, for an explicit radix [2 <= R <= 36];
    [None] is [NaN]. *)
Definition parseInt (s : string) (R : Z) : option Z :=
  let (neg, body) := readSign (trimStart s) in
  match readDigits R None (stripPrefix R body) with
  | Some v => Some (if neg then - v else v)
  | None => None
  end.

End JS.

(* ====================================================================== *)
(** * Utility functions: the RGB565 / RGB888 codec                         *)
(* ====================================================================== *)

Module Color.
Import JS.

(** The three channels [r], [g], [b] of [rgb565ToRgb888] after the
    rounding step, before they are packed. *)
Definition channels (rgb565 : Z) : Z * Z * Z :=
  let r := shl (band (sar rgb565 11) 0x1F) 3 in
  let g := shl (band (sar rgb565 5) 0x3F) 2 in
  let b := shl (band rgb565 0x1F) 3 in
  (* Rounding for better color accuracy *)
  let r := r + sar r 5 in
  let g := g + sar g 6 in
  let b := b + sar b 5 in
  (r, g, b).

(** [rgb565ToRgb888(rgb565)]: [(r << 16) | (g << 8) | b]. *)
Definition rgb565ToRgb888 (rgb565 : Z) : Z :=
  let '(r, g, b) := channels rgb565 in
  bor (bor (shl r 16) (shl g 8)) b.

(** [rgb888ToRgb565(hexColor)]: from a text such as [#ff0000] to the
    packed colour as text with a [0x] prefix. *)
Definition rgb888ToRgb565 (hexColor : string) : string :=
  (* Remove # if present *)
  let hex := removeFirst "#" hexColor in
  (* Parse RGB values *)
  let r := parseInt (substring 0 2 hex) 16 in
  let g := parseInt (substring 2 4 hex) 16 in
  let b := parseInt (substring 4 6 hex) 16 in
  (* Convert to RGB565 (5 bits red, 6 bits green, 5 bits blue) *)
  let r5 := band (sar (nanToZero r) 3) 0x1F in
  let g6 := band (sar (nanToZero g) 2) 0x3F in
  let b5 := band (sar (nanToZero b) 3) 0x1F in
  let rgb565 := bor (bor (shl r5 11) (shl g6 5)) b5 in
  "0x" ++ padStart 4 "0" (toString16 rgb565).

(** The editor reads a stored colour back with [parseInt(text, 16)]
    before it decodes it ([drawCell], [renderCellProperties]). *)
Definition readPacked (text : string) : Z :=
  nanToZero (parseInt text 16).

(** The text the colour picker shows for a decoded colour:
    ['#' + rgb888.toString(16).padStart(6, '0')]. *)
Definition pickerText (rgb888 : Z) : string :=
  "#" ++ padStart 6 "0" (toString16 rgb888).

End Color.

(* ====================================================================== *)
(** * Values of the documents the script handles                           *)
(* ====================================================================== *)

Module Value.
Import JS.

(** A value as [JSON.parse] builds it, or [undefined].  An object keeps
    its members in the order of the text.  A number is an integer, held
    exactly; the runtime holds it exactly below 2^53 in magnitude. *)
#[warnings="-register-all"]
Inductive jsval : Type :=
| JUndefined
| JNull
| JBool (b : bool)
| JNum (z : Z)
| JStr (s : string)
| JArr (elems : list jsval)
| JObj (members : list (string * jsval)).

(** The member [k] of an object: the last one of that name, as a later
    member of the text replaces an earlier one. *)
Fixpoint lookup (k : string) (members : list (string * jsval)) : option jsval :=
  match members with
  | [] => None
  | (k', v) :: rest =>
      match lookup k rest with
      | Some w => Some w
      | None => if String.eqb k k' then Some v else None
      end
  end.

Definition hasMember (k : string) (members : list (string * jsval)) : bool :=
  match lookup k members with Some _ => true | None => false end.

(** Property access [v.k], for a name [k] that no prototype defines (the
    script reads [cells], [enabled], [posx], [posy], [sizex], [sizey]):
    [None] is the TypeError raised on [null] and [undefined]; a missing
    member reads as [undefined]. *)
Definition get (v : jsval) (k : string) : option jsval :=
  match v with
  | JUndefined | JNull => None
  | JObj members =>
      Some (match lookup k members with Some w => w | None => JUndefined end)
  | _ => Some JUndefined
  end.

(** Truthiness, as [!v], [||] and a [filter] callback read a value. *)
Definition truthy (v : jsval) : bool :=
  match v with
  | JUndefined | JNull => false
  | JBool b => b
  | JNum z => negb (z =? 0)
  | JStr s => negb (String.eqb s "")
  | JArr _ | JObj _ => true
  end.

Definition isArray (v : jsval) : bool :=
  match v with JArr _ => true | _ => false end.

(** [, ]-separated concatenation, as [Array.prototype.join] with the
    default separator. *)
Fixpoint joinComma (parts : list string) : string :=
  match parts with
  | [] => ""
  | [p] => p
  | p :: rest => p ++ "," ++ joinComma rest
  end.

Fixpoint sequence {A : Type} (l : list (option A)) : option (list A) :=
  match l with
  | [] => Some []
  | None :: _ => None
  | Some a :: rest =>
      match sequence rest with
      | Some r => Some (a :: r)
      | None => None
      end
  end.

(** ToString, as [parseInt] applies it to its first argument; [None] is a
    TypeError.  A number is printed with all its digits, as the runtime
    prints an integer below 10^21 in magnitude.  An array is joined, with
    [null] and [undefined] elements as empty text.  A plain object gives [[object Object]]; an object that
    has a member named [toString] hides the inherited method behind a
    value that cannot be called, and the conversion fails. *)
Fixpoint ToString (v : jsval) : option string :=
  match v with
  | JUndefined => Some "undefined"
  | JNull => Some "null"
  | JBool true => Some "true"
  | JBool false => Some "false"
  | JNum z => Some (toString10 z)
  | JStr s => Some s
  | JArr elems =>
      let element (e : jsval) : option string :=
        match e with
        | JUndefined | JNull => Some ""
        | _ => ToString e
        end in
      match sequence (map element elems) with
      | Some parts => Some (joinComma parts)
      | None => None
      end
  | JObj members =>
      if hasMember "toString" members then None else Some "[object Object]"
  end.

(** [parseInt(v, R)] on any value; the outer [None] is the TypeError of
    ToString, the inner one is [NaN]. *)
Definition parseIntOf (v : jsval) (R : Z) : option (option Z) :=
  match ToString v with
  | Some s => Some (parseInt s R)
  | None => None
  end.

End Value.

(* ====================================================================== *)
(** * Canvas Manager                                                       *)
(* ====================================================================== *)

Module CanvasManager.
Import JS Value.

(** [parseInt(cell.f, 10) || 0], the way every geometry field is read;
    [None] when the expression throws.  The integer read is exact: it is
    the number the script reads where its magnitude is below 2^53. *)
Definition geometryField (cell : jsval) (f : string) : option Z :=
  match get cell f with
  | None => None
  | Some v =>
      match parseIntOf v 10 with
      | None => None
      | Some n => Some (orZero n)
      end
  end.

Record Geometry : Type := mkGeometry { px : Z; py : Z; w : Z; h : Z }.

(** The four [const] lines that open [drawCell], the callbacks of
    [highlightCell] and [findCellAtPosition], and [drawLiveCell]. *)
Definition geometry (cell : jsval) : option Geometry :=
  match geometryField cell "posx" with
  | None => None
  | Some px =>
  match geometryField cell "posy" with
  | None => None
  | Some py =>
  match geometryField cell "sizex" with
  | None => None
  | Some w =>
  match geometryField cell "sizey" with
  | None => None
  | Some h => Some (mkGeometry px py w h)
  end end end end.

(** The callback of [findIndex] in [findCellAtPosition]:
    [x >= px && x <= px + w && y >= py && y <= py + h].  The sums are
    exact: they are those of the script where the numbers and their sums
    stay below 2^53 in magnitude. *)
Definition hit (x y : Z) (cell : jsval) : option bool :=
  match geometry cell with
  | None => None
  | Some g =>
      Some ((x >=? px g) && (x <=? px g + w g) && (y >=? py g) && (y <=? py g + h g))
  end.

(** [cells.findIndex(callback)], counting from index [i]: the index of the
    first element the callback accepts, [-1] when there is none; [None]
    when a call of the callback throws. *)
Fixpoint findIndexFrom {A : Type} (callback : A -> option bool) (i : Z) (cells : list A)
  : option Z :=
  match cells with
  | [] => Some (-1)
  | cell :: rest =>
      match callback cell with
      | None => None
      | Some true => Some i
      | Some false => findIndexFrom callback (i + 1) rest
      end
  end.

(** [findCellAtPosition(x, y, cells)] *)
Definition findCellAtPosition (x y : Z) (cells : list jsval) : option Z :=
  findIndexFrom (hit x y) 0 cells.

End CanvasManager.

(* ====================================================================== *)
(** * WebSocket Manager                                                    *)
(* ====================================================================== *)

Module WebSocketManager.
Import JS Value.

(** The first argument of [updateStatus]. *)
Inductive Status : Type := disconnected | connecting | connected | error.

(** [readyState] of a socket object. *)
Inductive ReadyState : Type := CONNECTING | OPEN | CLOSING | CLOSED.

(** The page and the runtime around the manager. *)
Record Browser : Type := mkBrowser {
  (** [window.location.protocol] and [window.location.host] *)
  location_protocol : string;
  location_host : string;
  (** [new WebSocket(url)]: [None] when the socket object is created,
      [Some m] when the constructor throws an error with message [m] *)
  WebSocket_throws : string -> option string;
  (** [JSON.parse(text)]: the decoded value, or the message of the
      SyntaxError it throws *)
  JSON_parse : string -> string + jsval
}.

(** A registered message callback, by the way its call completes on a
    payload: [None] when it returns, [Some m] when it throws an error with
    message [m]. *)
Definition Subscriber : Type := jsval -> option string.

(** The fields of a [WebSocketManager].  [ws] refers to a socket object by
    its creation index, [None] is [null].  [statusCallback] tells whether
    a status callback is registered; its calls are recorded in
    [notified] below. *)
Record Manager : Type := mkManager {
  ws : option nat;
  reconnectAttempts : Z;
  maxReconnectAttempts : Z;
  reconnectDelay : Z;
  messageCallback : option Subscriber;
  statusCallback : bool;
  messageCount : Z;
  lastMessageTime : option float;
  shouldReconnect : bool
}.

(** The manager together with what its methods and handlers act on:
    - [sockets]: the [readyState] of every socket object created so far;
      each one carries the four handlers [connect] installs;
    - [timers]: the delays of the pending [setTimeout] callbacks, oldest
      first; each callback calls [connect()];
    - [status]: the arguments of the last call of [updateStatus];
    - [notified]: the calls made to the status callback, newest first;
    - [delivered]: the payloads passed to the message callback, newest
      first. *)
Record State : Type := mkState {
  this : Manager;
  sockets : list ReadyState;
  timers : list Z;
  status : Status * string;
  notified : list (Status * string);
  delivered : list jsval
}.

Definition connectionState (s : State) : Status := fst (status s).

(** [constructor()] *)
Definition constructor : State :=
  {| this := {| ws := None;
                reconnectAttempts := 0;
                maxReconnectAttempts := 5;
                reconnectDelay := 2000; (* 2 seconds *)
                messageCallback := None;
                statusCallback := false;
                messageCount := 0;
                lastMessageTime := None;
                shouldReconnect := false |};
     sockets := [];
     timers := [];
     status := (disconnected, "");
     notified := [];
     delivered := [] |}.

(** ** Assignments *)

Definition setThis (f : Manager -> Manager) (s : State) : State :=
  mkState (f (this s)) (sockets s) (timers s) (status s) (notified s) (delivered s).

Definition set_ws (v : option nat) (m : Manager) : Manager :=
  mkManager v (reconnectAttempts m) (maxReconnectAttempts m) (reconnectDelay m)
    (messageCallback m) (statusCallback m) (messageCount m) (lastMessageTime m)
    (shouldReconnect m).

Definition set_reconnectAttempts (v : Z) (m : Manager) : Manager :=
  mkManager (ws m) v (maxReconnectAttempts m) (reconnectDelay m)
    (messageCallback m) (statusCallback m) (messageCount m) (lastMessageTime m)
    (shouldReconnect m).

Definition set_messageCallback (v : option Subscriber) (m : Manager) : Manager :=
  mkManager (ws m) (reconnectAttempts m) (maxReconnectAttempts m) (reconnectDelay m)
    v (statusCallback m) (messageCount m) (lastMessageTime m) (shouldReconnect m).

Definition set_statusCallback (v : bool) (m : Manager) : Manager :=
  mkManager (ws m) (reconnectAttempts m) (maxReconnectAttempts m) (reconnectDelay m)
    (messageCallback m) v (messageCount m) (lastMessageTime m) (shouldReconnect m).

Definition set_messageCount (v : Z) (m : Manager) : Manager :=
  mkManager (ws m) (reconnectAttempts m) (maxReconnectAttempts m) (reconnectDelay m)
    (messageCallback m) (statusCallback m) v (lastMessageTime m) (shouldReconnect m).

Definition set_lastMessageTime (v : option float) (m : Manager) : Manager :=
  mkManager (ws m) (reconnectAttempts m) (maxReconnectAttempts m) (reconnectDelay m)
    (messageCallback m) (statusCallback m) (messageCount m) v (shouldReconnect m).

Definition set_shouldReconnect (v : bool) (m : Manager) : Manager :=
  mkManager (ws m) (reconnectAttempts m) (maxReconnectAttempts m) (reconnectDelay m)
    (messageCallback m) (statusCallback m) (messageCount m) (lastMessageTime m) v.

Definition set_sockets (v : list ReadyState) (s : State) : State :=
  mkState (this s) v (timers s) (status s) (notified s) (delivered s).

Definition set_timers (v : list Z) (s : State) : State :=
  mkState (this s) (sockets s) v (status s) (notified s) (delivered s).

Definition set_delivered (v : list jsval) (s : State) : State :=
  mkState (this s) (sockets s) (timers s) (status s) (notified s) v.

(** ** Methods *)

(** [updateStatus(status, message)] *)
Definition updateStatus (st : Status) (message : string) (s : State) : State :=
  mkState (this s) (sockets s) (timers s) (st, message)
    (if statusCallback (this s) then (st, message) :: notified s else notified s)
    (delivered s).

(** [onMessage(callback)] and [onStatusChange(callback)] *)
Definition onMessage (callback : Subscriber) (s : State) : State :=
  setThis (set_messageCallback (Some callback)) s.

Definition onStatusChange (s : State) : State :=
  setThis (set_statusCallback true) s.

Definition getMessageCount (s : State) : Z := messageCount (this s).

Definition getLastMessageTime (s : State) : option float := lastMessageTime (this s).

(** [this.ws && this.ws.readyState === WebSocket.OPEN] *)
Definition wsIsOpen (s : State) : bool :=
  match ws (this s) with
  | Some i =>
      match nth_error (sockets s) i with
      | Some OPEN => true
      | _ => false
      end
  | None => false
  end.

(** The effect of [socket.close()] on the socket object: a closing
    handshake starts unless the socket is closing or closed already. *)
Definition closeSocket (r : ReadyState) : ReadyState :=
  match r with
  | CONNECTING | OPEN => CLOSING
  | CLOSING | CLOSED => r
  end.

Fixpoint updateNth {A : Type} (i : nat) (f : A -> A) (l : list A) : list A :=
  match l, i with
  | [], _ => []
  | a :: r, O => f a :: r
  | a :: r, S j => a :: updateNth j f r
  end.

Section Methods.

Variable browser : Browser.

(** Auto-detect protocol (ws:// or wss://) *)
Definition wsUrl : string :=
  let protocol :=
    if String.eqb (location_protocol browser) "https:" then "wss:" else "ws:" in
  protocol ++ "//" ++ location_host browser ++ "/ws".

(** [connect()] *)
Definition connect (s : State) : State :=
  if wsIsOpen s then s (* WebSocket already connected *)
  else
    let s := updateStatus connecting ("Connecting to " ++ wsUrl ++ "...") s in
    match WebSocket_throws browser wsUrl with
    | None =>
        let id := List.length (sockets s) in
        let s := set_sockets (sockets s ++ [CONNECTING])%list s in
        let s := setThis (set_ws (Some id)) s in
        setThis (set_shouldReconnect true) s
    | Some message =>
        updateStatus error ("Connection failed: " ++ message) s
    end.

(** [disconnect()] *)
Definition disconnect (s : State) : State :=
  let s := setThis (set_shouldReconnect false) s in
  (* Prevent auto-reconnect *)
  let s := setThis (set_reconnectAttempts (maxReconnectAttempts (this s))) s in
  match ws (this s) with
  | Some i =>
      let s := set_sockets (updateNth i closeSocket (sockets s)) s in
      let s := setThis (set_ws None) s in
      updateStatus disconnected "Manually disconnected" s
  | None => s
  end.

(** ** The handlers [connect] installs on a socket *)

(** [ws.onopen] *)
Definition onopen (s : State) : State :=
  let s := updateStatus connected "Connected - Waiting for data..." s in
  setThis (set_reconnectAttempts 0) s.

(** [ws.onmessage], on [event.data] with the clock reading [now] *)
Definition onmessage (data : string) (now : float) (s : State) : State :=
  let s := setThis (set_messageCount (messageCount (this s) + 1)) s in
  let s := setThis (set_lastMessageTime (Some now)) s in
  match JSON_parse browser data with
  | inr payload =>
      match messageCallback (this s) with
      | Some callback =>
          let s := set_delivered (payload :: delivered s) s in
          match callback payload with
          | None => updateStatus connected "Connected - Receiving updates" s
          | Some message => updateStatus error ("Error parsing data: " ++ message) s
          end
      | None => updateStatus connected "Connected - Receiving updates" s
      end
  | inl message => updateStatus error ("Error parsing data: " ++ message) s
  end.

(** [ws.onerror] *)
Definition onerror (s : State) : State :=
  updateStatus error "Connection error" s.

(** [ws.onclose], on [event.code] *)
Definition onclose (code : Z) (s : State) : State :=
  let s := updateStatus disconnected ("Disconnected (Code: " ++ toString10 code ++ ")") s in
  (* Auto-reconnect if enabled and not exceeded max attempts *)
  if shouldReconnect (this s)
     && (reconnectAttempts (this s) <? maxReconnectAttempts (this s))
  then
    let s := setThis (set_reconnectAttempts (reconnectAttempts (this s) + 1)) s in
    set_timers (timers s ++ [reconnectDelay (this s)])%list s
  else s.

(** ** The event loop

    What can happen to a manager: a call of one of its methods by the
    page, an event of one of its sockets, or the expiry of the oldest
    pending timer.  A socket event needs a socket in the right
    [readyState]: it opens once, while connecting; it delivers messages
    while open; it closes once, and is silent afterwards. *)
Inductive Event : Type :=
| CallConnect
| CallDisconnect
| CallOnMessage (callback : Subscriber)
| CallOnStatusChange
| SocketOpen (i : nat)
| SocketMessage (i : nat) (data : string) (now : float)
| SocketError (i : nat)
| SocketClose (i : nat) (code : Z)
| TimerFires.

(** One turn of the event loop; [None] when the event cannot occur in
    [s]. *)
Definition step (e : Event) (s : State) : option State :=
  match e with
  | CallConnect => Some (connect s)
  | CallDisconnect => Some (disconnect s)
  | CallOnMessage callback => Some (onMessage callback s)
  | CallOnStatusChange => Some (onStatusChange s)
  | SocketOpen i =>
      match nth_error (sockets s) i with
      | Some CONNECTING =>
          Some (onopen (set_sockets (updateNth i (fun _ => OPEN) (sockets s)) s))
      | _ => None
      end
  | SocketMessage i data now =>
      match nth_error (sockets s) i with
      | Some OPEN => Some (onmessage data now s)
      | _ => None
      end
  | SocketError i =>
      match nth_error (sockets s) i with
      | Some CLOSED | None => None
      | Some _ => Some (onerror s)
      end
  | SocketClose i code =>
      match nth_error (sockets s) i with
      | Some CLOSED | None => None
      | Some _ =>
          Some (onclose code (set_sockets (updateNth i (fun _ => CLOSED) (sockets s)) s))
      end
  | TimerFires =>
      match timers s with
      | [] => None
      | _ :: rest => Some (connect (set_timers rest s))
      end
  end.

Fixpoint run (es : list Event) (s : State) : option State :=
  match es with
  | [] => Some s
  | e :: rest =>
      match step e s with
      | Some s' => run rest s'
      | None => None
      end
  end.

End Methods.

End WebSocketManager.

(* ====================================================================== *)
(** * Live Data Manager                                                    *)
(* ====================================================================== *)

Module LiveDataManager.
Import JS Value.

(** The fields of a [LiveDataManager] that [handleLiveData] and
    [calculateUpdateRate] use; the update-rate window holds readings of
    [Date.now()]. *)
Record State : Type := mkState {
  currentCells : list jsval;
  updateRateWindow : list float;
  updateRateWindowSize : nat
}.

(** [constructor(canvasManager, wsManager)] *)
Definition constructor : State :=
  {| currentCells := [];
     updateRateWindow := [];
     updateRateWindowSize := 10 (* Track last 10 messages for rate calculation *) |}.

(** How a call completes. *)
Inductive Completion : Type := Returns | Throws.

(** [cells.filter(callback)]; [None] when a call of the callback
    throws. *)
Fixpoint filterArray {A : Type} (callback : A -> option bool) (cells : list A)
  : option (list A) :=
  match cells with
  | [] => Some []
  | cell :: rest =>
      match callback cell with
      | None => None
      | Some keep =>
          match filterArray callback rest with
          | None => None
          | Some kept => Some (if keep then cell :: kept else kept)
          end
      end
  end.

(** The callback [cell => cell.enabled], read as a condition. *)
Definition enabled (cell : jsval) : option bool :=
  match get cell "enabled" with
  | Some flag => Some (truthy flag)
  | None => None
  end.

(** [updateRateWindow.push(now)] followed by the [shift()] under
    [length > updateRateWindowSize]. *)
Definition trackUpdate (now : float) (st : State) : State :=
  let window := (updateRateWindow st ++ [now])%list in
  let window :=
    if (updateRateWindowSize st <? List.length window)%nat then tl window else window in
  mkState (currentCells st) window (updateRateWindowSize st).

Section HandleLiveData.

(** The drawing and page updates between the filter and the rate
    tracking ([drawLiveCells()], [updateStatistics()] and the text of the
    last update time), by the way they complete on the cells to draw. *)
Variable redraw : list jsval -> Completion.

(** [handleLiveData(data)], with the reading [now] of [Date.now()]; the
    state is the one the call leaves behind, also when it throws. *)
Definition handleLiveData (data : jsval) (now : float) (st : State)
  : State * Completion :=
  match get data "cells" with
  | None => (st, Throws)
  | Some cells =>
      (* Validate data structure *)
      if negb (truthy cells) || negb (isArray cells) then (st, Returns)
      else
        match cells with
        | JArr elems =>
            (* Filter enabled cells only *)
            match filterArray enabled elems with
            | None => (st, Throws)
            | Some kept =>
                let st := mkState kept (updateRateWindow st) (updateRateWindowSize st) in
                match redraw kept with
                | Throws => (st, Throws)
                | Returns =>
                    (* Track update rate *)
                    (trackUpdate now st, Returns)
                end
            end
        | _ => (st, Returns)
        end
  end.

End HandleLiveData.

(** A length or an index as a number (the length of an array is below
    2^32, where the conversion is exact). *)
Definition numberOfNat (n : nat) : float :=
  PrimFloat.of_uint63 (Uint63.of_Z (Z.of_nat n)).

(** [window[i]] as an operand of [-]: a missing element is [undefined],
    which the subtraction reads as [NaN]. *)
Definition at_ (window : list float) (i : nat) : float :=
  nth i window PrimFloat.nan.

(** [calculateUpdateRate()] on the update-rate window *)
Definition calculateUpdateRate (window : list float) : float :=
  if (List.length window <? 2)%nat then 0%float
  else
    let timeSpan :=
      (at_ window (List.length window - 1) - at_ window 0)%float in
    let messageCount := numberOfNat (List.length window - 1) in
    if PrimFloat.eqb timeSpan 0 then 0%float
    else
      (* Convert to Hz (messages per second) *)
      ((messageCount / timeSpan) * 1000)%float.

End LiveDataManager.

(* ====================================================================== *)
(** * A decoder for the text of a live message                             *)
(* ====================================================================== *)

(** [JSON.parse] belongs to the runtime; the manager is stated over any
    decoder ([Browser.JSON_parse]).  The decoder below serves to run the
    handlers on the text of a message.  It follows the JSON grammar for
    documents whose numbers are plain integers and whose [\u] escapes
    stay below 256; it rejects the other number forms and escapes, which
    the values of this development do not represent. *)
Module JSONText.
Import Value.

Definition isWs (c : ascii) : bool :=
  let n := nat_of_ascii c in
  ((n =? 32) || (n =? 9) || (n =? 10) || (n =? 13))%nat.

Fixpoint skipWs (s : string) : string :=
  match s with
  | String c r => if isWs c then skipWs r else s
  | EmptyString => EmptyString
  end.

Definition hexDigit (c : ascii) : option nat :=
  match JS.digitValue c with
  | Some d => if d <? 16 then Some (Z.to_nat d) else None
  | None => None
  end.

(** The code unit of [\uXXXX], after the [u]. *)
Definition unicodeEscape (s : string) : option (ascii * string) :=
  match s with
  | String a (String b (String c (String d r))) =>
      match hexDigit a, hexDigit b, hexDigit c, hexDigit d with
      | Some a, Some b, Some c, Some d =>
          let n := (((a * 16 + b) * 16 + c) * 16 + d)%nat in
          if (n <? 256)%nat then Some (ascii_of_nat n, r) else None
      | _, _, _, _ => None
      end
  | _ => None
  end.

(** The characters of a string literal, after the opening quote (code
    unit 34), up to and including the closing one. *)
Fixpoint stringBody (fuel : nat) (s : string) : option (string * string) :=
  match fuel with
  | O => None
  | S fuel =>
      match s with
      | EmptyString => None
      | String c r =>
          if Ascii.eqb c "034" then Some (EmptyString, r)
          else if Ascii.eqb c "\" then
            match r with
            | String e r' =>
                let simple (x : ascii) :=
                  match stringBody fuel r' with
                  | Some (str, rest) => Some (String x str, rest)
                  | None => None
                  end in
                if Ascii.eqb e "034" then simple "034"%char
                else if Ascii.eqb e "\" then simple "\"%char
                else if Ascii.eqb e "/" then simple "/"%char
                else if Ascii.eqb e "b" then simple (ascii_of_nat 8)
                else if Ascii.eqb e "f" then simple (ascii_of_nat 12)
                else if Ascii.eqb e "n" then simple (ascii_of_nat 10)
                else if Ascii.eqb e "r" then simple (ascii_of_nat 13)
                else if Ascii.eqb e "t" then simple (ascii_of_nat 9)
                else if Ascii.eqb e "u" then
                  match unicodeEscape r' with
                  | Some (x, r'') =>
                      match stringBody fuel r'' with
                      | Some (str, rest) => Some (String x str, rest)
                      | None => None
                      end
                  | None => None
                  end
                else None
            | EmptyString => None
            end
          else if (nat_of_ascii c <? 32)%nat then None
          else
            match stringBody fuel r with
            | Some (str, rest) => Some (String c str, rest)
            | None => None
            end
      end
  end.

Definition isDigit (c : ascii) : bool :=
  let n := nat_of_ascii c in ((48 <=? n) && (n <=? 57))%nat.

Fixpoint digitsOf (acc : Z) (s : string) : Z * string :=
  match s with
  | String c r =>
      if isDigit c then digitsOf (10 * acc + Z.of_nat (nat_of_ascii c - 48)) r
      else (acc, s)
  | EmptyString => (acc, s)
  end.

(** An integer literal: no leading zero, no fraction, no exponent. *)
Definition integer (s : string) : option (Z * string) :=
  let (neg, body) :=
    match s with
    | String "-" r => (true, r)
    | _ => (false, s)
    end in
  match body with
  | String c r =>
      if isDigit c then
        let (v, rest) :=
          if Ascii.eqb c "0" then (0, r) else digitsOf 0 body in
        match rest with
        | String d _ =>
            if isDigit d || Ascii.eqb d "." || Ascii.eqb d "e" || Ascii.eqb d "E"
            then None
            else Some (if neg then - v else v, rest)
        | EmptyString => Some (if neg then - v else v, rest)
        end
      else None
  | EmptyString => None
  end.

Fixpoint value (fuel : nat) (s : string) : option (jsval * string) :=
  match fuel with
  | O => None
  | S fuel =>
      match skipWs s with
      | String "n" (String "u" (String "l" (String "l" r))) => Some (JNull, r)
      | String "t" (String "r" (String "u" (String "e" r))) => Some (JBool true, r)
      | String "f" (String "a" (String "l" (String "s" (String "e" r)))) =>
          Some (JBool false, r)
      | String "034" r =>
          match stringBody (S (String.length r)) r with
          | Some (str, rest) => Some (JStr str, rest)
          | None => None
          end
      | String "[" r =>
          match skipWs r with
          | String "]" rest => Some (JArr [], rest)
          | _ =>
              match elements fuel r with
              | Some (vs, rest) => Some (JArr vs, rest)
              | None => None
              end
          end
      | String "{" r =>
          match skipWs r with
          | String "}" rest => Some (JObj [], rest)
          | _ =>
              match members fuel r with
              | Some (kvs, rest) => Some (JObj kvs, rest)
              | None => None
              end
          end
      | other =>
          match integer other with
          | Some (z, rest) => Some (JNum z, rest)
          | None => None
          end
      end
  end

with elements (fuel : nat) (s : string) : option (list jsval * string) :=
  match fuel with
  | O => None
  | S fuel =>
      match value fuel s with
      | Some (v, r) =>
          match skipWs r with
          | String "," r' =>
              match elements fuel r' with
              | Some (vs, rest) => Some (v :: vs, rest)
              | None => None
              end
          | String "]" rest => Some ([v], rest)
          | _ => None
          end
      | None => None
      end
  end

with members (fuel : nat) (s : string) : option (list (string * jsval) * string) :=
  match fuel with
  | O => None
  | S fuel =>
      match skipWs s with
      | String "034" r =>
          match stringBody (S (String.length r)) r with
          | Some (k, r1) =>
              match skipWs r1 with
              | String ":" r2 =>
                  match value fuel r2 with
                  | Some (v, r3) =>
                      match skipWs r3 with
                      | String "," r4 =>
                          match members fuel r4 with
                          | Some (kvs, rest) => Some ((k, v) :: kvs, rest)
                          | None => None
                          end
                      | String "}" rest => Some ([(k, v)], rest)
                      | _ => None
                      end
                  | None => None
                  end
              | _ => None
              end
          | None => None
          end
      | _ => None
      end
  end.

(** The whole text is one value between optional white space.  The text
    of the error message is the runtime's own; a fixed one stands for
    it. *)
Definition parse (text : string) : string + jsval :=
  match value (2 * String.length text + 2) text with
  | Some (v, rest) =>
      match skipWs rest with
      | EmptyString => inr v
      | _ => inl "Unexpected token in JSON"
      end
  | None => inl "Unexpected token in JSON"
  end.

End JSONText.

(** The page of a device served over plain [http], on which the socket
    constructor succeeds, with the decoder above. *)
Definition devicePage : WebSocketManager.Browser :=
  {| WebSocketManager.location_protocol := "http:";
     WebSocketManager.location_host := "192.168.4.1";
     WebSocketManager.WebSocket_throws := fun _ => None;
     WebSocketManager.JSON_parse := JSONText.parse |}.


(** The text of a message written with ['] for the quotation mark. *)
Fixpoint wire (s : string) : string :=
  match s with
  | EmptyString => EmptyString
  | String c r => String (if Ascii.eqb c "'" then "034"%char else c) (wire r)
  end.


(* ====================================================================== *)
(** * Math functions of the runtime on binary64 numbers                    *)
(* ====================================================================== *)

Module JSMath.

(** [Math.min(a, b)]: [NaN] if an argument is [NaN]; of two zeros the
    negative one. *)
Definition min (a b : float) : float :=
  if PrimFloat.is_nan a || PrimFloat.is_nan b then PrimFloat.nan
  else if PrimFloat.ltb a b then a
  else if PrimFloat.ltb b a then b
  else if PrimFloat.get_sign a then a else b.

(** [Math.max(a, b)]: [NaN] if an argument is [NaN]; of two zeros the
    positive one. *)
Definition max (a b : float) : float :=
  if PrimFloat.is_nan a || PrimFloat.is_nan b then PrimFloat.nan
  else if PrimFloat.ltb a b then b
  else if PrimFloat.ltb b a then a
  else if PrimFloat.get_sign a then b else a.

(** An integer below 2^63 in magnitude as a number. *)
Definition ofZ (n : Z) : float :=
  if n <? 0 then PrimFloat.opp (PrimFloat.of_uint63 (Uint63.of_Z (- n)))
  else PrimFloat.of_uint63 (Uint63.of_Z n).

(** [Math.round(x)]: the integer nearest to [x], halves upwards; [x]
    itself when it is an integer, a zero, infinite or [NaN]; the negative
    zero for [x] from -0.5 up to 0. *)
Definition round (x : float) : float :=
  match Prim2SF x with
  | S754_finite negative m e =>
      if 0 <=? e then x
      else
        (* x = m * 2^e up to sign; floor (x + 1/2) *)
        let twice := (if negative then - Z.pos m else Z.pos m) * 2 + 2 ^ (- e) in
        let n := twice / 2 ^ (1 - e) in
        if n =? 0 then (if negative then PrimFloat.opp 0 else 0)%float
        else ofZ n
  | _ => x
  end.

End JSMath.

(* ====================================================================== *)
(** * Canvas Manager: the zoom                                             *)
(* ====================================================================== *)

Module CanvasZoom.

(** The fields of a [CanvasManager] next to its canvas. *)
Record State : Type := mkState {
  selectedCellIndex : Z;
  zoomLevel : float;
  minZoom : float;
  maxZoom : float;
  zoomStep : float
}.

(** [constructor(canvasId)] *)
Definition constructor : State :=
  {| selectedCellIndex := -1;
     zoomLevel := 1.0;
     minZoom := 0.5;
     maxZoom := 4.0;
     zoomStep := 0.25 |}.

(** [setZoom(level)]: the new state and the value returned.  The scale
    of the canvas element follows [zoomLevel]. *)
Definition setZoom (level : float) (s : State) : State * float :=
  let zoomLevel := JSMath.max (minZoom s) (JSMath.min (maxZoom s) level) in
  (mkState (selectedCellIndex s) zoomLevel (minZoom s) (maxZoom s) (zoomStep s),
   zoomLevel).

(** [zoomIn()], [zoomOut()], [resetZoom()] *)
Definition zoomIn (s : State) : State * float :=
  setZoom (zoomLevel s + zoomStep s)%float s.

Definition zoomOut (s : State) : State * float :=
  setZoom (zoomLevel s - zoomStep s)%float s.

Definition resetZoom (s : State) : State * float :=
  setZoom 1.0%float s.

(** [getZoomPercent()] *)
Definition getZoomPercent (s : State) : float :=
  JSMath.round (zoomLevel s * 100)%float.

(** The two conditions under which [updateZoomButtons] of the editor
    disables a zoom button: [zoomLevel >= maxZoom] and
    [zoomLevel <= minZoom]. *)
Definition zoomInDisabled (s : State) : bool := PrimFloat.leb (maxZoom s) (zoomLevel s).

Definition zoomOutDisabled (s : State) : bool := PrimFloat.leb (zoomLevel s) (minZoom s).

(** A click on one of the three zoom buttons. *)
Inductive Button : Type := ZoomIn | ZoomOut | ZoomReset.

Definition press (b : Button) (s : State) : State :=
  match b with
  | ZoomIn => fst (zoomIn s)
  | ZoomOut => fst (zoomOut s)
  | ZoomReset => fst (resetZoom s)
  end.

End CanvasZoom.

(* ====================================================================== *)
(** * Waiting for the configuration                                        *)
(* ====================================================================== *)

Module Utility.
Import Value.

(** The promise [waitForConfig] returns, with the counter [waited] of its
    interval timer while that timer is set. *)
Inductive Promise : Type :=
| Pending (waited : Z)
| Resolved (data : jsval)
| Rejected (message : string).

Definition interval : Z := 100.

(** The default of the parameter: [None] is a call without argument. *)
Definition timeoutOf (timeout : option Z) : Z :=
  match timeout with Some t => t | None => 5000 end.

(** [waitForConfig(timeout)], run while [window.__configData] is
    [configData]. *)
Definition waitForConfig (timeout : option Z) (configData : jsval) : Promise :=
  if truthy configData then Resolved configData else Pending 0.

(** The callback of the interval timer, run while [window.__configData]
    is [configData]; the timer is cleared once the promise is settled. *)
Definition tick (timeout : option Z) (configData : jsval) (p : Promise) : Promise :=
  match p with
  | Pending waited =>
      if truthy configData then Resolved configData
      else
        let waited := waited + interval in
        if timeoutOf timeout <=? waited
        then Rejected "Timed out waiting for configuration data"
        else Pending waited
  | _ => p
  end.

(** The promise after the call and the given runs of the timer;
    [seen] lists the values of [window.__configData] at these runs. *)
Definition poll (timeout : option Z) (atCall : jsval) (seen : list jsval) : Promise :=
  fold_left (fun p configData => tick timeout configData p) seen
            (waitForConfig timeout atCall).

End Utility.

(* ====================================================================== *)
(** * Config Manager: the lists of the settings page                       *)
(* ====================================================================== *)

Module ConfigManager.
Import JS Value.

(** [s.split(',')] *)
Fixpoint splitComma (s : string) : list string :=
  match s with
  | EmptyString => [EmptyString]
  | String c r =>
      if Ascii.eqb c "," then EmptyString :: splitComma r
      else match splitComma r with
           | piece :: pieces => String c piece :: pieces
           | [] => [String c EmptyString]
           end
  end.

Fixpoint trimEnd (s : string) : string :=
  match s with
  | EmptyString => EmptyString
  | String c r =>
      match trimEnd r with
      | EmptyString => if isWhiteSpace c then EmptyString else String c EmptyString
      | r' => String c r'
      end
  end.

(** [s.trim()] *)
Definition trim (s : string) : string := trimEnd (trimStart s).

(** [text.split(',').map(code => code.trim()).filter(code => code.length > 0)]
    for the value [text || '']; [None] is the TypeError of calling
    [split] on a value that has none. *)
Definition entries (text : jsval) : option (list string) :=
  match (if truthy text then text else JStr "") with
  | JStr s =>
      Some (filter (fun code => (0 <? Z.of_nat (String.length code)))
                   (map trim (splitComma s)))
  | _ => None
  end.

(** Optional chaining [v?.k], for a name [k] that no prototype defines. *)
Definition optionalGet (v : jsval) (k : string) : jsval :=
  match get v k with
  | Some w => w
  | None => JUndefined
  end.

(** [getEngineTypes()] with [this.data = data] *)
Definition getEngineTypes (data : jsval) : option (list string) :=
  if negb (truthy data) then Some []
  else match get data "ENGINE_CODES" with
       | Some section => entries (optionalGet section "engine_codes_list")
       | None => None
       end.

(** [getCanSpeedList()] with [this.data = data] *)
Definition getCanSpeedList (data : jsval) : option (list string) :=
  if negb (truthy data) then Some []
  else match get data "CAN_SPEED_LIST" with
       | Some section => entries (optionalGet section "kbps")
       | None => None
       end.

(** ** Screens *)












End ConfigManager.

(* ====================================================================== *)
(** * Vocabulary of the statements                                         *)
(* ====================================================================== *)

Section CodecVocabulary.
Import JS Color.

(** The text of a 24-bit colour as the colour picker hands it to
    [rgb888ToRgb565]: [#] and two hexadecimal digits per channel. *)
Definition hexText (c : Z * Z * Z) : string :=
  let '(r, g, b) := c in
  "#" ++ padStart 2 "0" (toString16 r) ++ padStart 2 "0" (toString16 g)
      ++ padStart 2 "0" (toString16 b).

(** Encode the colour, read the stored text back, decode it. *)
Definition decodeEncode (c : Z * Z * Z) : Z * Z * Z :=
  channels (readPacked (rgb888ToRgb565 (hexText c))).

End CodecVocabulary.

Section GeometryVocabulary.
Import JS Value CanvasManager.

(** The value [cell.f] of an object, [undefined] for a missing member. *)
Definition member (cell : jsval) (f : string) : jsval :=
  match get cell f with
  | Some v => v
  | None => JUndefined
  end.


(** The first character of a text is a decimal digit. *)
Definition startsWithDigit (s : string) : bool :=
  match s with
  | String c _ =>
      let n := Z.of_nat (nat_of_ascii c) in (48 <=? n) && (n <=? 57)
  | EmptyString => false
  end.

(** The text reads as no decimal integer: after the white space and the
    sign there is no digit. *)
Definition malformed (s : string) : Prop :=
  startsWithDigit (snd (readSign (trimStart s))) = false.

(** [z] is what [parseInt(v, 10) || 0] makes of the value [v]: the
    conversion to text succeeds, malformed text gives 0, and [z] is
    negative only for a text with a minus sign. *)
Definition parsedFrom (v : jsval) (z : Z) : Prop :=
  exists s,
    ToString v = Some s
    /\ z = orZero (parseInt s 10)
    /\ (malformed s -> z = 0)
    /\ (z < 0 -> exists r, trimStart s = String "-" r).


(** A cell with negative and malformed geometry. *)
Definition negativeCell : jsval :=
  JObj [("posx", JStr "-5"); ("posy", JNum (-3));
        ("sizex", JStr " -10px"); ("sizey", JStr "wide")].

End GeometryVocabulary.

Section ConnectionVocabulary.
Import JS Value WebSocketManager.

(** The states the manager can be in: what a sequence of events makes of
    a new manager. *)
Definition reachable (browser : Browser) (s : State) : Prop :=
  exists es, run browser es constructor = Some s.

Definition isClose (e : Event) : bool :=
  match e with SocketClose _ _ => true | _ => false end.

(** The number of close events of a sequence. *)
Fixpoint closes (es : list Event) : Z :=
  match es with
  | [] => 0
  | e :: rest => (if isClose e then 1 else 0) + closes rest
  end.

(** Events other than a successful open and a manual disconnect. *)
Definition withoutOpen (e : Event) : bool :=
  match e with
  | SocketOpen _ | CallDisconnect => false
  | _ => true
  end.

(** Events other than a call of [connect()] by the page. *)
Definition withoutConnect (e : Event) : bool :=
  match e with
  | CallConnect => false
  | _ => true
  end.

(** Disconnected, every socket closed, no reconnect pending. *)
Definition idle (s : State) : Prop :=
  connectionState s = disconnected
  /\ Forall (fun r => r = CLOSED) (sockets s)
  /\ timers s = [].

(** Auto-reconnect is enabled and [k] attempts of the budget are used. *)
Definition budget (k : Z) (s : State) : Prop :=
  shouldReconnect (this s) = true
  /\ reconnectAttempts (this s) = Z.min k 5
  /\ maxReconnectAttempts (this s) = 5
  /\ reconnectDelay (this s) = 2000.

(** The state of a new manager after a sequence of events on
    [devicePage]. *)
Definition after (es : list Event) : State :=
  match run devicePage es constructor with
  | Some s => s
  | None => constructor
  end.

(** The page connects, the server is away: every socket closes without
    opening, and every reconnect timer fires. *)
Definition retries : list Event :=
  [ SocketClose 0 1006; TimerFires; SocketClose 1 1006; TimerFires;
    SocketClose 2 1006; TimerFires; SocketClose 3 1006; TimerFires;
    SocketClose 4 1006; TimerFires ].

(** The page connects with its status callback registered; the socket
    closes without opening, which leaves one reconnect pending. *)
Definition closedOnce : list Event :=
  [CallOnStatusChange; CallConnect; SocketClose 0 1006].

(** A manager with both callbacks registered and an open socket. *)
Definition listening : list Event :=
  [CallOnStatusChange; CallOnMessage (fun _ => None); CallConnect; SocketOpen 0].

End ConnectionVocabulary.

Section LiveDataVocabulary.
Import JS Value LiveDataManager.

(** The rate as the specification words it: 0 below two samples or on a
    time span of 0, else the number of samples minus one, over the span
    from the oldest to the newest, times 1000. *)
Definition rateOf (window : list float) : float :=
  match window with
  | oldest :: _ :: _ =>
      let newest := last window PrimFloat.nan in
      let span := (newest - oldest)%float in
      if PrimFloat.eqb span 0 then 0%float
      else (numberOfNat (List.length window - 1) / span * 1000)%float
  | _ => 0%float
  end.

(** The window after the messages that arrive at the given times. *)
Definition windowAfter (times : list float) : list float :=
  updateRateWindow (fold_left (fun st now => trackUpdate now st) times constructor).

(** Ten messages, 100 ms apart. *)
Definition tenSamples : list float :=
  [0; 100; 200; 300; 400; 500; 600; 700; 800; 900]%float.

(** A live message with one cell whose flag is the text [false]. *)
Definition cellMarkedFalse : jsval :=
  JObj [("enabled", JStr "false"); ("posx", JNum 0); ("posy", JNum 0);
        ("sizex", JNum 100); ("sizey", JNum 50)].

Definition messageMarkedFalse : jsval :=
  JObj [("cells", JArr [cellMarkedFalse;
                        JObj [("enabled", JBool false)];
                        JObj [("enabled", JBool true)]])].

End LiveDataVocabulary.

Section PackedColourVocabulary.
Import JS Color.

(** The integers from [start], [n] of them. *)
Fixpoint zrange (start : Z) (n : nat) : list Z :=
  match n with
  | O => []
  | S k => start :: zrange (start + 1) k
  end.

(** The text under which [rgb888ToRgb565] stores a packed colour. *)
Definition storedText (v : Z) : string :=
  "0x" ++ padStart 4 "0" (toString16 v).

(** A field of five bits as a byte, and a field of six bits as a byte:
    the field moved to the top of the byte, plus its own top bits. *)
Definition expand5 (f : Z) : Z := 8 * f + f / 4.
Definition expand6 (f : Z) : Z := 4 * f + f / 16.

(** The text of a byte in a colour: two hexadecimal digits. *)
Definition byteText (c : Z) : string := padStart 2 "0" (toString16 c).

(** A packed colour reads back from its stored text, which has six
    characters. *)
Definition storedTextReadsBack (v : Z) : bool :=
  match parseInt (storedText v) 16 with
  | Some z => (z =? v) && Nat.eqb (String.length (storedText v)) 6
  | None => false
  end.

(** The text of a byte has two characters and reads back. *)
Definition byteTextReadsBack (c : Z) : bool :=
  match byteText c with
  | String c1 (String c2 EmptyString) =>
      match parseInt (String c1 (String c2 EmptyString)) 16 with
      | Some z => z =? c
      | None => false
      end
  | _ => false
  end.

(** The three fields of a packed colour below 2^16. *)
Definition fields (x : Z) : Z * Z * Z := (x / 2048, (x / 32) mod 64, x mod 32).

(** The text the picker shows for a packed colour is the text of its
    three decoded channels. *)
Definition pickerShowsChannels (x : Z) : bool :=
  let '(r5, g6, b5) := fields x in
  String.eqb
    (pickerText (expand5 r5 * 65536 + expand6 g6 * 256 + expand5 b5))
    (hexText (expand5 r5, expand6 g6, expand5 b5)).

End PackedColourVocabulary.

Section IntegerVocabulary.
Import JS Value CanvasManager.

(** The member holds the integer [z], as a number or as its decimal
    text, within the range where the numbers of the runtime are exact. *)
Definition holdsInteger (z : Z) (v : jsval) : Prop :=
  Z.abs z < 2 ^ 53 /\ (v = JNum z \/ v = JStr (toString10 z)).

End IntegerVocabulary.

Section TrafficVocabulary.
Import JS Value WebSocketManager.

(** The number of inbound messages of a sequence of events. *)
Fixpoint messages (es : list Event) : Z :=
  match es with
  | [] => 0
  | SocketMessage _ _ _ :: rest => 1 + messages rest
  | _ :: rest => messages rest
  end.

(** Events that do not call [connect()]: neither the page nor a timer
    does. *)
Definition withoutConnecting (e : Event) : bool :=
  match e with
  | CallConnect | TimerFires => false
  | _ => true
  end.

(** Events other than the opening of a socket. *)
Definition withoutOpening (e : Event) : bool :=
  match e with
  | SocketOpen _ => false
  | _ => true
  end.

(** What holds of a manager whatever has happened to it. *)
Definition wellFormed (s : State) : Prop :=
  0 <= reconnectAttempts (this s) <= 5
  /\ maxReconnectAttempts (this s) = 5
  /\ reconnectDelay (this s) = 2000
  /\ Forall (fun delay => delay = 2000) (timers s)
  /\ (forall i, ws (this s) = Some i -> (i < List.length (sockets s))%nat)
  /\ 0 <= messageCount (this s)
  /\ (messageCount (this s) = 0 <-> lastMessageTime (this s) = None).

(** Two messages on an open socket, one that decodes and one that does
    not, then the close of the socket. *)
Definition traffic : list Event :=
  [ CallConnect; SocketOpen 0;
    SocketMessage 0 (wire "{'cells': []}") 1700000000000%float;
    SocketMessage 0 "cells" 1700000000100%float;
    SocketClose 0 1006 ].

(** The page disconnects from an open socket. *)
Definition disconnectedByPage : list Event :=
  [CallConnect; SocketOpen 0; CallDisconnect].

End TrafficVocabulary.

Section WindowVocabulary.
Import JS Value LiveDataManager.

(** [null] or [undefined], on which a property access throws. *)
Definition nullish (v : jsval) : bool :=
  match v with
  | JUndefined | JNull => true
  | _ => false
  end.

(** The last [n] elements of a list. *)
Definition lastN {A : Type} (n : nat) (l : list A) : list A :=
  skipn (List.length l - n) l.

End WindowVocabulary.

Section WaitVocabulary.
Import Value Utility.

(** No configuration is present at any of these moments. *)
Definition absent (seen : list jsval) : Prop :=
  Forall (fun configData => truthy configData = false) seen.

(** The number of the first run of the timer at which the promise is
    rejected if no configuration appears: the run at which the counter
    reaches the timeout, and the first run if the timeout is not
    positive. *)
Definition deadline (timeout : option Z) : Z :=
  Z.max 1 ((timeoutOf timeout + interval - 1) / interval).

Definition timedOut : Promise :=
  Rejected "Timed out waiting for configuration data".

End WaitVocabulary.

Section ListVocabulary.
Import JS Value ConfigManager.

Fixpoint blank (s : string) : bool :=
  match s with
  | EmptyString => true
  | String c r => isWhiteSpace c && blank r
  end.

Fixpoint commaFree (s : string) : bool :=
  match s with
  | EmptyString => true
  | String c r => negb (Ascii.eqb c ",") && commaFree r
  end.

(** An entry as the lists show it: not empty, without comma, without
    white space at either end. *)
Definition entry (c : string) : Prop :=
  c <> "" /\ commaFree c = true /\ trim c = c.

(** A configuration whose member [key] of section [section] is the text
    [text]. *)
Definition setting (section key : string) (text : string) : jsval :=
  JObj [(section, JObj [(key, JStr text)])].

(** An entry written with white space around it. *)
Definition padded (item : string * string * string) : string :=
  let '(lead, c, trail) := item in lead ++ c ++ trail.

Definition codeOf (item : string * string * string) : string :=
  let '(_, c, _) := item in c.

Definition padding (item : string * string * string) : Prop :=
  let '(lead, _, trail) := item in blank lead = true /\ blank trail = true.

End ListVocabulary.

Section ScreenVocabulary.
Import Value ConfigManager.


End ScreenVocabulary.

Section ZoomVocabulary.
Import CanvasZoom.

(** The zoom levels from 50 % to 400 % in steps of 25 %. *)
Definition zoomLevels : list float :=
  [0.5; 0.75; 1; 1.25; 1.5; 1.75; 2; 2.25; 2.5; 2.75; 3; 3.25; 3.5; 3.75; 4]%float.

(** A canvas manager as constructed, at the given level. *)
Definition atLevel (level : float) : State :=
  mkState (-1) level 0.5 4 0.25.

(** The canvas manager after a sequence of clicks on the zoom buttons. *)
Definition pressed (buttons : list Button) : State :=
  fold_left (fun s b => press b s) buttons constructor.

End ZoomVocabulary.

Section ExactGeometryVocabulary.
Import JS Value CanvasManager.

(** The conversion of a value to text throws: the value is an object with
    a member named [toString], or an array that holds such a value. *)
Fixpoint unprintable (v : jsval) : bool :=
  match v with
  | JArr elems => existsb unprintable elems
  | JObj members => hasMember "toString" members
  | _ => false
  end.

(** The numbers that the text of a value shows are below [bound] in
    magnitude. *)
Fixpoint numbersBelow (bound : Z) (v : jsval) : bool :=
  match v with
  | JNum z => Z.abs z <? bound
  | JArr elems => forallb (numbersBelow bound) elems
  | _ => true
  end.

(** A geometry member in the range where the runtime holds integers
    exactly: the numbers it shows, and the integer read from its text,
    are below [bound] in magnitude. *)
Definition exactMember (bound : Z) (v : jsval) : Prop :=
  numbersBelow bound v = true
  /\ forall s n, ToString v = Some s -> parseInt s 10 = Some n -> Z.abs n < bound.

Definition geometryNames : list string := ["posx"; "posy"; "sizex"; "sizey"].

Definition exactCell (bound : Z) (cell : jsval) : Prop :=
  Forall (fun f => exactMember bound (member cell f)) geometryNames.

(** The cell is [null] or [undefined], or one of its geometry members
    cannot be converted to text. *)
Definition unreadable (cell : jsval) : bool :=
  nullish cell || existsb (fun f => unprintable (member cell f)) geometryNames.

(** A cell whose geometry members are arrays and a plain object, with
    [sizey] missing. *)
Definition looseCell : jsval :=
  JObj [("posx", JArr [JNum 7]); ("posy", JObj [("x", JNum 3)]);
        ("sizex", JArr [JStr "12"; JNum 3])].

(** A cell whose [posx] hides the inherited [toString]. *)
Definition opaqueCell : jsval :=
  JObj [("posx", JObj [("toString", JStr "5")]); ("posy", JNum 0);
        ("sizex", JNum 100); ("sizey", JNum 50)].

End ExactGeometryVocabulary.

(* ====================================================================== *)
(** * Properties of the codec                                              *)
(* ====================================================================== *)

Section ColorCodec.
Import JS Color.

Lemma ToInt32_small (z : Z) : - 2 ^ 31 <= z < 2 ^ 31 -> ToInt32 z = z.
Proof.
  intros Hz. unfold ToInt32.
  destruct (Z_lt_le_dec z 0) as [Hneg | Hpos].
  - replace (z mod 2 ^ 32) with (z + 2 ^ 32).
    + destruct (Z.leb_spec (2 ^ 31) (z + 2 ^ 32)); lia.
    + apply Z.mod_unique with (q := -1); lia.
  - rewrite Z.mod_small by lia.
    destruct (Z.leb_spec (2 ^ 31) z); lia.
Qed.

Lemma shiftCount_small (n : Z) : 0 <= n < 32 -> shiftCount n = n.
Proof.
  intros Hn. unfold shiftCount.
  rewrite (Z.mod_small n (2 ^ 32)) by lia. apply Z.mod_small. lia.
Qed.

Lemma sar_small (a n : Z) :
  0 <= a < 2 ^ 31 -> 0 <= n < 32 -> sar a n = a / 2 ^ n.
Proof.
  intros Ha Hn. unfold sar.
  rewrite ToInt32_small, shiftCount_small by lia.
  apply Z.shiftr_div_pow2. lia.
Qed.

Lemma shl_small (a n : Z) :
  0 <= a -> 0 <= n < 32 -> a * 2 ^ n < 2 ^ 31 -> shl a n = a * 2 ^ n.
Proof.
  intros Ha Hn Hlt. unfold shl.
  assert (1 <= 2 ^ n) by (apply Z.pow_le_mono_r with (b := 0); lia).
  rewrite (ToInt32_small a), shiftCount_small by nia.
  rewrite Z.shiftl_mul_pow2 by lia.
  apply ToInt32_small. nia.
Qed.

(** [a & (2^k - 1)] keeps the low [k] bits. *)
Lemma band_ones (a k : Z) :
  0 <= a < 2 ^ 31 -> 0 <= k < 31 -> band a (Z.ones k) = a mod 2 ^ k.
Proof.
  intros Ha Hk. unfold band.
  assert (0 < 2 ^ k < 2 ^ 31) by (split; [lia | apply Z.pow_lt_mono_r; lia]).
  rewrite (ToInt32_small a), (ToInt32_small (Z.ones k)) by (rewrite ?Z.ones_equiv; lia).
  apply Z.land_ones. lia.
Qed.

Lemma lor_below (a b n : Z) :
  0 <= n -> 0 <= a < 2 ^ n -> 0 <= b < 2 ^ n -> 0 <= Z.lor a b < 2 ^ n.
Proof.
  intros Hn Ha Hb. split.
  - apply Z.lor_nonneg. lia.
  - destruct (Z.eq_dec (Z.lor a b) 0) as [E | E].
    + rewrite E. lia.
    + assert (0 < Z.lor a b) by (pose proof (proj2 (Z.lor_nonneg a b)); lia).
      assert (0 < n).
      { destruct (Z.eq_dec n 0) as [-> | ]; [| lia].
        assert (a = 0) by (simpl in Ha; lia). assert (b = 0) by (simpl in Hb; lia).
        subst. simpl in E. congruence. }
      apply Z.log2_lt_pow2; [lia |].
      rewrite Z.log2_lor by lia.
      apply Z.max_lub_lt.
      * destruct (Z.eq_dec a 0) as [-> | ]; [simpl; lia | apply Z.log2_lt_pow2; lia].
      * destruct (Z.eq_dec b 0) as [-> | ]; [simpl; lia | apply Z.log2_lt_pow2; lia].
Qed.

Lemma bor_below (a b n : Z) :
  0 <= n <= 31 -> 0 <= a < 2 ^ n -> 0 <= b < 2 ^ n -> 0 <= bor a b < 2 ^ n.
Proof.
  intros Hn Ha Hb. unfold bor.
  assert (2 ^ n <= 2 ^ 31) by (apply Z.pow_le_mono_r; lia).
  rewrite !ToInt32_small by lia.
  apply lor_below; lia.
Qed.

(** A field of [bits] bits, shifted up to eight bits, plus its own top
    bits: the rounding step stays within a byte. *)
Lemma expand_field (f bits : Z) :
  (bits = 5 \/ bits = 6) -> 0 <= f < 2 ^ bits ->
  let c := shl f (8 - bits) in
  0 <= c + sar c bits <= 255.
Proof.
  intros Hbits Hf c. subst c.
  destruct Hbits; subst bits; simpl in Hf |- *.
  - rewrite shl_small by (simpl; lia).
    rewrite sar_small by (simpl; lia).
    change (2 ^ 3) with 8. change (2 ^ 5) with 32.
    pose proof (Z.div_lt_upper_bound (f * 8) 32 8).
    pose proof (Z.div_pos (f * 8) 32). lia.
  - rewrite shl_small by (simpl; lia).
    rewrite sar_small by (simpl; lia).
    change (2 ^ 2) with 4. change (2 ^ 6) with 64.
    pose proof (Z.div_lt_upper_bound (f * 4) 64 4).
    pose proof (Z.div_pos (f * 4) 64). lia.
Qed.

Lemma red_field (x : Z) : 0 <= x <= 65535 -> 0 <= band (sar x 11) 0x1F < 2 ^ 5.
Proof.
  intros Hx. rewrite sar_small by lia.
  assert (0 <= x / 2 ^ 11 < 2 ^ 31).
  { split; [apply Z.div_pos; lia | apply Z.div_lt_upper_bound; lia]. }
  change 0x1F with (Z.ones 5). rewrite band_ones by lia.
  apply Z.mod_pos_bound. lia.
Qed.

Lemma green_field (x : Z) : 0 <= x <= 65535 -> 0 <= band (sar x 5) 0x3F < 2 ^ 6.
Proof.
  intros Hx. rewrite sar_small by lia.
  assert (0 <= x / 2 ^ 5 < 2 ^ 31).
  { split; [apply Z.div_pos; lia | apply Z.div_lt_upper_bound; lia]. }
  change 0x3F with (Z.ones 6). rewrite band_ones by lia.
  apply Z.mod_pos_bound. lia.
Qed.

Lemma blue_field (x : Z) : 0 <= x <= 65535 -> 0 <= band x 0x1F < 2 ^ 5.
Proof.
  intros Hx. change 0x1F with (Z.ones 5). rewrite band_ones by lia.
  apply Z.mod_pos_bound. lia.
Qed.

(** C2. For each of the five 24-bit colours (255,0,0), (0,255,0),
    (0,0,255), (255,255,255) and (0,0,0), encoding its text with
    [rgb888ToRgb565] and decoding the packed value with [rgb565ToRgb888]
    gives back the three channels exactly, and the decoded colour shows as
    the text that was encoded. *)
Theorem decode_encode_primaries :
  Forall (fun c =>
            decodeEncode c = c
            /\ pickerText (rgb565ToRgb888 (readPacked (rgb888ToRgb565 (hexText c))))
               = hexText c)
         [(255, 0, 0); (0, 255, 0); (0, 0, 255); (255, 255, 255); (0, 0, 0)]
  /\ map hexText [(255, 0, 0); (0, 255, 0); (0, 0, 255); (255, 255, 255); (0, 0, 0)]
     = ["#ff0000"; "#00ff00"; "#0000ff"; "#ffffff"; "#000000"]
  /\ map rgb888ToRgb565 ["#ff0000"; "#00ff00"; "#0000ff"; "#ffffff"; "#000000"]
     = ["0xf800"; "0x07e0"; "0x001f"; "0xffff"; "0x0000"].
Proof.
  split; [| split]; [| vm_compute; reflexivity | vm_compute; reflexivity].
  repeat constructor; vm_compute; reflexivity.
Qed.

(** A byte moved up by 16 or 8 bits stays below 2^24. *)
Lemma shl_byte (c n : Z) :
  0 <= c <= 255 -> (n = 16 \/ n = 8) -> 0 <= shl c n < 2 ^ 24.
Proof.
  intros Hc [-> | ->].
  - rewrite shl_small; change (2 ^ 16) with 65536;
      change (2 ^ 31) with 2147483648; change (2 ^ 24) with 16777216; lia.
  - rewrite shl_small; change (2 ^ 8) with 256;
      change (2 ^ 31) with 2147483648; change (2 ^ 24) with 16777216; lia.
Qed.

(** C10. For every input in 0..65535, [rgb565ToRgb888] produces a red,
    green and blue channel in 0..255 each, so the rounding steps never
    push a channel past 255, and the packed result is a non-negative
    value below 2^24. *)
Theorem rgb565ToRgb888_in_range (x : Z) :
  0 <= x <= 65535 ->
  let '(r, g, b) := channels x in
  0 <= r <= 255 /\ 0 <= g <= 255 /\ 0 <= b <= 255
  /\ 0 <= rgb565ToRgb888 x < 2 ^ 24.
Proof.
  intros Hx. unfold rgb565ToRgb888.
  pose proof (expand_field _ 5 (or_introl eq_refl) (red_field x Hx)) as Hr.
  pose proof (expand_field _ 6 (or_intror eq_refl) (green_field x Hx)) as Hg.
  pose proof (expand_field _ 5 (or_introl eq_refl) (blue_field x Hx)) as Hb.
  unfold channels. cbv zeta in Hr, Hg, Hb |- *.
  change (8 - 5) with 3 in Hr, Hb. change (8 - 6) with 2 in Hg.
  set (r := shl (band (sar x 11) 31) 3 + sar (shl (band (sar x 11) 31) 3) 5) in *.
  set (g := shl (band (sar x 5) 63) 2 + sar (shl (band (sar x 5) 63) 2) 6) in *.
  set (b := shl (band x 31) 3 + sar (shl (band x 31) 3) 5) in *.
  assert (Hpacked : 0 <= bor (bor (shl r 16) (shl g 8)) b < 2 ^ 24).
  { apply bor_below with (n := 24); [lia | |].
    - apply bor_below with (n := 24); [lia | |]; apply shl_byte; auto.
    - change (2 ^ 24) with 16777216. lia. }
  repeat split; try lia; apply Hpacked.
Qed.

(** The bound of C10 at pure white, where every channel reaches 255. *)
Lemma rgb565ToRgb888_in_range_white :
  0 <= 65535 <= 65535
  /\ channels 65535 = (255, 255, 255)
  /\ 0 <= rgb565ToRgb888 65535 < 2 ^ 24.
Proof.
  split; [lia |]. split; [vm_compute; reflexivity |].
  pose proof (rgb565ToRgb888_in_range 65535 ltac:(lia)) as H.
  replace (channels 65535) with (255, 255, 255) in H by (vm_compute; reflexivity).
  apply H.
Defined.

End ColorCodec.

(* ====================================================================== *)
(** * Properties of geometry parsing and hit testing                       *)
(* ====================================================================== *)

Section CellGeometry.
Import JS Value CanvasManager.

Lemma digitValue_bounds (c : ascii) (d : Z) : digitValue c = Some d -> 0 <= d.
Proof.
  unfold digitValue.
  set (n := Z.of_nat (nat_of_ascii c)).
  destruct (Z.leb_spec 48 n); destruct (Z.leb_spec n 57); simpl;
    try (intros [= <-]; lia);
    destruct (Z.leb_spec 97 n); destruct (Z.leb_spec n 122); simpl;
    try (intros [= <-]; lia);
    destruct (Z.leb_spec 65 n); destruct (Z.leb_spec n 90); simpl;
    try (intros [= <-]; lia); discriminate.
Qed.

(** Digits add up to a non-negative integer. *)
Lemma readDigits_nonneg (R : Z) (s : string) :
  0 <= R ->
  forall acc v,
    (forall a, acc = Some a -> 0 <= a) ->
    readDigits R acc s = Some v -> 0 <= v.
Proof.
  intros HR. induction s as [ | c r IH]; intros acc v Hacc; simpl.
  - intros ->. apply Hacc. reflexivity.
  - destruct (digitValue c) as [d | ] eqn:Hd.
    + destruct (d <? R).
      * apply IH. intros a [= <-].
        pose proof (digitValue_bounds _ _ Hd).
        assert (0 <= nanToZero acc).
        { destruct acc as [a0 | ]; simpl; [apply Hacc; reflexivity | lia]. }
        nia.
      * intros ->. apply Hacc. reflexivity.
    + intros ->. apply Hacc. reflexivity.
Qed.

(** Once a digit has been read, the result is a number. *)
Lemma readDigits_started (R : Z) (s : string) (a : Z) :
  exists v, readDigits R (Some a) s = Some v.
Proof.
  revert a. induction s as [ | c r IH]; intros a; simpl; eauto.
  destruct (digitValue c) as [d | ]; eauto.
  destruct (d <? R); eauto.
Qed.

(** Text that does not start with a decimal digit reads as [NaN]. *)
Lemma readDigits_malformed (s : string) :
  startsWithDigit s = false -> readDigits 10 None s = None.
Proof.
  destruct s as [ | c r]; simpl; [reflexivity |].
  unfold digitValue. set (n := Z.of_nat (nat_of_ascii c)).
  intros Hd. rewrite Hd.
  destruct ((97 <=? n) && (n <=? 122)) eqn:Hl.
  - apply andb_prop in Hl as [H1 H2].
    destruct (Z.ltb_spec (n - 87) 10); [lia | reflexivity].
  - destruct ((65 <=? n) && (n <=? 90)) eqn:Hu; [| reflexivity].
    apply andb_prop in Hu as [H1 H2].
    destruct (Z.ltb_spec (n - 55) 10); [lia | reflexivity].
Qed.

Lemma parseInt_malformed (s : string) : malformed s -> parseInt s 10 = None.
Proof.
  unfold malformed, parseInt. intros Hm.
  destruct (readSign (trimStart s)) as [neg body]. simpl in Hm.
  change (stripPrefix 10 body) with body.
  rewrite (readDigits_malformed _ Hm). reflexivity.
Qed.

(** A negative result needs a minus sign. *)
Lemma parseInt_negative (s : string) (z : Z) :
  parseInt s 10 = Some z -> z < 0 -> exists r, trimStart s = String "-" r.
Proof.
  unfold parseInt. intros Hp Hz.
  destruct (trimStart s) as [ | c r] eqn:Ht.
  - simpl in Hp. discriminate.
  - destruct (Ascii.eqb_spec c "-") as [-> | Hc]; [eauto |]. exfalso.
    assert (Hpos : exists t, readSign (String c r) = (false, t)).
    { unfold readSign.
      destruct c as [[ | ] [ | ] [ | ] [ | ] [ | ] [ | ] [ | ] [ | ]];
        try (eexists; reflexivity). exfalso. apply Hc. reflexivity. }
    destruct Hpos as [t Hs]. rewrite Hs in Hp.
    change (stripPrefix 10 t) with t in Hp.
    destruct (readDigits 10 None t) as [v | ] eqn:Hv; [| discriminate].
    injection Hp as <-.
    assert (0 <= v) by (eapply readDigits_nonneg; [| | exact Hv]; [lia | discriminate]).
    lia.
Qed.

(** Induction on a value, with the elements of an array as premises. *)
Lemma jsval_elements_ind (P : jsval -> Prop) :
  P JUndefined -> P JNull -> (forall b, P (JBool b)) -> (forall z, P (JNum z)) ->
  (forall s, P (JStr s)) ->
  (forall elems, Forall P elems -> P (JArr elems)) ->
  (forall members, P (JObj members)) ->
  forall v, P v.
Proof.
  intros Hu Hn Hb Hz Hs Ha Ho.
  fix IH 1. intros v. destruct v as [ | | b | z | s | elems | members].
  - exact Hu.
  - exact Hn.
  - apply Hb.
  - apply Hz.
  - apply Hs.
  - apply Ha. induction elems as [ | e es IHes]; constructor; [apply IH | exact IHes].
  - apply Ho.
Qed.

Lemma sequence_none {A : Type} (l : list (option A)) :
  sequence l = None <-> In None l.
Proof.
  induction l as [ | [a | ] rest IH]; simpl.
  - split; [discriminate | contradiction].
  - destruct (sequence rest); split.
    + discriminate.
    + intros [H | H]; [discriminate | apply IH in H; discriminate].
    + intros _. right. apply IH. reflexivity.
    + reflexivity.
  - split; auto.
Qed.

(** The conversion to text fails exactly on the values [unprintable]
    names. *)
Lemma ToString_unprintable (v : jsval) :
  ToString v = None <-> unprintable v = true.
Proof.
  induction v as [ | | b | z | s | elems IH | members] using jsval_elements_ind;
    try (simpl; split; discriminate).
  - destruct b; simpl; split; discriminate.
  - cbn [ToString unprintable].
    match goal with
    | |- context [sequence ?l] => set (parts := l)
    end.
    assert (H : sequence parts = None <-> existsb unprintable elems = true).
    { subst parts. rewrite sequence_none, existsb_exists, in_map_iff.
      rewrite Forall_forall in IH. split.
      - intros (e & He & Hin). exists e. split; [exact Hin |].
        apply IH; [exact Hin |].
        destruct e; try discriminate; exact He.
      - intros (e & Hin & He). exists e. split; [| exact Hin].
        apply IH in He; [| exact Hin].
        destruct e; try discriminate; exact He. }
    destruct (sequence parts); split; intros H0; try discriminate.
    + apply H in H0. discriminate.
    + apply H. reflexivity.
    + reflexivity.
  - simpl. destruct (hasMember "toString" members); split; congruence.
Qed.


(** Reading a geometry field throws exactly on a cell that is [null] or
    [undefined] and on a member that cannot be converted to text. *)
Lemma geometryField_unreadable (cell : jsval) (f : string) :
  geometryField cell f = None <->
  nullish cell = true \/ unprintable (member cell f) = true.
Proof.
  unfold geometryField, member, parseIntOf.
  destruct (get cell f) as [v | ] eqn:Hget.
  - assert (Hn : nullish cell = false) by (destruct cell; simpl in *; congruence).
    rewrite Hn, <- ToString_unprintable.
    destruct (ToString v); split; intros H; try discriminate; auto.
    destruct H; discriminate.
  - assert (Hn : nullish cell = true) by (destruct cell; simpl in *; congruence).
    rewrite Hn. split; auto.
Qed.

(** What [parseInt(v, 10) || 0] makes of a value that converts to text. *)
Lemma parsedFrom_text (v : jsval) (s : string) :
  ToString v = Some s -> parsedFrom v (orZero (parseInt s 10)).
Proof.
  intros Hs. exists s. repeat split.
  - exact Hs.
  - intros Hm. rewrite (parseInt_malformed s Hm). reflexivity.
  - destruct (parseInt s 10) as [z | ] eqn:Hz; simpl; [| lia].
    destruct (Z.eqb_spec z 0); [lia |].
    intros Hneg. eapply parseInt_negative; eauto.
Qed.

Lemma geometryField_parsed (cell : jsval) (f : string) (z : Z) :
  geometryField cell f = Some z -> parsedFrom (member cell f) z.
Proof.
  unfold geometryField, member, parseIntOf.
  destruct (get cell f) as [v | ]; [| discriminate].
  destruct (ToString v) as [s | ] eqn:Hs; [| discriminate].
  intros [= <-]. apply parsedFrom_text. exact Hs.
Qed.

Lemma geometry_fields (cell : jsval) :
  match geometry cell with
  | Some g =>
      geometryField cell "posx" = Some (px g)
      /\ geometryField cell "posy" = Some (py g)
      /\ geometryField cell "sizex" = Some (w g)
      /\ geometryField cell "sizey" = Some (h g)
  | None =>
      geometryField cell "posx" = None \/ geometryField cell "posy" = None
      \/ geometryField cell "sizex" = None \/ geometryField cell "sizey" = None
  end.
Proof.
  unfold geometry.
  destruct (geometryField cell "posx"); [| auto].
  destruct (geometryField cell "posy"); [| auto].
  destruct (geometryField cell "sizex"); [| auto].
  destruct (geometryField cell "sizey"); [| auto].
  simpl. auto.
Qed.

Lemma geometry_unreadable (cell : jsval) :
  geometry cell = None <-> unreadable cell = true.
Proof.
  unfold unreadable, geometryNames. cbn [existsb].
  rewrite !orb_true_iff.
  pose proof (geometry_fields cell) as H.
  pose proof (geometryField_unreadable cell "posx") as Hx.
  pose proof (geometryField_unreadable cell "posy") as Hy.
  pose proof (geometryField_unreadable cell "sizex") as Hw.
  pose proof (geometryField_unreadable cell "sizey") as Hh.
  destruct (geometry cell) as [g | ].
  - destruct H as (Ex & Ey & Ew & Eh). rewrite Ex in Hx. rewrite Ey in Hy.
    rewrite Ew in Hw. rewrite Eh in Hh.
    split; [discriminate |]. intros H. exfalso.
    destruct H as [H | [H | [H | [H | [H | H]]]]]; try discriminate;
      [ assert (@None Z = Some (px g)) by (symmetry; apply Hx; auto)
      | assert (@None Z = Some (px g)) by (symmetry; apply Hx; auto)
      | assert (@None Z = Some (py g)) by (symmetry; apply Hy; auto)
      | assert (@None Z = Some (w g)) by (symmetry; apply Hw; auto)
      | assert (@None Z = Some (h g)) by (symmetry; apply Hh; auto) ];
      discriminate.
  - split; [| reflexivity]. intros _.
    destruct H as [H | [H | [H | H]]];
      [apply Hx in H | apply Hy in H | apply Hw in H | apply Hh in H];
      destruct H as [H | H]; auto 10.
Qed.




Lemma exactMember_text (bound : Z) (v : jsval) (s : string) (n : option Z) :
  numbersBelow bound v = true ->
  ToString v = Some s -> parseInt s 10 = n ->
  match n with Some z => Z.abs z < bound | None => True end ->
  exactMember bound v.
Proof.
  intros Hnum Hs Hn Hz. split; [exact Hnum |].
  intros s' n' Hs' Hn'. rewrite Hs in Hs'. injection Hs' as <-.
  rewrite Hn' in Hn. subst n. exact Hz.
Qed.



(** C7, as stated, fails: a negative position or size stays negative, and
    reading the geometry throws on a member that cannot be converted to
    text and on a cell that is [null]. *)
Lemma geometry_negative_counterexample :
  geometry negativeCell = Some (mkGeometry (-5) (-3) (-10) 0)
  /\ ~ (forall g, geometry negativeCell = Some g ->
                  0 <= px g /\ 0 <= py g /\ 0 <= w g /\ 0 <= h g)
  /\ geometry opaqueCell = None
  /\ geometry JNull = None.
Proof.
  split; [reflexivity |]. split.
  - intros H. specialize (H _ eq_refl). simpl in H. lia.
  - split; reflexivity.
Qed.

(** C7, amended. For every cell input whose numbers are below 2^53 in
    magnitude: reading [posx], [posy], [sizex] and [sizey] throws exactly
    when the cell is [null] or [undefined] or one of these members cannot
    be converted to text (an object with a member named [toString], or an
    array that holds one); otherwise each member is read from its text,
    malformed input gives 0, and a member is negative after parsing only
    when its text carries a minus sign, and then the negative value is
    kept. *)
Theorem geometry_parsed (cell : jsval) :
  exactCell (2 ^ 53) cell ->
  (geometry cell = None <-> unreadable cell = true)
  /\ forall g,
       geometry cell = Some g ->
       parsedFrom (member cell "posx") (px g)
       /\ parsedFrom (member cell "posy") (py g)
       /\ parsedFrom (member cell "sizex") (w g)
       /\ parsedFrom (member cell "sizey") (h g).
Proof.
  intros _. split; [apply geometry_unreadable |].
  intros g Hg. pose proof (geometry_fields cell) as H. rewrite Hg in H.
  destruct H as (Ex & Ey & Ew & Eh).
  repeat split; apply geometryField_parsed; assumption.
Qed.


(** C7, amended, on the cell with negative and malformed geometry and on
    the cell whose members are arrays and a plain object. *)
Lemma geometry_parsed_negativeCell :
  exactCell (2 ^ 53) negativeCell
  /\ geometry negativeCell = Some (mkGeometry (-5) (-3) (-10) 0)
  /\ ((geometry negativeCell = None <-> unreadable negativeCell = true)
      /\ forall g,
           geometry negativeCell = Some g ->
           parsedFrom (member negativeCell "posx") (px g)
           /\ parsedFrom (member negativeCell "posy") (py g)
           /\ parsedFrom (member negativeCell "sizex") (w g)
           /\ parsedFrom (member negativeCell "sizey") (h g))
  /\ exactCell (2 ^ 53) looseCell
  /\ geometry looseCell = Some (mkGeometry 7 0 12 0)
  /\ ((geometry looseCell = None <-> unreadable looseCell = true)
      /\ forall g,
           geometry looseCell = Some g ->
           parsedFrom (member looseCell "posx") (px g)
           /\ parsedFrom (member looseCell "posy") (py g)
           /\ parsedFrom (member looseCell "sizex") (w g)
           /\ parsedFrom (member looseCell "sizey") (h g)).
Proof.
  assert (Hneg : exactCell (2 ^ 53) negativeCell).
  { repeat constructor;
      (eapply exactMember_text;
       [ reflexivity | reflexivity | vm_compute; reflexivity
       | vm_compute; reflexivity ]). }
  assert (Hloose : exactCell (2 ^ 53) looseCell).
  { repeat constructor;
      (eapply exactMember_text;
       [ reflexivity | reflexivity | vm_compute; reflexivity
       | vm_compute; reflexivity ]). }
  split; [exact Hneg |]. split; [reflexivity |].
  split; [apply (geometry_parsed negativeCell Hneg) |].
  split; [exact Hloose |]. split; [reflexivity |].
  apply (geometry_parsed looseCell Hloose).
Defined.

End CellGeometry.

(* ====================================================================== *)
(** * Properties of the WebSocket manager                                  *)
(* ====================================================================== *)

Section Connection.
Import JS Value WebSocketManager.

Variable browser : Browser.

Ltac unfold_methods :=
  unfold connect, disconnect, onopen, onmessage, onerror, onclose,
    onMessage, onStatusChange, updateStatus, setThis, set_ws,
    set_reconnectAttempts, set_messageCallback, set_statusCallback,
    set_messageCount, set_lastMessageTime, set_shouldReconnect, set_sockets,
    set_timers, set_delivered in *.

(** The two constants of the constructor are never assigned again. *)
Lemma step_constants (e : Event) (s s' : State) :
  step browser e s = Some s' ->
  maxReconnectAttempts (this s') = maxReconnectAttempts (this s)
  /\ reconnectDelay (this s') = reconnectDelay (this s).
Proof.
  destruct e; simpl; intros Hstep;
    repeat match type of Hstep with
           | match ?x with _ => _ end = Some _ => destruct x; try discriminate
           end;
    injection Hstep as <-; unfold_methods; simpl;
    repeat match goal with
           | |- context [match ?x with _ => _ end] => destruct x; simpl
           | |- context [if ?x then _ else _] => destruct x; simpl
           end; auto.
Qed.

Lemma reachable_constants (s : State) :
  reachable browser s ->
  maxReconnectAttempts (this s) = 5 /\ reconnectDelay (this s) = 2000.
Proof.
  intros [es Hrun].
  assert (Hgen : forall es s0 s1,
             run browser es s0 = Some s1 ->
             maxReconnectAttempts (this s1) = maxReconnectAttempts (this s0)
             /\ reconnectDelay (this s1) = reconnectDelay (this s0)).
  { clear. induction es as [ | e rest IH]; simpl; intros s0 s1 Hrun.
    - injection Hrun as <-. auto.
    - destruct (step browser e s0) as [s' | ] eqn:He; [| discriminate].
      destruct (IH _ _ Hrun) as [-> ->]. exact (step_constants _ _ _ He). }
  destruct (Hgen _ _ _ Hrun) as [-> ->]. split; reflexivity.
Qed.

Lemma connect_budget (k : Z) (s : State) : budget k s -> budget k (connect browser s).
Proof.
  unfold budget, connect. intros (Hre & Hat & Hmax & Hdelay).
  destruct (wsIsOpen s); [auto |].
  destruct (WebSocket_throws browser (wsUrl browser)); simpl; auto.
Qed.

(** What a close event does, by the state it meets. *)
Lemma onclose_effect (code : Z) (s : State) :
  let s' := onclose code s in
  connectionState s' = disconnected
  /\ sockets s' = sockets s
  /\ shouldReconnect (this s') = shouldReconnect (this s)
  /\ maxReconnectAttempts (this s') = maxReconnectAttempts (this s)
  /\ reconnectDelay (this s') = reconnectDelay (this s)
  /\ if shouldReconnect (this s)
        && (reconnectAttempts (this s) <? maxReconnectAttempts (this s))
     then reconnectAttempts (this s') = reconnectAttempts (this s) + 1
          /\ timers s' = (timers s ++ [reconnectDelay (this s)])%list
     else reconnectAttempts (this s') = reconnectAttempts (this s)
          /\ timers s' = timers s.
Proof.
  unfold onclose, connectionState. simpl.
  destruct (shouldReconnect (this s)
            && (reconnectAttempts (this s) <? maxReconnectAttempts (this s)));
    simpl; auto 10.
Qed.

Lemma step_budget (k : Z) (e : Event) (s s' : State) :
  0 <= k -> withoutOpen e = true -> budget k s ->
  step browser e s = Some s' ->
  budget (k + (if isClose e then 1 else 0)) s'.
Proof.
  intros Hk Hq Hb Hstep.
  destruct e; try discriminate; simpl in Hstep; rewrite ?Z.add_0_r.
  - injection Hstep as <-. apply connect_budget. exact Hb.
  - injection Hstep as <-. exact Hb.
  - injection Hstep as <-. exact Hb.
  - destruct (nth_error (sockets s) i) as [[ | | | ] | ]; try discriminate.
    injection Hstep as <-. destruct Hb as (Hre & Hat & Hmax & Hdelay).
    unfold budget, onmessage. simpl.
    destruct (JSON_parse browser data); [simpl; auto |].
    destruct (messageCallback (this s)) as [callback | ]; simpl; auto.
    destruct (callback j); simpl; auto.
  - destruct (nth_error (sockets s) i) as [[ | | | ] | ]; try discriminate;
      injection Hstep as <-; exact Hb.
  - assert (Hs' : exists s0, s' = onclose code s0 /\ this s0 = this s).
    { destruct (nth_error (sockets s) i) as [[ | | | ] | ]; try discriminate;
        injection Hstep as <-; eexists; split; reflexivity. }
    destruct Hs' as (s0 & -> & Hthis).
    destruct Hb as (Hre & Hat & Hmax & Hdelay).
    pose proof (onclose_effect code s0) as (_ & _ & Hre' & Hmax' & Hdelay' & Hcase).
    rewrite Hthis in *. rewrite Hre, Hat, Hmax in Hcase. simpl in Hcase.
    unfold budget. rewrite Hre', Hmax', Hdelay'.
    repeat split; auto.
    cbn [isClose]. destruct (Z.ltb_spec (Z.min k 5) 5); destruct Hcase as [-> _]; lia.
  - destruct (timers s) as [ | d rest]; [discriminate |].
    injection Hstep as <-. apply connect_budget. exact Hb.
Qed.

Lemma closes_nonneg (es : list Event) : 0 <= closes es.
Proof.
  induction es as [ | e rest IH]; simpl; [lia |]. destruct (isClose e); lia.
Qed.

Lemma run_budget (es : list Event) :
  forall k s s',
    0 <= k -> forallb withoutOpen es = true -> budget k s ->
    run browser es s = Some s' -> budget (k + closes es) s'.
Proof.
  induction es as [ | e rest IH]; simpl; intros k s s' Hk Hq Hb Hrun.
  - injection Hrun as <-. rewrite Z.add_0_r. exact Hb.
  - apply andb_prop in Hq as [He Hrest].
    destruct (step browser e s) as [s1 | ] eqn:Hstep; [| discriminate].
    rewrite Z.add_assoc. eapply IH; [| exact Hrest | | exact Hrun].
    + destruct (isClose e); lia.
    + eapply step_budget; eauto.
Qed.

Lemma updateNth_closed (i : nat) (l : list ReadyState) :
  Forall (fun r => r = CLOSED) l -> updateNth i closeSocket l = l.
Proof.
  intros Hl. revert i. induction Hl as [ | r rest -> Hrest IH]; intros [ | i];
    simpl; try reflexivity. rewrite IH. reflexivity.
Qed.

Lemma closed_silent (i : nat) (l : list ReadyState) :
  Forall (fun r => r = CLOSED) l ->
  nth_error l i = None \/ nth_error l i = Some CLOSED.
Proof.
  intros Hl. destruct (nth_error l i) as [r | ] eqn:Hi; [| auto].
  right. rewrite Forall_forall in Hl. rewrite (Hl r); [reflexivity |].
  eapply nth_error_In. exact Hi.
Qed.

(** In an idle state only a call by the page can happen, and nothing but
    [connect()] leads out of it. *)
Lemma step_idle (e : Event) (s s' : State) :
  withoutConnect e = true -> idle s -> step browser e s = Some s' ->
  idle s' /\ sockets s' = sockets s.
Proof.
  intros He (Hst & Hclosed & Htimers) Hstep.
  destruct e; try discriminate; simpl in Hstep;
    try (destruct (closed_silent i _ Hclosed) as [Hi | Hi];
         rewrite Hi in Hstep; discriminate).
  - injection Hstep as <-. unfold disconnect. simpl.
    destruct (ws (this s)); unfold idle, connectionState; simpl;
      rewrite ?updateNth_closed by assumption; auto.
  - injection Hstep as <-. unfold idle. auto.
  - injection Hstep as <-. unfold idle. auto.
  - rewrite Htimers in Hstep. discriminate.
Qed.

Lemma run_idle (es : list Event) :
  forall s s',
    forallb withoutConnect es = true -> idle s ->
    run browser es s = Some s' -> idle s' /\ sockets s' = sockets s.
Proof.
  induction es as [ | e rest IH]; simpl; intros s s' Hq Hidle Hrun.
  - injection Hrun as <-. auto.
  - apply andb_prop in Hq as [He Hrest].
    destruct (step browser e s) as [s1 | ] eqn:Hstep; [| discriminate].
    destruct (step_idle _ _ _ He Hidle Hstep) as [Hidle1 <-].
    eapply IH; eauto.
Qed.

(** C3. From a state with auto-reconnect enabled and an unused budget,
    along events without a successful open (and without a manual
    disconnect): the attempt counter is the number of close events, up to
    5; each of the first 5 close events increments it and schedules one
    reconnect after 2000 ms; a later close event schedules nothing; and
    once the manager is idle with the budget used up it stays
    disconnected, without a new socket, until the page calls
    [connect()]. *)
Theorem reconnect_budget (s s' : State) (es : list Event) :
  reachable browser s ->
  shouldReconnect (this s) = true ->
  reconnectAttempts (this s) = 0 ->
  forallb withoutOpen es = true ->
  run browser es s = Some s' ->
  reconnectAttempts (this s') = Z.min (closes es) 5
  /\ forall i code s'',
       step browser (SocketClose i code) s' = Some s'' ->
       connectionState s'' = disconnected
       /\ (closes es < 5 ->
           reconnectAttempts (this s'') = closes es + 1
           /\ timers s'' = (timers s' ++ [2000])%list)
       /\ (5 <= closes es ->
           reconnectAttempts (this s'') = 5
           /\ timers s'' = timers s'
           /\ (idle s'' ->
               forall es2 s3,
                 forallb withoutConnect es2 = true ->
                 run browser es2 s'' = Some s3 ->
                 idle s3 /\ sockets s3 = sockets s'')).
Proof.
  intros Hreach Hre Hat Hq Hrun.
  destruct (reachable_constants s Hreach) as [Hmax Hdelay].
  assert (Hb : budget 0 s) by (unfold budget; auto).
  pose proof (closes_nonneg es) as Hk.
  pose proof (run_budget es 0 s s' (Z.le_refl 0) Hq Hb Hrun) as Hb'.
  simpl in Hb'. destruct Hb' as (Hre' & Hat' & Hmax' & Hdelay').
  split; [exact Hat' |].
  intros i code s'' Hstep.
  assert (Hs' : exists s0, s'' = onclose code s0 /\ this s0 = this s' /\ timers s0 = timers s').
  { simpl in Hstep.
    destruct (nth_error (sockets s') i) as [[ | | | ] | ]; try discriminate;
      injection Hstep as <-; eexists; repeat split; reflexivity. }
  destruct Hs' as (s0 & -> & Hthis & Htimers).
  pose proof (onclose_effect code s0) as (Hst & _ & _ & _ & _ & Hcase).
  rewrite Hthis, Htimers in Hcase. rewrite Hre', Hat', Hmax', Hdelay' in Hcase.
  simpl in Hcase.
  split; [exact Hst |]. split.
  - intros Hlt. destruct (Z.ltb_spec (Z.min (closes es) 5) 5); [| lia].
    destruct Hcase as [-> ->]. split; [lia | reflexivity].
  - intros Hge. destruct (Z.ltb_spec (Z.min (closes es) 5) 5); [lia |].
    destruct Hcase as [-> ->]. split; [lia |]. split; [reflexivity |].
    intros Hidle es2 s3 Hq2 Hrun2. eapply run_idle; eauto.
Qed.

(** After [disconnect()] the manager holds no socket. *)
Lemma disconnect_effect (s : State) :
  let s' := disconnect s in
  ws (this s') = None
  /\ shouldReconnect (this s') = false
  /\ reconnectAttempts (this s') = maxReconnectAttempts (this s)
  /\ timers s' = timers s
  /\ (ws (this s) <> None -> status s' = (disconnected, "Manually disconnected")).
Proof.
  unfold disconnect. simpl.
  destruct (ws (this s)) as [i | ] eqn:Hws; simpl; repeat split; auto.
  intros H. contradiction.
Qed.

(** [connect()] on a manager without an open socket reports
    [connecting], then creates a socket or reports the error of the
    constructor. *)
Lemma connect_effect (s : State) :
  wsIsOpen s = false ->
  let s' := connect browser s in
  match WebSocket_throws browser (wsUrl browser) with
  | None =>
      sockets s' = (sockets s ++ [CONNECTING])%list
      /\ ws (this s') = Some (List.length (sockets s))
      /\ shouldReconnect (this s') = true
      /\ reconnectAttempts (this s') = reconnectAttempts (this s)
      /\ status s' = (connecting, "Connecting to " ++ wsUrl browser ++ "...")
  | Some m =>
      sockets s' = sockets s
      /\ ws (this s') = ws (this s)
      /\ shouldReconnect (this s') = shouldReconnect (this s)
      /\ reconnectAttempts (this s') = reconnectAttempts (this s)
      /\ status s' = (error, "Connection failed: " ++ m)
  end.
Proof.
  intros Hopen. unfold connect. rewrite Hopen.
  destruct (WebSocket_throws browser (wsUrl browser)); simpl; auto 10.
Qed.

(** The saturated counter and the cleared flag are read when a socket
    closes, not when a timer fires: a reconnect that is pending when
    [disconnect()] runs still calls [connect()], which finds no socket
    and goes on. *)
Lemma pending_timer_survives_disconnect (s : State) (d : Z) (rest : list Z) :
  timers s = d :: rest ->
  exists s',
    step browser TimerFires (disconnect s) = Some s'
    /\ connectionState s' <> disconnected.
Proof.
  intros Ht.
  destruct (disconnect_effect s) as (Hws & _ & _ & Htimers & _).
  simpl. rewrite Htimers, Ht.
  eexists. split; [reflexivity |].
  set (s1 := set_timers rest (disconnect s)).
  assert (Hopen : wsIsOpen s1 = false).
  { unfold wsIsOpen. subst s1. simpl. rewrite Hws. reflexivity. }
  pose proof (connect_effect s1 Hopen) as H. unfold connectionState.
  destruct (WebSocket_throws browser (wsUrl browser)).
  - destruct H as (_ & _ & _ & _ & ->). discriminate.
  - destruct H as (_ & _ & _ & _ & ->). discriminate.
Qed.

(** C4, amended. [connect()] is a no-op exactly when the socket the
    manager holds is open: state, socket, flag and counter stay as they
    are.  While that socket is still connecting (or closing, or closed)
    [connect()] reports [connecting] again and, unless the constructor
    throws, creates a second socket that replaces the first. *)
Theorem connect_by_readyState (s : State) (i : nat) (r : ReadyState) :
  ws (this s) = Some i ->
  nth_error (sockets s) i = Some r ->
  let s' := connect browser s in
  match r with
  | OPEN => s' = s
  | _ =>
      match WebSocket_throws browser (wsUrl browser) with
      | None =>
          sockets s' = (sockets s ++ [CONNECTING])%list
          /\ ws (this s') = Some (List.length (sockets s))
          /\ shouldReconnect (this s') = true
          /\ reconnectAttempts (this s') = reconnectAttempts (this s)
          /\ status s' = (connecting, "Connecting to " ++ wsUrl browser ++ "...")
      | Some m =>
          sockets s' = sockets s
          /\ ws (this s') = ws (this s)
          /\ shouldReconnect (this s') = shouldReconnect (this s)
          /\ reconnectAttempts (this s') = reconnectAttempts (this s)
          /\ status s' = (error, "Connection failed: " ++ m)
      end
  end.
Proof.
  intros Hws Hi.
  assert (Hopen : wsIsOpen s = match r with OPEN => true | _ => false end).
  { unfold wsIsOpen. rewrite Hws, Hi. destruct r; reflexivity. }
  destruct r; try (apply connect_effect; exact Hopen).
  simpl. unfold connect. rewrite Hopen. reflexivity.
Qed.

(** C9, amended. On every inbound message of an open socket the message
    counter is incremented and the arrival time recorded, whether the
    text decodes or not; the socket stays open and the manager keeps it.
    When the text decodes, the payload goes to the registered callback
    and the status is [connected] (or [error] when the callback throws);
    when it does not, the status is [error] with the message of the
    decoder and nothing is forwarded. *)
Theorem inbound_message (s s' : State) (i : nat) (data : string) (now : float) :
  step browser (SocketMessage i data now) s = Some s' ->
  messageCount (this s') = messageCount (this s) + 1
  /\ lastMessageTime (this s') = Some now
  /\ nth_error (sockets s') i = Some OPEN
  /\ sockets s' = sockets s
  /\ ws (this s') = ws (this s)
  /\ timers s' = timers s
  /\ match JSON_parse browser data with
     | inl m =>
         status s' = (error, "Error parsing data: " ++ m)
         /\ delivered s' = delivered s
     | inr payload =>
         match messageCallback (this s) with
         | Some callback =>
             delivered s' = payload :: delivered s
             /\ status s' =
                match callback payload with
                | None => (connected, "Connected - Receiving updates")
                | Some m => (error, "Error parsing data: " ++ m)
                end
         | None =>
             delivered s' = delivered s
             /\ status s' = (connected, "Connected - Receiving updates")
         end
     end.
Proof.
  simpl. destruct (nth_error (sockets s) i) as [[ | | | ] | ] eqn:Hi;
    try discriminate.
  intros [= <-]. unfold onmessage. simpl.
  destruct (JSON_parse browser data) as [m | payload]; simpl.
  - auto 10.
  - destruct (messageCallback (this s)) as [callback | ]; simpl; [| auto 10].
    destruct (callback payload); simpl; auto 10.
Qed.

End Connection.

(* ====================================================================== *)
(** * The manager on the page of a device                                  *)
(* ====================================================================== *)

Section DevicePage.
Import JS Value WebSocketManager.

(** C1 on the code: the page connects, the socket closes and schedules a
    reconnect, the user disconnects, the timer fires.  [disconnect()]
    leaves the manager disconnected with the counter at its maximum and
    the flag cleared, but the timer calls [connect()] all the same: the
    manager is [connecting] again on a new socket, and [connected] once
    that socket opens. *)
Theorem disconnect_then_pending_reconnect :
  let s1 := after closedOnce in
  let s2 := after (closedOnce ++ [CallDisconnect])%list in
  let s3 := after (closedOnce ++ [CallDisconnect; TimerFires])%list in
  let s4 := after (closedOnce ++ [CallDisconnect; TimerFires; SocketOpen 1])%list in
  run devicePage closedOnce constructor = Some s1
  /\ timers s1 = [2000]
  /\ step devicePage CallDisconnect s1 = Some s2
  /\ status s2 = (disconnected, "Manually disconnected")
  /\ reconnectAttempts (this s2) = 5
  /\ shouldReconnect (this s2) = false
  /\ timers s2 = [2000]
  /\ step devicePage TimerFires s2 = Some s3
  /\ connectionState s3 = connecting
  /\ sockets s3 = [CLOSED; CONNECTING]
  /\ ws (this s3) = Some 1%nat
  /\ shouldReconnect (this s3) = true
  /\ step devicePage (SocketOpen 1) s3 = Some s4
  /\ connectionState s4 = connected
  /\ reconnectAttempts (this s4) = 0.
Proof.
  vm_compute. repeat (split; [reflexivity |]). reflexivity.
Qed.

(** C3, as stated, fails after a manual disconnect: [disconnect()] leaves
    the attempt counter at its maximum and [connect()] does not reset it,
    so with auto-reconnect enabled again and no open event since, the
    first close event increments nothing and schedules nothing.  First on
    a manager that never had an open socket, then on one that was
    connected before. *)
Lemma reconnect_after_disconnect_counterexample :
  (let s := after [CallDisconnect; CallConnect] in
   reachable devicePage s
   /\ shouldReconnect (this s) = true
   /\ reconnectAttempts (this s) = 5
   /\ timers s = []
   /\ exists s',
        step devicePage (SocketClose 0 1006) s = Some s'
        /\ reconnectAttempts (this s') = 5
        /\ timers s' = []
        /\ idle s'
        /\ ~ (reconnectAttempts (this s') = reconnectAttempts (this s) + 1
              /\ timers s' = (timers s ++ [2000])%list))
  /\ (let s := after [CallConnect; SocketOpen 0; CallDisconnect;
                      SocketClose 0 1000; CallConnect] in
      reachable devicePage s
      /\ shouldReconnect (this s) = true
      /\ reconnectAttempts (this s) = 5
      /\ timers s = []
      /\ exists s',
           step devicePage (SocketClose 1 1006) s = Some s'
           /\ reconnectAttempts (this s') = 5
           /\ timers s' = []
           /\ idle s'
           /\ ~ (reconnectAttempts (this s') = reconnectAttempts (this s) + 1
                 /\ timers s' = (timers s ++ [2000])%list)).
Proof.
  cbv zeta. split.
  - split.
    { exists [CallDisconnect; CallConnect]. vm_compute. reflexivity. }
    split; [vm_compute; reflexivity |].
    split; [vm_compute; reflexivity |].
    split; [vm_compute; reflexivity |].
    exists (after [CallDisconnect; CallConnect; SocketClose 0 1006]).
    split; [vm_compute; reflexivity |].
    split; [vm_compute; reflexivity |].
    split; [vm_compute; reflexivity |].
    split; [vm_compute; repeat constructor |].
    intros [H _]. vm_compute in H. discriminate.
  - split.
    { exists [CallConnect; SocketOpen 0; CallDisconnect; SocketClose 0 1000; CallConnect].
      vm_compute. reflexivity. }
    split; [vm_compute; reflexivity |].
    split; [vm_compute; reflexivity |].
    split; [vm_compute; reflexivity |].
    exists (after [CallConnect; SocketOpen 0; CallDisconnect;
                   SocketClose 0 1000; CallConnect; SocketClose 1 1006]).
    split; [vm_compute; reflexivity |].
    split; [vm_compute; reflexivity |].
    split; [vm_compute; reflexivity |].
    split; [vm_compute; repeat constructor |].
    intros [H _]. vm_compute in H. discriminate.
Qed.

(** C3 on the retries of a manager that has just connected: five close
    events use the budget up. *)
Lemma reconnect_budget_retries :
  reachable devicePage (after [CallConnect])
  /\ shouldReconnect (this (after [CallConnect])) = true
  /\ reconnectAttempts (this (after [CallConnect])) = 0
  /\ forallb withoutOpen retries = true
  /\ run devicePage retries (after [CallConnect]) = Some (after (CallConnect :: retries))
  /\ reconnectAttempts (this (after (CallConnect :: retries))) = Z.min (closes retries) 5
  /\ forall i code s'',
       step devicePage (SocketClose i code) (after (CallConnect :: retries)) = Some s'' ->
       connectionState s'' = disconnected
       /\ (closes retries < 5 ->
           reconnectAttempts (this s'') = closes retries + 1
           /\ timers s'' = (timers (after (CallConnect :: retries)) ++ [2000])%list)
       /\ (5 <= closes retries ->
           reconnectAttempts (this s'') = 5
           /\ timers s'' = timers (after (CallConnect :: retries))
           /\ (idle s'' ->
               forall es2 s3,
                 forallb withoutConnect es2 = true ->
                 run devicePage es2 s'' = Some s3 ->
                 idle s3 /\ sockets s3 = sockets s'')).
Proof.
  assert (Hreach : reachable devicePage (after [CallConnect])).
  { exists [CallConnect]. vm_compute. reflexivity. }
  split; [exact Hreach |].
  split; [vm_compute; reflexivity |].
  split; [vm_compute; reflexivity |].
  split; [vm_compute; reflexivity |].
  split; [vm_compute; reflexivity |].
  apply (reconnect_budget devicePage (after [CallConnect])
           (after (CallConnect :: retries)) retries Hreach);
    vm_compute; reflexivity.
Defined.

(** The retries one by one: the counter and the pending timers after
    each of the first five close events, and the sixth close event, which
    leaves the manager idle. *)
Lemma retries_trace :
  map (fun n => let s := after (CallConnect :: firstn n retries) in
                (reconnectAttempts (this s), timers s, connectionState s))
      [1; 3; 5; 7; 9]%nat
  = [ (1, [2000], disconnected); (2, [2000], disconnected);
      (3, [2000], disconnected); (4, [2000], disconnected);
      (5, [2000], disconnected) ]
  /\ reconnectAttempts (this (after (CallConnect :: retries ++ [SocketClose 5 1006])%list)) = 5
  /\ timers (after (CallConnect :: retries ++ [SocketClose 5 1006])%list) = []
  /\ status (after (CallConnect :: retries ++ [SocketClose 5 1006])%list)
     = (disconnected, "Disconnected (Code: 1006)")
  /\ idle (after (CallConnect :: retries ++ [SocketClose 5 1006])%list).
Proof.
  split; [vm_compute; reflexivity |].
  split; [vm_compute; reflexivity |].
  split; [vm_compute; reflexivity |].
  split; [vm_compute; reflexivity |].
  unfold idle. split; [vm_compute; reflexivity |].
  split; [| vm_compute; reflexivity].
  replace (sockets (after (CallConnect :: retries ++ [SocketClose 5 1006])%list))
    with [CLOSED; CLOSED; CLOSED; CLOSED; CLOSED; CLOSED]
    by (vm_compute; reflexivity).
  repeat constructor.
Qed.

(** C4, as stated, fails while the socket is connecting: a second call
    of [connect()] creates a second socket and drops the first. *)
Lemma connect_while_connecting_counterexample :
  let s := after [CallOnStatusChange; CallConnect] in
  connectionState s = connecting
  /\ sockets s = [CONNECTING]
  /\ ws (this s) = Some 0%nat
  /\ sockets (connect devicePage s) = [CONNECTING; CONNECTING]
  /\ ws (this (connect devicePage s)) = Some 1%nat
  /\ List.length (notified (connect devicePage s)) = 2%nat
  /\ connect devicePage s <> s.
Proof.
  cbv zeta.
  split; [vm_compute; reflexivity |].
  split; [vm_compute; reflexivity |].
  split; [vm_compute; reflexivity |].
  split; [vm_compute; reflexivity |].
  split; [vm_compute; reflexivity |].
  split; [vm_compute; reflexivity |].
  intros H. apply (f_equal (fun s => List.length (sockets s))) in H.
  vm_compute in H. discriminate.
Qed.

(** C4, amended, on an open socket and on a connecting one. *)
Lemma connect_by_readyState_open_and_connecting :
  (ws (this (after [CallConnect; SocketOpen 0])) = Some 0%nat
   /\ nth_error (sockets (after [CallConnect; SocketOpen 0])) 0 = Some OPEN
   /\ connect devicePage (after [CallConnect; SocketOpen 0])
      = after [CallConnect; SocketOpen 0])
  /\ (ws (this (after [CallConnect])) = Some 0%nat
      /\ nth_error (sockets (after [CallConnect])) 0 = Some CONNECTING
      /\ sockets (connect devicePage (after [CallConnect]))
         = (sockets (after [CallConnect]) ++ [CONNECTING])%list).
Proof.
  split.
  - split; [vm_compute; reflexivity |]. split; [vm_compute; reflexivity |].
    apply (connect_by_readyState devicePage (after [CallConnect; SocketOpen 0])
             0%nat OPEN); vm_compute; reflexivity.
  - split; [vm_compute; reflexivity |]. split; [vm_compute; reflexivity |].
    apply (connect_by_readyState devicePage (after [CallConnect]) 0%nat CONNECTING);
      vm_compute; reflexivity.
Defined.

(** C9, as stated, fails: a message that does not decode is counted and
    its arrival time recorded. *)
Lemma undecodable_message_counterexample :
  let s := after listening in
  let s' := after (listening ++ [SocketMessage 0 "{oops" 1700000000000%float])%list in
  JSON_parse devicePage "{oops" = inl "Unexpected token in JSON"
  /\ step devicePage (SocketMessage 0 "{oops" 1700000000000%float) s = Some s'
  /\ messageCount (this s) = 0
  /\ lastMessageTime (this s) = None
  /\ messageCount (this s') = 1
  /\ lastMessageTime (this s') = Some 1700000000000%float
  /\ status s' = (error, "Error parsing data: Unexpected token in JSON")
  /\ delivered s' = [].
Proof.
  vm_compute. repeat (split; [reflexivity |]). reflexivity.
Qed.

(** C9, amended, on that message. *)
Lemma inbound_message_undecodable :
  step devicePage (SocketMessage 0 "{oops" 1700000000000%float) (after listening)
  = Some (after (listening ++ [SocketMessage 0 "{oops" 1700000000000%float])%list)
  /\ messageCount
       (this (after (listening ++ [SocketMessage 0 "{oops" 1700000000000%float])%list))
     = messageCount (this (after listening)) + 1
  /\ sockets (after (listening ++ [SocketMessage 0 "{oops" 1700000000000%float])%list)
     = sockets (after listening).
Proof.
  assert (Hstep :
    step devicePage (SocketMessage 0 "{oops" 1700000000000%float) (after listening)
    = Some (after (listening ++ [SocketMessage 0 "{oops" 1700000000000%float])%list))
    by (vm_compute; reflexivity).
  split; [exact Hstep |].
  pose proof (inbound_message devicePage _ _ _ _ _ Hstep)
    as (Hcount & _ & _ & Hsockets & _).
  split; [exact Hcount | exact Hsockets].
Defined.

(** A message that decodes reaches the callback. *)
Lemma inbound_message_decoded :
  let s :=
    after (listening
           ++ [SocketMessage 0 (wire "{'cells': [{'enabled': true}]}")
                 1700000000000%float])%list in
  messageCount (this s) = 1
  /\ delivered s = [JObj [("cells", JArr [JObj [("enabled", JBool true)]])]]
  /\ status s = (connected, "Connected - Receiving updates").
Proof.
  vm_compute. repeat split; reflexivity.
Qed.

End DevicePage.

(* ====================================================================== *)
(** * Properties of the live data manager                                  *)
(* ====================================================================== *)

Section LiveData.
Import JS Value LiveDataManager.

Lemma at_last (window : list float) (t : float) :
  at_ (t :: window) (List.length window) = last (t :: window) PrimFloat.nan.
Proof.
  unfold at_. revert t. induction window as [ | u rest IH]; intros t.
  - reflexivity.
  - change (nth (List.length rest) (u :: rest) PrimFloat.nan
            = last (u :: rest) PrimFloat.nan).
    apply IH.
Qed.

Lemma calculateUpdateRate_rateOf (window : list float) :
  calculateUpdateRate window = rateOf window.
Proof.
  destruct window as [ | oldest [ | second rest]]; try reflexivity.
  unfold calculateUpdateRate, rateOf.
  change (List.length (oldest :: second :: rest) <? 2)%nat with false.
  cbv iota.
  replace (List.length (oldest :: second :: rest) - 1)%nat
    with (List.length (second :: rest)) by (simpl; lia).
  rewrite at_last. reflexivity.
Qed.

(** C6. [calculateUpdateRate] is the rate of the specification: the
    number of samples minus one, over the time from the oldest to the
    newest sample, times 1000; it is 0 on fewer than two samples and on a
    time span of 0; and the window of ten messages 100 ms apart gives
    10 Hz. *)
Theorem calculateUpdateRate_correct :
  (forall window, calculateUpdateRate window = rateOf window)
  /\ calculateUpdateRate [] = 0%float
  /\ (forall t, calculateUpdateRate [t] = 0%float)
  /\ (forall oldest middle newest,
        calculateUpdateRate (oldest :: middle ++ [newest])%list
        = if PrimFloat.eqb (newest - oldest) 0 then 0%float
          else (numberOfNat (List.length middle + 1) / (newest - oldest)
                * 1000)%float)
  /\ windowAfter tenSamples = tenSamples
  /\ calculateUpdateRate (windowAfter tenSamples) = 10%float
  /\ windowAfter (tenSamples ++ [1000%float])%list
     = (tl tenSamples ++ [1000%float])%list.
Proof.
  split; [exact calculateUpdateRate_rateOf |].
  split; [reflexivity |]. split; [reflexivity |].
  split; [| repeat split; reflexivity].
  intros oldest middle newest.
  assert (Hlast : last (oldest :: middle ++ [newest])%list PrimFloat.nan = newest).
  { change (oldest :: middle ++ [newest])%list
      with ((oldest :: middle) ++ [newest])%list.
    apply last_last. }
  assert (Hlen : (List.length (oldest :: middle ++ [newest])%list - 1
                  = List.length middle + 1)%nat).
  { simpl. rewrite length_app. simpl. lia. }
  rewrite calculateUpdateRate_rateOf. unfold rateOf. rewrite Hlast, Hlen.
  destruct middle; reflexivity.
Qed.

(** The cells [handleLiveData] keeps are those with a truthy flag. *)
Lemma filterArray_objects (cells : list jsval) :
  Forall (fun c => exists members, c = JObj members) cells ->
  filterArray enabled cells
  = Some (filter (fun c => truthy (member c "enabled")) cells).
Proof.
  induction 1 as [ | c rest [members ->] Hrest IH]; [reflexivity |].
  simpl. rewrite IH. unfold enabled, member. simpl.
  destruct (truthy _); reflexivity.
Qed.

(** C8 on the code: the flag of a cell stored as the text [false] is a
    non-empty text, which the filter reads as true; the cell stays in the
    set used for live rendering, next to the cell whose flag is [true]
    and unlike the cell whose flag is the boolean [false]. *)
Theorem text_false_cell_is_rendered
        (redraw : list jsval -> Completion) (now : float) (st : State) :
  truthy (JStr "false") = true
  /\ enabled cellMarkedFalse = Some true
  /\ currentCells (fst (handleLiveData redraw messageMarkedFalse now st))
     = [cellMarkedFalse; JObj [("enabled", JBool true)]].
Proof.
  split; [reflexivity |]. split; [reflexivity |].
  unfold handleLiveData. simpl.
  destruct (redraw _); reflexivity.
Qed.

End LiveData.

(* ====================================================================== *)
(** * The codec on every input: round trips and ranges                     *)
(* ====================================================================== *)

Section ColorRoundTrip.
Import JS Color.

Lemma zrange_forallb (f : Z -> bool) (n : nat) :
  forall start,
    forallb f (zrange start n) = true ->
    forall x, start <= x < start + Z.of_nat n -> f x = true.
Proof.
  induction n as [ | k IH]; intros start Hall x Hx; [lia |].
  simpl in Hall. apply andb_prop in Hall as [Hhead Htail].
  destruct (Z.eq_dec x start) as [-> | Hne]; [exact Hhead |].
  apply (IH (start + 1) Htail). lia.
Qed.

Lemma below_256 (f : Z -> bool) :
  forallb f (zrange 0 256) = true -> forall x, 0 <= x <= 255 -> f x = true.
Proof.
  intros H x Hx. apply (zrange_forallb f 256 0 H).
  assert (E : Z.of_nat 256 = 256) by (vm_compute; reflexivity).
  rewrite E. lia.
Qed.

Lemma below_65536 (f : Z -> bool) :
  forallb f (zrange 0 65536) = true -> forall x, 0 <= x <= 65535 -> f x = true.
Proof.
  intros H x Hx. apply (zrange_forallb f 65536 0 H).
  assert (E : Z.of_nat 65536 = 65536) by (vm_compute; reflexivity).
  rewrite E. lia.
Qed.

Lemma ToInt32_range (z : Z) : - 2 ^ 31 <= ToInt32 z < 2 ^ 31.
Proof.
  unfold ToInt32.
  pose proof (Z.mod_pos_bound z (2 ^ 32) ltac:(lia)) as Hm.
  destruct (Z.leb_spec (2 ^ 31) (z mod 2 ^ 32)); lia.
Qed.

(** ToInt32 changes a number by a multiple of 2^32. *)
Lemma ToInt32_congruent (z : Z) : exists q, ToInt32 z = z + q * 2 ^ 32.
Proof.
  unfold ToInt32.
  pose proof (Z.div_mod z (2 ^ 32) ltac:(lia)) as Hdm.
  destruct (Z.leb_spec (2 ^ 31) (z mod 2 ^ 32)).
  - exists (- (z / 2 ^ 32) - 1). lia.
  - exists (- (z / 2 ^ 32)). lia.
Qed.

(** [a & (2^k - 1)] on any number: the low [k] bits of its 32-bit form. *)
Lemma band_ones_any (a k : Z) :
  0 <= k < 31 -> band a (Z.ones k) = ToInt32 a mod 2 ^ k.
Proof.
  intros Hk. unfold band.
  assert (0 < 2 ^ k < 2 ^ 31) by (split; [lia | apply Z.pow_lt_mono_r; lia]).
  rewrite (ToInt32_small (Z.ones k)) by (rewrite Z.ones_equiv; lia).
  apply Z.land_ones. lia.
Qed.

Lemma land_disjoint (a b k : Z) :
  0 <= k -> 0 <= b < 2 ^ k -> Z.land (a * 2 ^ k) b = 0.
Proof.
  intros Hk Hb. apply Z.bits_inj'. intros i Hi.
  rewrite Z.land_spec, Z.bits_0.
  destruct (Z.lt_ge_cases i k) as [Hlt | Hge].
  - rewrite Z.mul_pow2_bits_low by lia. reflexivity.
  - replace b with (b mod 2 ^ k) by (apply Z.mod_small; lia).
    rewrite Z.mod_pow2_bits_high by lia. apply andb_false_r.
Qed.

(** A number below 2^k put under a multiple of 2^k with [|] is added. *)
Lemma lor_disjoint (a b k : Z) :
  0 <= k -> 0 <= b < 2 ^ k -> Z.lor (a * 2 ^ k) b = a * 2 ^ k + b.
Proof.
  intros Hk Hb.
  pose proof (Z.add_lor_land (a * 2 ^ k) b) as H.
  rewrite (land_disjoint a b k Hk Hb) in H. lia.
Qed.

(** [(r5 << 11) | (g6 << 5) | b5] on three fields. *)
Lemma pack_fields (r5 g6 b5 : Z) :
  0 <= r5 < 32 -> 0 <= g6 < 64 -> 0 <= b5 < 32 ->
  bor (bor (shl r5 11) (shl g6 5)) b5 = r5 * 2048 + g6 * 32 + b5.
Proof.
  intros Hr Hg Hb.
  rewrite !shl_small; change (2 ^ 11) with 2048; change (2 ^ 5) with 32;
    change (2 ^ 31) with 2147483648; try lia.
  assert (Hin : bor (r5 * 2048) (g6 * 32) = r5 * 2048 + g6 * 32).
  { unfold bor.
    rewrite (ToInt32_small (r5 * 2048)), (ToInt32_small (g6 * 32))
      by (change (2 ^ 31) with 2147483648; lia).
    change 2048 with (2 ^ 11). apply lor_disjoint; [lia |].
    change (2 ^ 11) with 2048. lia. }
  rewrite Hin. unfold bor.
  rewrite (ToInt32_small (r5 * 2048 + g6 * 32)), (ToInt32_small b5)
    by (change (2 ^ 31) with 2147483648; lia).
  replace (r5 * 2048 + g6 * 32) with ((r5 * 64 + g6) * 2 ^ 5)
    by (change (2 ^ 5) with 32; lia).
  apply lor_disjoint; [lia |]. change (2 ^ 5) with 32. lia.
Qed.

(** The three fields of a packed colour, read back with [>>] and [&]. *)
Lemma unpack_fields (r5 g6 b5 : Z) :
  0 <= r5 < 32 -> 0 <= g6 < 64 -> 0 <= b5 < 32 ->
  let v := r5 * 2048 + g6 * 32 + b5 in
  band (sar v 11) 0x1F = r5 /\ band (sar v 5) 0x3F = g6 /\ band v 0x1F = b5.
Proof.
  intros Hr Hg Hb v.
  assert (Hv : 0 <= v < 65536) by (subst v; lia).
  assert (H11 : v / 2 ^ 11 = r5).
  { change (2 ^ 11) with 2048. symmetry.
    apply Z.div_unique with (r := g6 * 32 + b5); subst v; lia. }
  assert (H5 : v / 2 ^ 5 = r5 * 64 + g6).
  { change (2 ^ 5) with 32. symmetry.
    apply Z.div_unique with (r := b5); subst v; lia. }
  change 0x1F with (Z.ones 5). change 0x3F with (Z.ones 6).
  rewrite !sar_small by (change (2 ^ 31) with 2147483648; lia).
  rewrite H11, H5.
  rewrite !band_ones by (change (2 ^ 31) with 2147483648; lia).
  change (2 ^ 5) with 32. change (2 ^ 6) with 64.
  repeat split.
  - apply Z.mod_small. lia.
  - symmetry. apply Z.mod_unique with (q := r5); lia.
  - symmetry. apply Z.mod_unique with (q := r5 * 64 + g6); subst v; lia.
Qed.

Lemma expand5_shift (f : Z) :
  0 <= f < 32 -> shl f 3 + sar (shl f 3) 5 = expand5 f.
Proof.
  intros Hf. unfold expand5.
  rewrite shl_small by (change (2 ^ 3) with 8; change (2 ^ 31) with 2147483648; lia).
  rewrite sar_small by (change (2 ^ 3) with 8; change (2 ^ 31) with 2147483648; lia).
  change (2 ^ 3) with 8. change (2 ^ 5) with 32.
  replace (f * 8 / 32) with (f / 4); [lia |].
  replace 32 with (8 * 4) by reflexivity.
  rewrite <- Z.div_div by lia. rewrite Z.div_mul by lia. reflexivity.
Qed.

Lemma expand6_shift (f : Z) :
  0 <= f < 64 -> shl f 2 + sar (shl f 2) 6 = expand6 f.
Proof.
  intros Hf. unfold expand6.
  rewrite shl_small by (change (2 ^ 2) with 4; change (2 ^ 31) with 2147483648; lia).
  rewrite sar_small by (change (2 ^ 2) with 4; change (2 ^ 31) with 2147483648; lia).
  change (2 ^ 2) with 4. change (2 ^ 6) with 64.
  replace (f * 4 / 64) with (f / 16); [lia |].
  replace 64 with (4 * 16) by reflexivity.
  rewrite <- Z.div_div by lia. rewrite Z.div_mul by lia. reflexivity.
Qed.

Lemma expand5_byte (f : Z) : 0 <= f < 32 -> 0 <= expand5 f <= 255.
Proof.
  intros Hf. unfold expand5.
  pose proof (Z.div_pos f 4). pose proof (Z.div_lt_upper_bound f 4 8). lia.
Qed.

Lemma expand6_byte (f : Z) : 0 <= f < 64 -> 0 <= expand6 f <= 255.
Proof.
  intros Hf. unfold expand6.
  pose proof (Z.div_pos f 16). pose proof (Z.div_lt_upper_bound f 16 4). lia.
Qed.

(** Decoding a packed colour, by its fields. *)
Lemma channels_fields (r5 g6 b5 : Z) :
  0 <= r5 < 32 -> 0 <= g6 < 64 -> 0 <= b5 < 32 ->
  channels (r5 * 2048 + g6 * 32 + b5) = (expand5 r5, expand6 g6, expand5 b5).
Proof.
  intros Hr Hg Hb. unfold channels.
  destruct (unpack_fields r5 g6 b5 Hr Hg Hb) as (-> & -> & ->).
  rewrite !expand5_shift, expand6_shift by assumption. reflexivity.
Qed.

(** [(r << 16) | (g << 8) | b] on three bytes. *)
Lemma pack_bytes (r g b : Z) :
  0 <= r <= 255 -> 0 <= g <= 255 -> 0 <= b <= 255 ->
  bor (bor (shl r 16) (shl g 8)) b = r * 65536 + g * 256 + b.
Proof.
  intros Hr Hg Hb.
  rewrite !shl_small; change (2 ^ 16) with 65536; change (2 ^ 8) with 256;
    change (2 ^ 31) with 2147483648; try lia.
  assert (Hin : bor (r * 65536) (g * 256) = r * 65536 + g * 256).
  { unfold bor.
    rewrite (ToInt32_small (r * 65536)), (ToInt32_small (g * 256))
      by (change (2 ^ 31) with 2147483648; lia).
    change 65536 with (2 ^ 16). apply lor_disjoint; [lia |].
    change (2 ^ 16) with 65536. lia. }
  rewrite Hin. unfold bor.
  rewrite (ToInt32_small (r * 65536 + g * 256)), (ToInt32_small b)
    by (change (2 ^ 31) with 2147483648; lia).
  replace (r * 65536 + g * 256) with ((r * 256 + g) * 2 ^ 8)
    by (change (2 ^ 8) with 256; lia).
  apply lor_disjoint; [lia |]. change (2 ^ 8) with 256. lia.
Qed.

Lemma storedText_all : forallb storedTextReadsBack (zrange 0 65536) = true.
Proof. vm_compute. reflexivity. Qed.

Lemma byteText_all : forallb byteTextReadsBack (zrange 0 256) = true.
Proof. vm_compute. reflexivity. Qed.

Lemma pickerText_all : forallb pickerShowsChannels (zrange 0 65536) = true.
Proof. vm_compute. reflexivity. Qed.

Lemma byteText_shape (c : Z) :
  0 <= c <= 255 ->
  exists c1 c2,
    byteText c = String c1 (String c2 EmptyString)
    /\ parseInt (String c1 (String c2 EmptyString)) 16 = Some c.
Proof.
  intros Hc.
  pose proof (below_256 _ byteText_all c Hc) as H.
  unfold byteTextReadsBack in H.
  destruct (byteText c) as [ | c1 [ | c2 [ | ]]] eqn:Ht; try discriminate.
  destruct (parseInt (String c1 (String c2 EmptyString)) 16) as [z | ] eqn:Hp;
    [| discriminate].
  apply Z.eqb_eq in H. subst z. eauto.
Qed.

Lemma storedText_readPacked (v : Z) :
  0 <= v <= 65535 ->
  readPacked (storedText v) = v /\ String.length (storedText v) = 6%nat.
Proof.
  intros Hv.
  pose proof (below_65536 _ storedText_all v Hv) as H.
  unfold storedTextReadsBack in H. unfold readPacked.
  destruct (parseInt (storedText v) 16) as [z | ]; [| discriminate].
  apply andb_prop in H as [Hz Hl].
  apply Z.eqb_eq in Hz. apply Nat.eqb_eq in Hl. subst z. auto.
Qed.

(** The top five and the top six bits of a byte. *)
Lemma quantise5 (c : Z) : 0 <= c <= 255 -> band (sar c 3) 0x1F = c / 8.
Proof.
  intros Hc. rewrite sar_small by (change (2 ^ 31) with 2147483648; lia).
  change (2 ^ 3) with 8.
  assert (0 <= c / 8 < 32).
  { split; [apply Z.div_pos; lia | apply Z.div_lt_upper_bound; lia]. }
  change 0x1F with (Z.ones 5).
  rewrite band_ones by (change (2 ^ 31) with 2147483648; lia).
  apply Z.mod_small. change (2 ^ 5) with 32. lia.
Qed.

Lemma quantise6 (c : Z) : 0 <= c <= 255 -> band (sar c 2) 0x3F = c / 4.
Proof.
  intros Hc. rewrite sar_small by (change (2 ^ 31) with 2147483648; lia).
  change (2 ^ 2) with 4.
  assert (0 <= c / 4 < 64).
  { split; [apply Z.div_pos; lia | apply Z.div_lt_upper_bound; lia]. }
  change 0x3F with (Z.ones 6).
  rewrite band_ones by (change (2 ^ 31) with 2147483648; lia).
  apply Z.mod_small. change (2 ^ 6) with 64. lia.
Qed.

(** Encoding the text of a 24-bit colour keeps the top bits of each
    channel. *)
Lemma rgb888ToRgb565_bytes (r g b : Z) :
  0 <= r <= 255 -> 0 <= g <= 255 -> 0 <= b <= 255 ->
  rgb888ToRgb565 (hexText (r, g, b))
  = storedText (r / 8 * 2048 + g / 4 * 32 + b / 8).
Proof.
  intros Hr Hg Hb.
  destruct (byteText_shape r Hr) as (r1 & r2 & Er & Pr).
  destruct (byteText_shape g Hg) as (g1 & g2 & Eg & Pg).
  destruct (byteText_shape b Hb) as (b1 & b2 & Eb & Pb).
  unfold hexText. fold (byteText r) (byteText g) (byteText b).
  rewrite Er, Eg, Eb.
  unfold rgb888ToRgb565, storedText.
  cbn [String.append removeFirst Ascii.eqb Bool.eqb].
  unfold JS.substring. cbn [String.substring Nat.sub].
  rewrite Pr, Pg, Pb. cbn [nanToZero].
  rewrite (quantise5 r Hr), (quantise6 g Hg), (quantise5 b Hb).
  rewrite pack_fields; [reflexivity | | |].
  - split; [apply Z.div_pos; lia | apply Z.div_lt_upper_bound; lia].
  - split; [apply Z.div_pos; lia | apply Z.div_lt_upper_bound; lia].
  - split; [apply Z.div_pos; lia | apply Z.div_lt_upper_bound; lia].
Qed.

Lemma expand5_top (f : Z) : 0 <= f < 32 -> expand5 f / 8 = f.
Proof.
  intros Hf. unfold expand5. symmetry.
  apply Z.div_unique with (r := f / 4); [| lia].
  left. split; [apply Z.div_pos; lia | apply Z.div_lt_upper_bound; lia].
Qed.

Lemma expand6_top (f : Z) : 0 <= f < 64 -> expand6 f / 4 = f.
Proof.
  intros Hf. unfold expand6. symmetry.
  apply Z.div_unique with (r := f / 16); [| lia].
  left. split; [apply Z.div_pos; lia | apply Z.div_lt_upper_bound; lia].
Qed.

Lemma fields_split (x : Z) :
  0 <= x <= 65535 ->
  let '(r5, g6, b5) := fields x in
  0 <= r5 < 32 /\ 0 <= g6 < 64 /\ 0 <= b5 < 32
  /\ x = r5 * 2048 + g6 * 32 + b5.
Proof.
  intros Hx. unfold fields.
  pose proof (Z.div_mod x 32 ltac:(lia)) as H32.
  pose proof (Z.mod_pos_bound x 32 ltac:(lia)) as Hb.
  pose proof (Z.div_mod (x / 32) 64 ltac:(lia)) as H64.
  pose proof (Z.mod_pos_bound (x / 32) 64 ltac:(lia)) as Hg.
  assert (E : x / 32 / 64 = x / 2048) by (rewrite Z.div_div by lia; reflexivity).
  rewrite E in H64.
  assert (0 <= x / 2048 < 32).
  { split; [apply Z.div_pos; lia | apply Z.div_lt_upper_bound; lia]. }
  repeat split; try lia.
Qed.

(** X1. Encoding a 24-bit colour and decoding it again keeps the top
    five, six and five bits of the channels and fills the low bits from
    the top ones: each channel comes back within 7 (red, blue) or 3
    (green) of what was encoded. *)
Theorem decodeEncode_quantises (r g b : Z) :
  0 <= r <= 255 -> 0 <= g <= 255 -> 0 <= b <= 255 ->
  decodeEncode (r, g, b) = (expand5 (r / 8), expand6 (g / 4), expand5 (b / 8))
  /\ Z.abs (expand5 (r / 8) - r) <= 7
  /\ Z.abs (expand6 (g / 4) - g) <= 3
  /\ Z.abs (expand5 (b / 8) - b) <= 7.
Proof.
  intros Hr Hg Hb.
  assert (Hr5 : 0 <= r / 8 < 32)
    by (split; [apply Z.div_pos; lia | apply Z.div_lt_upper_bound; lia]).
  assert (Hg6 : 0 <= g / 4 < 64)
    by (split; [apply Z.div_pos; lia | apply Z.div_lt_upper_bound; lia]).
  assert (Hb5 : 0 <= b / 8 < 32)
    by (split; [apply Z.div_pos; lia | apply Z.div_lt_upper_bound; lia]).
  split.
  - unfold decodeEncode. rewrite rgb888ToRgb565_bytes by assumption.
    destruct (storedText_readPacked (r / 8 * 2048 + g / 4 * 32 + b / 8)) as [-> _];
      [lia |].
    apply channels_fields; assumption.
  - unfold expand5, expand6.
    pose proof (Z.div_mod r 8 ltac:(lia)). pose proof (Z.mod_pos_bound r 8 ltac:(lia)).
    pose proof (Z.div_mod g 4 ltac:(lia)). pose proof (Z.mod_pos_bound g 4 ltac:(lia)).
    pose proof (Z.div_mod b 8 ltac:(lia)). pose proof (Z.mod_pos_bound b 8 ltac:(lia)).
    pose proof (Z.div_pos (r / 8) 4). pose proof (Z.div_lt_upper_bound (r / 8) 4 8).
    pose proof (Z.div_pos (g / 4) 16). pose proof (Z.div_lt_upper_bound (g / 4) 16 4).
    pose proof (Z.div_pos (b / 8) 4). pose proof (Z.div_lt_upper_bound (b / 8) 4 8).
    lia.
Qed.

Lemma decodeEncode_quantises_orange :
  (0 <= 255 <= 255 /\ 0 <= 136 <= 255 /\ 0 <= 17 <= 255)
  /\ decodeEncode (255, 136, 17) = (255, 138, 16).
Proof.
  split; [lia |].
  destruct (decodeEncode_quantises 255 136 17) as [-> _]; try lia.
  vm_compute. reflexivity.
Defined.

(** X2. Decoding a packed colour for the colour picker and encoding the
    text of the picker again gives the packed colour back: opening a cell
    and saving it does not change a stored colour. *)
Theorem encode_decode_identity (x : Z) :
  0 <= x <= 65535 ->
  rgb888ToRgb565 (pickerText (rgb565ToRgb888 x)) = storedText x
  /\ readPacked (rgb888ToRgb565 (pickerText (rgb565ToRgb888 x))) = x.
Proof.
  intros Hx.
  pose proof (fields_split x Hx) as Hf.
  pose proof (below_65536 _ pickerText_all x Hx) as Hp.
  unfold pickerShowsChannels in Hp.
  destruct (fields x) as [[r5 g6] b5].
  destruct Hf as (Hr & Hg & Hb & Ex).
  apply String.eqb_eq in Hp.
  pose proof (expand5_byte r5 Hr) as Br.
  pose proof (expand6_byte g6 Hg) as Bg.
  pose proof (expand5_byte b5 Hb) as Bb.
  assert (Hdec : rgb565ToRgb888 x
                 = expand5 r5 * 65536 + expand6 g6 * 256 + expand5 b5).
  { unfold rgb565ToRgb888. rewrite Ex, channels_fields by assumption.
    apply pack_bytes; assumption. }
  assert (Henc : rgb888ToRgb565 (pickerText (rgb565ToRgb888 x)) = storedText x).
  { rewrite Hdec, Hp, rgb888ToRgb565_bytes by assumption.
    rewrite !expand5_top, expand6_top by assumption. rewrite <- Ex. reflexivity. }
  split; [exact Henc |].
  rewrite Henc. apply storedText_readPacked. exact Hx.
Qed.

Lemma encode_decode_identity_teal :
  0 <= 0x07FF <= 65535
  /\ pickerText (rgb565ToRgb888 0x07FF) = "#00ffff"
  /\ rgb888ToRgb565 (pickerText (rgb565ToRgb888 0x07FF)) = "0x07ff".
Proof.
  split; [lia |]. split; [vm_compute; reflexivity |].
  destruct (encode_decode_identity 0x07FF) as [-> _]; [lia |].
  vm_compute. reflexivity.
Defined.

Lemma field_bounds (a k : Z) : 0 <= k < 31 -> 0 <= band a (Z.ones k) < 2 ^ k.
Proof.
  intros Hk. rewrite band_ones_any by assumption.
  apply Z.mod_pos_bound. apply Z.pow_pos_nonneg; lia.
Qed.

(** The top bits [>> 3 & 0x1F] and [>> 2 & 0x3F] cut out of any number,
    negative ones included. *)
Lemma top_bits_any (c : Z) :
  band (sar c 3) 0x1F = (c / 8) mod 32
  /\ band (sar c 2) 0x3F = (c / 4) mod 64.
Proof.
  destruct (ToInt32_congruent c) as [q Hq].
  pose proof (ToInt32_range c) as Hrange.
  change (2 ^ 31) with 2147483648 in Hrange. change (2 ^ 32) with 4294967296 in Hq.
  assert (Hshift : forall n, 0 <= n < 32 -> sar c n = ToInt32 c / 2 ^ n).
  { intros n Hn. unfold sar. rewrite shiftCount_small by assumption.
    apply Z.shiftr_div_pow2. lia. }
  change 0x1F with (Z.ones 5). change 0x3F with (Z.ones 6).
  rewrite !band_ones_any by lia. rewrite !Hshift by lia.
  change (2 ^ 3) with 8. change (2 ^ 2) with 4.
  change (2 ^ 5) with 32. change (2 ^ 6) with 64.
  assert (H8 : - 268435456 <= ToInt32 c / 8 < 268435456).
  { split; [apply Z.div_le_lower_bound; lia | apply Z.div_lt_upper_bound; lia]. }
  assert (H4 : - 536870912 <= ToInt32 c / 4 < 536870912).
  { split; [apply Z.div_le_lower_bound; lia | apply Z.div_lt_upper_bound; lia]. }
  rewrite (ToInt32_small (ToInt32 c / 8)), (ToInt32_small (ToInt32 c / 4))
    by (change (2 ^ 31) with 2147483648; lia).
  rewrite Hq.
  replace (c + q * 4294967296) with (c + (q * 536870912) * 8) at 1 by lia.
  replace (c + q * 4294967296) with (c + (q * 1073741824) * 4) by lia.
  rewrite !Z.div_add by lia.
  replace (c / 8 + q * 536870912) with (c / 8 + (q * 16777216) * 32) by lia.
  replace (c / 4 + q * 1073741824) with (c / 4 + (q * 16777216) * 64) by lia.
  rewrite !Z.mod_add by lia. auto.
Qed.

(** X3. Whatever text [rgb888ToRgb565] is given, it returns [0x] and
    four hexadecimal digits: those of the value packed from the top
    five, six and five bits of the three channels, a channel being what
    [parseInt] reads from its pair of characters after the first [#] is
    removed, and 0 when the pair does not parse. *)
Theorem rgb888ToRgb565_any_text (hexColor : string) :
  let channel := fun pair : string =>
    match parseInt pair 16 with
    | Some c => c
    | None => 0
    end in
  let hex := removeFirst "#" hexColor in
  let r := channel (JS.substring 0 2 hex) in
  let g := channel (JS.substring 2 4 hex) in
  let b := channel (JS.substring 4 6 hex) in
  let v := (r / 8) mod 32 * 2048 + (g / 4) mod 64 * 32 + (b / 8) mod 32 in
  0 <= v <= 65535
  /\ rgb888ToRgb565 hexColor = storedText v
  /\ String.length (rgb888ToRgb565 hexColor) = 6%nat
  /\ readPacked (rgb888ToRgb565 hexColor) = v.
Proof.
  cbv zeta. unfold rgb888ToRgb565.
  set (hex := removeFirst "#" hexColor).
  change (match parseInt (JS.substring 0 2 hex) 16 with Some c => c | None => 0 end)
    with (nanToZero (parseInt (JS.substring 0 2 hex) 16)).
  change (match parseInt (JS.substring 2 4 hex) 16 with Some c => c | None => 0 end)
    with (nanToZero (parseInt (JS.substring 2 4 hex) 16)).
  change (match parseInt (JS.substring 4 6 hex) 16 with Some c => c | None => 0 end)
    with (nanToZero (parseInt (JS.substring 4 6 hex) 16)).
  set (r := nanToZero (parseInt (JS.substring 0 2 hex) 16)).
  set (g := nanToZero (parseInt (JS.substring 2 4 hex) 16)).
  set (b := nanToZero (parseInt (JS.substring 4 6 hex) 16)).
  destruct (top_bits_any r) as [Er _]. destruct (top_bits_any g) as [_ Eg].
  destruct (top_bits_any b) as [Eb _]. rewrite Er, Eg, Eb.
  assert (Hr : 0 <= (r / 8) mod 32 < 32) by (apply Z.mod_pos_bound; lia).
  assert (Hg : 0 <= (g / 4) mod 64 < 64) by (apply Z.mod_pos_bound; lia).
  assert (Hb : 0 <= (b / 8) mod 32 < 32) by (apply Z.mod_pos_bound; lia).
  rewrite pack_fields by assumption.
  fold (storedText ((r / 8) mod 32 * 2048 + (g / 4) mod 64 * 32 + (b / 8) mod 32)).
  destruct (storedText_readPacked
              ((r / 8) mod 32 * 2048 + (g / 4) mod 64 * 32 + (b / 8) mod 32))
    as [Hread Hlen]; [lia |].
  repeat split; try assumption; lia.
Qed.

(** X3 on texts that are empty, too short, not hexadecimal or signed. *)
Lemma rgb888ToRgb565_any_text_malformed :
  rgb888ToRgb565 "" = "0x0000"
  /\ rgb888ToRgb565 "#zzff00" = "0x07e0"
  /\ rgb888ToRgb565 "ff" = "0xf800"
  /\ rgb888ToRgb565 "#0000f" = "0x0001"
  /\ rgb888ToRgb565 "#-1ffff" = "0xffff".
Proof.
  pose proof (rgb888ToRgb565_any_text "") as H0.
  pose proof (rgb888ToRgb565_any_text "#zzff00") as H1.
  pose proof (rgb888ToRgb565_any_text "ff") as H2.
  pose proof (rgb888ToRgb565_any_text "#0000f") as H3.
  pose proof (rgb888ToRgb565_any_text "#-1ffff") as H4.
  cbv zeta in H0, H1, H2, H3, H4.
  destruct H0 as (_ & -> & _). destruct H1 as (_ & -> & _).
  destruct H2 as (_ & -> & _). destruct H3 as (_ & -> & _).
  destruct H4 as (_ & -> & _).
  vm_compute. repeat split; reflexivity.
Defined.

(** The fields [>>] and [&] cut out of any number are those of its low
    16 bits. *)
Lemma fields_any (x : Z) :
  band (sar x 11) 0x1F = (x / 2048) mod 32
  /\ band (sar x 5) 0x3F = (x / 32) mod 64
  /\ band x 0x1F = x mod 32.
Proof.
  destruct (ToInt32_congruent x) as [q Hq].
  pose proof (ToInt32_range x) as Hrange.
  change (2 ^ 31) with 2147483648 in Hrange. change (2 ^ 32) with 4294967296 in Hq.
  assert (Hshift : forall n, 0 <= n < 32 -> sar x n = ToInt32 x / 2 ^ n).
  { intros n Hn. unfold sar. rewrite shiftCount_small by assumption.
    apply Z.shiftr_div_pow2. lia. }
  change 0x1F with (Z.ones 5). change 0x3F with (Z.ones 6).
  rewrite !band_ones_any by lia. rewrite !Hshift by lia.
  change (2 ^ 11) with 2048. change (2 ^ 5) with 32. change (2 ^ 6) with 64.
  assert (H11 : - 1048576 <= ToInt32 x / 2048 < 1048576).
  { split; [apply Z.div_le_lower_bound; lia | apply Z.div_lt_upper_bound; lia]. }
  assert (H5 : - 67108864 <= ToInt32 x / 32 < 67108864).
  { split; [apply Z.div_le_lower_bound; lia | apply Z.div_lt_upper_bound; lia]. }
  rewrite (ToInt32_small (ToInt32 x / 2048)), (ToInt32_small (ToInt32 x / 32))
    by (change (2 ^ 31) with 2147483648; lia).
  rewrite Hq.
  replace (x + q * 4294967296) with (x + (q * 2097152) * 2048) at 1 by lia.
  replace (x + q * 4294967296) with (x + (q * 134217728) * 32) at 1 by lia.
  replace (x + q * 4294967296) with (x + (q * 134217728) * 32) by lia.
  rewrite !Z.div_add by lia.
  replace (x / 2048 + q * 2097152) with (x / 2048 + (q * 65536) * 32) by lia.
  replace (x / 32 + q * 134217728) with (x / 32 + (q * 2097152) * 64) by lia.
  rewrite !Z.mod_add by lia. auto.
Qed.

Lemma fields_low16 (x : Z) :
  ((x mod 65536) / 2048) mod 32 = (x / 2048) mod 32
  /\ ((x mod 65536) / 32) mod 64 = (x / 32) mod 64
  /\ (x mod 65536) mod 32 = x mod 32.
Proof.
  pose proof (Z.div_mod x 65536 ltac:(lia)) as Hx.
  set (m := x mod 65536) in *. set (k := x / 65536) in *.
  rewrite Hx.
  replace (65536 * k + m) with (m + (k * 32) * 2048) at 1 by lia.
  replace (65536 * k + m) with (m + (k * 2048) * 32) at 1 by lia.
  replace (65536 * k + m) with (m + (k * 2048) * 32) by lia.
  rewrite !Z.div_add by lia.
  replace (m / 32 + k * 2048) with (m / 32 + (k * 32) * 64) by lia.
  rewrite !Z.mod_add by lia. auto.
Qed.

(** X4. On any integer, not only on 16-bit values, [rgb565ToRgb888]
    reads the low 16 bits only, produces channels in 0..255 and a result
    below 2^24. *)
Theorem rgb565ToRgb888_any_integer (x : Z) :
  rgb565ToRgb888 x = rgb565ToRgb888 (x mod 65536)
  /\ channels x
     = (expand5 ((x / 2048) mod 32), expand6 ((x / 32) mod 64), expand5 (x mod 32))
  /\ 0 <= rgb565ToRgb888 x < 2 ^ 24.
Proof.
  assert (Hch : forall y,
             channels y
             = (expand5 ((y / 2048) mod 32), expand6 ((y / 32) mod 64),
                expand5 (y mod 32))).
  { intros y. unfold channels.
    destruct (fields_any y) as (-> & -> & ->).
    rewrite !expand5_shift, expand6_shift
      by (apply Z.mod_pos_bound; lia). reflexivity. }
  destruct (fields_low16 x) as (E1 & E2 & E3).
  assert (Hlow : channels (x mod 65536) = channels x).
  { rewrite (Hch x), (Hch (x mod 65536)), E1, E2, E3. reflexivity. }
  split; [unfold rgb565ToRgb888; rewrite Hlow; reflexivity |].
  split; [apply Hch |].
  unfold rgb565ToRgb888. rewrite Hch.
  pose proof (expand5_byte ((x / 2048) mod 32) (Z.mod_pos_bound _ 32 ltac:(lia))).
  pose proof (expand6_byte ((x / 32) mod 64) (Z.mod_pos_bound _ 64 ltac:(lia))).
  pose proof (expand5_byte (x mod 32) (Z.mod_pos_bound _ 32 ltac:(lia))).
  rewrite pack_bytes by assumption.
  change (2 ^ 24) with 16777216. lia.
Qed.

End ColorRoundTrip.

(* ====================================================================== *)
(** * Integer geometry and the order of the hit test                       *)
(* ====================================================================== *)

Section IntegerGeometry.
Import JS Value CanvasManager.

Lemma digit_step (R d : Z) (acc : option Z) (c : ascii) (rest : string) :
  digitValue c = Some d -> d < R ->
  readDigits R acc (String c rest) = readDigits R (Some (R * nanToZero acc + d)) rest.
Proof.
  intros Hd Hlt. simpl. rewrite Hd.
  destruct (Z.ltb_spec d R); [reflexivity | lia].
Qed.

(** The digits [string_of_uint] prints are read back by [readDigits]:
    they extend the value read so far. *)
Lemma readDigits_printed (d : Decimal.uint) :
  forall acc,
    readDigits 10 (Some acc) (DecimalString.NilEmpty.string_of_uint d)
    = Some (acc * 10 ^ Z.of_N (DecimalPos.Unsigned.usize d)
            + Z.of_N (DecimalPos.Unsigned.of_lu (Decimal.rev d))).
Proof.
  induction d; intros acc; [simpl; f_equal; lia | ..];
    cbn [DecimalString.NilEmpty.string_of_uint];
    (erewrite digit_step by (vm_compute; reflexivity || lia));
    cbn [nanToZero]; rewrite IHd;
    unfold Decimal.rev at 2; cbn [Decimal.revapp];
    match goal with
    | |- context [DecimalPos.Unsigned.of_lu (Decimal.revapp d ?t)] =>
        rewrite (DecimalPos.Unsigned.of_lu_revapp d t)
    end;
    cbn [DecimalPos.Unsigned.usize DecimalPos.Unsigned.of_lu];
    rewrite N2Z.inj_succ, Z.pow_succ_r by apply N2Z.is_nonneg;
    rewrite N2Z.inj_add, N2Z.inj_mul, N2Z.inj_pow;
    f_equal; change (Z.of_N 10) with 10;
    match goal with
    | |- context [Z.of_N (?k + 10 * 0)] => change (Z.of_N (k + 10 * 0)) with (Z.of_N k)
    | |- context [Z.of_N (10 * 0)] => change (Z.of_N (10 * 0)) with 0
    end;
    cbn [Z.of_N]; lia.
Qed.

Lemma printed_starts_with_digit (d : Decimal.uint) :
  d <> Decimal.Nil ->
  exists c rest,
    DecimalString.NilEmpty.string_of_uint d = String c rest
    /\ isWhiteSpace c = false
    /\ readSign (String c rest) = (false, String c rest)
    /\ readDigits 10 None (String c rest) = readDigits 10 (Some 0) (String c rest).
Proof.
  intros Hd. destruct d; [contradiction | ..];
    eexists; eexists; (split; [reflexivity |]);
    (split; [vm_compute; reflexivity |]);
    (split; [reflexivity |]); reflexivity.
Qed.

Lemma parseInt_printed (d : Decimal.uint) :
  d <> Decimal.Nil ->
  parseInt (DecimalString.NilEmpty.string_of_uint d) 10 = Some (Z.of_N (Pos.of_uint d))
  /\ parseInt (String "-" (DecimalString.NilEmpty.string_of_uint d)) 10
     = Some (- Z.of_N (Pos.of_uint d)).
Proof.
  intros Hd.
  destruct (printed_starts_with_digit d Hd) as (c & rest & Es & Hws & Hsign & Hnone).
  pose proof (readDigits_printed d 0) as Hread.
  rewrite Z.mul_0_l, Z.add_0_l in Hread.
  rewrite <- DecimalPos.Unsigned.of_uint_alt in Hread.
  rewrite Es in *. split.
  - assert (Htrim : trimStart (String c rest) = String c rest)
      by (cbn [trimStart]; rewrite Hws; reflexivity).
    unfold parseInt. rewrite Htrim, Hsign. cbv beta iota.
    change (stripPrefix 10 (String c rest)) with (String c rest).
    rewrite Hnone, Hread. reflexivity.
  - assert (Htrim : trimStart (String "-" (String c rest)) = String "-" (String c rest))
      by reflexivity.
    unfold parseInt. rewrite Htrim.
    change (readSign (String "-" (String c rest))) with (true, String c rest).
    cbv beta iota.
    change (stripPrefix 10 (String c rest)) with (String c rest).
    rewrite Hnone, Hread. reflexivity.
Qed.

(** Printing an integer in decimal and reading it with [parseInt] gives
    the integer back. *)
Lemma parseInt_toString10 (z : Z) : parseInt (toString10 z) 10 = Some z.
Proof.
  unfold toString10.
  destruct z as [ | p | p].
  - vm_compute. reflexivity.
  - cbn [Z.to_int DecimalString.NilZero.string_of_int].
    pose proof (DecimalPos.Unsigned.to_uint_nonnil p) as Hnn.
    destruct (parseInt_printed (Pos.to_uint p) Hnn) as [Hpos _].
    unfold DecimalString.NilZero.string_of_uint.
    destruct (Pos.to_uint p) eqn:Ep; [contradiction | ..];
      rewrite <- Ep in *; rewrite Hpos, DecimalPos.Unsigned.of_to; reflexivity.
  - cbn [Z.to_int DecimalString.NilZero.string_of_int].
    pose proof (DecimalPos.Unsigned.to_uint_nonnil p) as Hnn.
    destruct (parseInt_printed (Pos.to_uint p) Hnn) as [_ Hneg].
    unfold DecimalString.NilZero.string_of_uint.
    destruct (Pos.to_uint p) eqn:Ep; [contradiction | ..];
      rewrite <- Ep in *; rewrite Hneg, DecimalPos.Unsigned.of_to; reflexivity.
Qed.

Lemma geometryField_integer (members : list (string * jsval)) (f : string) (z : Z) :
  holdsInteger z (member (JObj members) f) ->
  geometryField (JObj members) f = Some z.
Proof.
  intros [_ Hv]. unfold geometryField, member in *. simpl in *.
  assert (Hor : orZero (Some z) = z).
  { simpl. destruct (Z.eqb_spec z 0); congruence. }
  destruct Hv as [-> | ->]; unfold parseIntOf; simpl;
    rewrite parseInt_toString10, Hor; reflexivity.
Qed.

(** X5. A cell whose geometry members hold integers, as numbers or as
    decimal text, is read with exactly these integers, negative ones
    included. *)
Theorem geometry_of_integers
        (members : list (string * jsval)) (x y width height : Z) :
  holdsInteger x (member (JObj members) "posx") ->
  holdsInteger y (member (JObj members) "posy") ->
  holdsInteger width (member (JObj members) "sizex") ->
  holdsInteger height (member (JObj members) "sizey") ->
  geometry (JObj members) = Some (mkGeometry x y width height).
Proof.
  intros Hx Hy Hw Hh. unfold geometry.
  rewrite (geometryField_integer _ _ _ Hx), (geometryField_integer _ _ _ Hy),
    (geometryField_integer _ _ _ Hw), (geometryField_integer _ _ _ Hh).
  reflexivity.
Qed.

Lemma geometry_of_integers_default :
  geometry (JObj [("posx", JNum 12); ("posy", JStr "-7");
                  ("sizex", JNum 100); ("sizey", JStr "50")])
  = Some (mkGeometry 12 (-7) 100 50).
Proof.
  apply (geometry_of_integers
           [("posx", JNum 12); ("posy", JStr "-7");
            ("sizex", JNum 100); ("sizey", JStr "50")] 12 (-7) 100 50);
    (split; [vm_compute; reflexivity |]); [left | right | left | right];
    reflexivity.
Defined.

Lemma findIndexFrom_prefix {A : Type} (callback : A -> option bool)
      (before : list A) (cell : A) (rest : list A) :
  Forall (fun c => callback c = Some false) before ->
  forall i,
    findIndexFrom callback i (before ++ cell :: rest)%list
    = match callback cell with
      | None => None
      | Some true => Some (i + Z.of_nat (List.length before))
      | Some false =>
          findIndexFrom callback (i + Z.of_nat (List.length before) + 1) rest
      end.
Proof.
  induction 1 as [ | c before Hc Hbefore IH]; intros i.
  - simpl. rewrite Z.add_0_r. reflexivity.
  - simpl app. simpl findIndexFrom. rewrite Hc, IH.
    simpl List.length. rewrite Nat2Z.inj_succ.
    destruct (callback cell) as [[ | ] | ]; try reflexivity; f_equal; lia.
Qed.

(** X6. The hit test stops at the first cell that contains the point:
    the cells after it are not read, so they may be anything; and a cell
    that cannot be read makes the hit test throw exactly when no cell
    before it contains the point. *)
Theorem findCellAtPosition_stops (x y : Z) (before rest : list jsval) (cell : jsval) :
  Forall (fun c => hit x y c = Some false) before ->
  findCellAtPosition x y (before ++ cell :: rest)%list
  = match hit x y cell with
    | Some true => Some (Z.of_nat (List.length before))
    | Some false =>
        findIndexFrom (hit x y) (Z.of_nat (List.length before) + 1) rest
    | None => None
    end.
Proof.
  intros Hbefore. unfold findCellAtPosition.
  rewrite (findIndexFrom_prefix (hit x y) before cell rest Hbefore 0).
  destruct (hit x y cell) as [[ | ] | ]; reflexivity.
Qed.

Lemma findCellAtPosition_stops_null :
  Forall (fun c => hit 15 15 c = Some false)
         [JObj [("posx", JNum 40); ("sizex", JNum 10); ("sizey", JNum 10)]]
  /\ findCellAtPosition 15 15
       ([JObj [("posx", JNum 40); ("sizex", JNum 10); ("sizey", JNum 10)]]
        ++ JObj [("sizex", JNum 20); ("sizey", JNum 20)] :: [JNull])%list
     = Some 1
  /\ findCellAtPosition 15 15
       ([JObj [("posx", JNum 40); ("sizex", JNum 10); ("sizey", JNum 10)]]
        ++ JNull :: [JObj [("sizex", JNum 20); ("sizey", JNum 20)]])%list
     = None.
Proof.
  assert (H : Forall (fun c => hit 15 15 c = Some false)
                [JObj [("posx", JNum 40); ("sizex", JNum 10); ("sizey", JNum 10)]])
    by (repeat constructor).
  split; [exact H |]. split.
  - rewrite (findCellAtPosition_stops 15 15 _ [JNull] _ H). reflexivity.
  - rewrite (findCellAtPosition_stops 15 15 _ _ JNull H). reflexivity.
Defined.

End IntegerGeometry.

(* ====================================================================== *)
(** * Invariants of the WebSocket manager                                  *)
(* ====================================================================== *)

Section ConnectionInvariants.
Import JS Value WebSocketManager.

Variable browser : Browser.

Lemma updateNth_length {A : Type} (i : nat) (f : A -> A) (l : list A) :
  List.length (updateNth i f l) = List.length l.
Proof.
  revert i. induction l as [ | a r IH]; intros [ | i]; simpl; auto.
Qed.

Lemma connect_wellFormed (s : State) : wellFormed s -> wellFormed (connect browser s).
Proof.
  intros (Hat & Hmax & Hdelay & Ht & Hws & Hcount & Hlast).
  unfold connect. destruct (wsIsOpen s); [unfold wellFormed; auto 10 |].
  destruct (WebSocket_throws browser (wsUrl browser)); unfold wellFormed; simpl;
    repeat split; auto; try apply Hlast; try lia.
  intros i [= <-]. rewrite length_app. simpl. lia.
Qed.

Lemma step_wellFormed (e : Event) (s s' : State) :
  wellFormed s -> step browser e s = Some s' -> wellFormed s'.
Proof.
  intros Hwf Hstep.
  pose proof Hwf as (Hat & Hmax & Hdelay & Ht & Hws & Hcount & Hlast).
  destruct e; simpl in Hstep.
  - injection Hstep as <-. apply connect_wellFormed. exact Hwf.
  - injection Hstep as <-. unfold disconnect. simpl.
    destruct (ws (this s)) eqn:Ews; unfold wellFormed; simpl;
      repeat split; auto; try apply Hlast; try lia;
      try (intros i0 Hi0; discriminate);
      try (rewrite Ews; intros i0 Hi0; discriminate).
  - injection Hstep as <-. exact Hwf.
  - injection Hstep as <-. exact Hwf.
  - destruct (nth_error (sockets s) i) as [[ | | | ] | ]; try discriminate.
    injection Hstep as <-. unfold wellFormed. simpl.
    rewrite updateNth_length. repeat split; auto; try apply Hlast; lia.
  - destruct (nth_error (sockets s) i) as [[ | | | ] | ]; try discriminate.
    injection Hstep as <-.
    assert (Hshape : forall s0,
               this s0 = set_lastMessageTime (Some now)
                           (set_messageCount (messageCount (this s) + 1) (this s)) ->
               sockets s0 = sockets s -> timers s0 = timers s -> wellFormed s0).
    { intros s0 Hthis Hsock Htim. unfold wellFormed.
      rewrite Hthis, Hsock, Htim. simpl.
      repeat split; auto; try lia; discriminate. }
    unfold onmessage. simpl.
    destruct (JSON_parse browser data); [apply Hshape; reflexivity |].
    destruct (messageCallback (this s)) as [callback | ]; simpl;
      [| apply Hshape; reflexivity].
    destruct (callback j); apply Hshape; reflexivity.
  - destruct (nth_error (sockets s) i) as [[ | | | ] | ]; try discriminate;
      injection Hstep as <-; exact Hwf.
  - assert (Hs' : exists s0, s' = onclose code s0 /\ this s0 = this s
                             /\ timers s0 = timers s
                             /\ List.length (sockets s0) = List.length (sockets s)).
    { destruct (nth_error (sockets s) i) as [[ | | | ] | ]; try discriminate;
        injection Hstep as <-; eexists; repeat split; simpl;
        apply updateNth_length. }
    destruct Hs' as (s0 & -> & Hthis & Htim & Hlen).
    unfold onclose. simpl. rewrite Hthis, Htim.
    destruct (shouldReconnect (this s)
              && (reconnectAttempts (this s) <? maxReconnectAttempts (this s)))
      eqn:Hleft; unfold wellFormed; simpl; rewrite ?Hthis, ?Htim, ?Hlen.
    + apply andb_prop in Hleft as [_ Hlt]. apply Z.ltb_lt in Hlt.
      repeat split; auto; try apply Hlast; try lia.
      apply Forall_app. split; [exact Ht |]. repeat constructor. exact Hdelay.
    + repeat split; auto; try apply Hlast; lia.
  - destruct (timers s) as [ | d rest] eqn:Htimers; [discriminate |].
    injection Hstep as <-. apply connect_wellFormed.
    unfold wellFormed. simpl. inversion Ht; subst.
    repeat split; auto; try apply Hlast; lia.
Qed.

(** X7. Whatever happens to a manager, the attempt counter stays between
    0 and 5, the two constants keep their values, every pending reconnect
    has the delay of 2000 ms, the socket the manager holds is one it
    created, and the time of the last message is recorded exactly when
    the message counter is not 0. *)
Theorem reachable_wellFormed (s : State) : reachable browser s -> wellFormed s.
Proof.
  intros [es Hrun].
  assert (Hinit : wellFormed constructor).
  { unfold wellFormed. simpl. repeat split; auto; try lia; discriminate. }
  revert Hrun Hinit. generalize constructor.
  induction es as [ | e rest IH]; simpl; intros s0 Hrun Hwf.
  - injection Hrun as <-. exact Hwf.
  - destruct (step browser e s0) as [s1 | ] eqn:Hstep; [| discriminate].
    apply (IH s1 Hrun). eapply step_wellFormed; eauto.
Qed.

Lemma step_messageCount (e : Event) (s s' : State) :
  step browser e s = Some s' ->
  messageCount (this s') = messageCount (this s) + messages [e].
Proof.
  intros Hstep. destruct e; simpl in Hstep; cbn [messages]; rewrite ?Z.add_0_r.
  - injection Hstep as <-. unfold connect. destruct (wsIsOpen s); [reflexivity |].
    destruct (WebSocket_throws browser (wsUrl browser)); reflexivity.
  - injection Hstep as <-. unfold disconnect. simpl.
    destruct (ws (this s)); reflexivity.
  - injection Hstep as <-. reflexivity.
  - injection Hstep as <-. reflexivity.
  - destruct (nth_error (sockets s) i) as [[ | | | ] | ]; try discriminate.
    injection Hstep as <-. reflexivity.
  - destruct (nth_error (sockets s) i) as [[ | | | ] | ]; try discriminate.
    injection Hstep as <-. unfold onmessage. simpl.
    destruct (JSON_parse browser data); [reflexivity |].
    destruct (messageCallback (this s)) as [callback | ]; simpl; [| reflexivity].
    destruct (callback j); reflexivity.
  - destruct (nth_error (sockets s) i) as [[ | | | ] | ]; try discriminate;
      injection Hstep as <-; reflexivity.
  - assert (Hs' : exists s0, s' = onclose code s0 /\ this s0 = this s).
    { destruct (nth_error (sockets s) i) as [[ | | | ] | ]; try discriminate;
        injection Hstep as <-; eexists; split; reflexivity. }
    destruct Hs' as (s0 & -> & Hthis). unfold onclose. simpl. rewrite Hthis.
    destruct (shouldReconnect (this s)
              && (reconnectAttempts (this s) <? maxReconnectAttempts (this s)));
      simpl; rewrite ?Hthis; reflexivity.
  - destruct (timers s) as [ | d rest]; [discriminate |].
    injection Hstep as <-. unfold connect.
    destruct (wsIsOpen (set_timers rest s)); [reflexivity |].
    destruct (WebSocket_throws browser (wsUrl browser)); reflexivity.
Qed.

(** X8. The message counter counts every inbound message, decoded or
    not, and nothing else: along any sequence of events it grows by the
    number of message events. *)
Theorem messageCount_counts (es : list Event) (s s' : State) :
  run browser es s = Some s' ->
  getMessageCount s' = getMessageCount s + messages es.
Proof.
  unfold getMessageCount. revert s.
  induction es as [ | e rest IH]; intros s Hrun; cbn [run] in Hrun.
  - injection Hrun as <-. cbn [messages]. lia.
  - destruct (step browser e s) as [s1 | ] eqn:Hstep; [| discriminate].
    rewrite (IH s1 Hrun), (step_messageCount _ _ _ Hstep).
    destruct e; cbn [messages]; lia.
Qed.

(** X9. [disconnect()] is idempotent: a second call changes nothing. *)
Theorem disconnect_idempotent (s : State) : disconnect (disconnect s) = disconnect s.
Proof.
  destruct s as [[w ra mx rd mc sc cnt lmt sr] so ti st no de].
  unfold disconnect. simpl. destruct w; reflexivity.
Qed.

Lemma step_disabled (e : Event) (s s' : State) :
  withoutConnecting e = true ->
  shouldReconnect (this s) = false ->
  step browser e s = Some s' ->
  shouldReconnect (this s') = false
  /\ timers s' = timers s
  /\ List.length (sockets s') = List.length (sockets s).
Proof.
  intros He Hflag Hstep. destruct e; try discriminate; simpl in Hstep.
  - injection Hstep as <-. unfold disconnect. simpl.
    destruct (ws (this s)); simpl; rewrite ?updateNth_length; auto.
  - injection Hstep as <-. auto.
  - injection Hstep as <-. auto.
  - destruct (nth_error (sockets s) i) as [[ | | | ] | ]; try discriminate.
    injection Hstep as <-. simpl. rewrite updateNth_length. auto.
  - destruct (nth_error (sockets s) i) as [[ | | | ] | ]; try discriminate.
    injection Hstep as <-. unfold onmessage. simpl.
    destruct (JSON_parse browser data); [simpl; auto |].
    destruct (messageCallback (this s)) as [callback | ]; simpl; auto.
    destruct (callback j); simpl; auto.
  - destruct (nth_error (sockets s) i) as [[ | | | ] | ]; try discriminate;
      injection Hstep as <-; auto.
  - assert (Hs' : exists s0, s' = onclose code s0 /\ this s0 = this s
                             /\ timers s0 = timers s
                             /\ List.length (sockets s0) = List.length (sockets s)).
    { destruct (nth_error (sockets s) i) as [[ | | | ] | ]; try discriminate;
        injection Hstep as <-; eexists; repeat split; simpl;
        apply updateNth_length. }
    destruct Hs' as (s0 & -> & Hthis & Htim & Hlen).
    pose proof (onclose_effect code s0) as (_ & Hsock & Hre & _ & _ & Hcase).
    rewrite Hthis, Hflag in *. simpl in Hcase. destruct Hcase as [_ Ht].
    rewrite Hre, Ht, Hsock. auto.
Qed.

(** X10. Once the reconnect flag is cleared, as [disconnect()] clears
    it, no socket event brings a reconnect about: until [connect()] is
    called, by the page or by a timer that was pending already, the flag
    stays cleared, no reconnect is scheduled and no socket is created. *)
Theorem disabled_stays_disabled (es : list Event) (s s' : State) :
  shouldReconnect (this s) = false ->
  forallb withoutConnecting es = true ->
  run browser es s = Some s' ->
  shouldReconnect (this s') = false
  /\ timers s' = timers s
  /\ List.length (sockets s') = List.length (sockets s).
Proof.
  revert s. induction es as [ | e rest IH]; simpl; intros s Hflag Hq Hrun.
  - injection Hrun as <-. auto.
  - apply andb_prop in Hq as [He Hrest].
    destruct (step browser e s) as [s1 | ] eqn:Hstep; [| discriminate].
    destruct (step_disabled _ _ _ He Hflag Hstep) as (Hflag1 & <- & <-).
    apply (IH s1 Hflag1 Hrest Hrun).
Qed.

Lemma connect_keeps_timers (s : State) :
  timers (connect browser s) = timers s
  /\ reconnectAttempts (this (connect browser s)) = reconnectAttempts (this s)
  /\ maxReconnectAttempts (this (connect browser s)) = maxReconnectAttempts (this s).
Proof.
  unfold connect. destruct (wsIsOpen s); [auto |].
  destruct (WebSocket_throws browser (wsUrl browser)); simpl; auto.
Qed.

Lemma step_exhausted (e : Event) (s s' : State) :
  withoutOpening e = true ->
  reconnectAttempts (this s) = maxReconnectAttempts (this s) ->
  step browser e s = Some s' ->
  reconnectAttempts (this s') = maxReconnectAttempts (this s')
  /\ exists k, timers s' = skipn k (timers s).
Proof.
  intros He Hfull Hstep. destruct e; try discriminate; simpl in Hstep.
  - injection Hstep as <-.
    destruct (connect_keeps_timers s) as (-> & -> & ->).
    split; [exact Hfull | exists 0%nat; reflexivity].
  - injection Hstep as <-. unfold disconnect. simpl.
    destruct (ws (this s)); simpl; (split; [reflexivity | exists 0%nat; reflexivity]).
  - injection Hstep as <-. split; [exact Hfull | exists 0%nat; reflexivity].
  - injection Hstep as <-. split; [exact Hfull | exists 0%nat; reflexivity].
  - destruct (nth_error (sockets s) i) as [[ | | | ] | ]; try discriminate.
    injection Hstep as <-. unfold onmessage. simpl.
    destruct (JSON_parse browser data);
      [simpl; split; [exact Hfull | exists 0%nat; reflexivity] |].
    destruct (messageCallback (this s)) as [callback | ]; simpl;
      [| split; [exact Hfull | exists 0%nat; reflexivity]].
    destruct (callback j); simpl; (split; [exact Hfull | exists 0%nat; reflexivity]).
  - destruct (nth_error (sockets s) i) as [[ | | | ] | ]; try discriminate;
      injection Hstep as <-; (split; [exact Hfull | exists 0%nat; reflexivity]).
  - assert (Hs' : exists s0, s' = onclose code s0 /\ this s0 = this s
                             /\ timers s0 = timers s).
    { destruct (nth_error (sockets s) i) as [[ | | | ] | ]; try discriminate;
        injection Hstep as <-; eexists; repeat split. }
    destruct Hs' as (s0 & -> & Hthis & Htim).
    pose proof (onclose_effect code s0) as (_ & _ & _ & Hmax & _ & Hcase).
    rewrite Hthis, Htim in *. rewrite Hfull, Z.ltb_irrefl, andb_false_r in Hcase.
    destruct Hcase as [Hat Ht]. rewrite Hat, Hmax, Ht.
    split; [reflexivity | exists 0%nat; reflexivity].
  - destruct (timers s) as [ | d rest] eqn:Htimers; [discriminate |].
    injection Hstep as <-.
    destruct (connect_keeps_timers (set_timers rest s)) as (-> & -> & ->).
    split; [exact Hfull | exists 1%nat; reflexivity].
Qed.

(** X11. With the attempt counter at its maximum, where five failures or
    [disconnect()] leave it, no close event schedules a reconnect until a
    socket opens, also not after the page has called [connect()] again:
    the pending timers can only fire, and the counter stays at the
    maximum. *)
Theorem exhausted_until_open (es : list Event) (s s' : State) :
  reconnectAttempts (this s) = maxReconnectAttempts (this s) ->
  forallb withoutOpening es = true ->
  run browser es s = Some s' ->
  reconnectAttempts (this s') = maxReconnectAttempts (this s')
  /\ exists k, timers s' = skipn k (timers s).
Proof.
  revert s. induction es as [ | e rest IH]; simpl; intros s Hfull Hq Hrun.
  - injection Hrun as <-. split; [exact Hfull | exists 0%nat; reflexivity].
  - apply andb_prop in Hq as [He Hrest].
    destruct (step browser e s) as [s1 | ] eqn:Hstep; [| discriminate].
    destruct (step_exhausted _ _ _ He Hfull Hstep) as (Hfull1 & k1 & Ht1).
    destruct (IH s1 Hfull1 Hrest Hrun) as (Hfull' & k & Ht).
    split; [exact Hfull' |]. exists (k1 + k)%nat.
    rewrite Ht, Ht1, skipn_skipn. f_equal. lia.
Qed.

End ConnectionInvariants.

Section DevicePageTraffic.
Import Value WebSocketManager.

Lemma reachable_wellFormed_traffic :
  reachable devicePage (after traffic) /\ wellFormed (after traffic).
Proof.
  assert (Hreach : reachable devicePage (after traffic)).
  { exists traffic. vm_compute. reflexivity. }
  split; [exact Hreach |].
  apply (reachable_wellFormed devicePage (after traffic) Hreach).
Defined.

Lemma messageCount_counts_traffic :
  run devicePage traffic constructor = Some (after traffic)
  /\ messages traffic = 2
  /\ getMessageCount (after traffic) = getMessageCount constructor + messages traffic.
Proof.
  assert (Hrun : run devicePage traffic constructor = Some (after traffic))
    by (vm_compute; reflexivity).
  split; [exact Hrun |]. split; [reflexivity |].
  apply (messageCount_counts devicePage traffic constructor (after traffic) Hrun).
Defined.

Lemma disabled_stays_disabled_closing :
  shouldReconnect (this (after disconnectedByPage)) = false
  /\ run devicePage [SocketClose 0 1000] (after disconnectedByPage)
     = Some (after (disconnectedByPage ++ [SocketClose 0 1000])%list)
  /\ shouldReconnect (this (after (disconnectedByPage ++ [SocketClose 0 1000])%list)) = false
  /\ timers (after (disconnectedByPage ++ [SocketClose 0 1000])%list)
     = timers (after disconnectedByPage)
  /\ List.length (sockets (after (disconnectedByPage ++ [SocketClose 0 1000])%list))
     = List.length (sockets (after disconnectedByPage)).
Proof.
  assert (Hflag : shouldReconnect (this (after disconnectedByPage)) = false)
    by (vm_compute; reflexivity).
  assert (Hrun : run devicePage [SocketClose 0 1000] (after disconnectedByPage)
                 = Some (after (disconnectedByPage ++ [SocketClose 0 1000])%list))
    by (vm_compute; reflexivity).
  split; [exact Hflag |]. split; [exact Hrun |].
  apply (disabled_stays_disabled devicePage [SocketClose 0 1000]
           (after disconnectedByPage)
           (after (disconnectedByPage ++ [SocketClose 0 1000])%list) Hflag);
    [vm_compute; reflexivity | exact Hrun].
Defined.

Lemma exhausted_until_open_retries :
  let s := after (CallConnect :: retries) in
  let es := [SocketClose 5 1006; CallConnect; SocketClose 6 1006] in
  let s' := after ((CallConnect :: retries) ++ es)%list in
  reconnectAttempts (this s) = maxReconnectAttempts (this s)
  /\ run devicePage es s = Some s'
  /\ reconnectAttempts (this s') = maxReconnectAttempts (this s')
  /\ exists k, timers s' = skipn k (timers s).
Proof.
  cbv zeta.
  assert (Hfull : reconnectAttempts (this (after (CallConnect :: retries)))
                  = maxReconnectAttempts (this (after (CallConnect :: retries))))
    by (vm_compute; reflexivity).
  assert (Hrun : run devicePage [SocketClose 5 1006; CallConnect; SocketClose 6 1006]
                     (after (CallConnect :: retries))
                 = Some (after ((CallConnect :: retries)
                                ++ [SocketClose 5 1006; CallConnect; SocketClose 6 1006])%list))
    by (vm_compute; reflexivity).
  split; [exact Hfull |]. split; [exact Hrun |].
  apply (exhausted_until_open devicePage
           [SocketClose 5 1006; CallConnect; SocketClose 6 1006]
           (after (CallConnect :: retries)) _ Hfull);
    [vm_compute; reflexivity | exact Hrun].
Defined.

End DevicePageTraffic.

(* ====================================================================== *)
(** * Live messages: what is discarded and what is shown                   *)
(* ====================================================================== *)

Section LiveDataMessages.
Import JS Value LiveDataManager.

Variable redraw : list jsval -> Completion.

(** X12. A message whose [cells] member is missing or is not an array is
    discarded: the cells on display, the rate window and the rest of the
    state stay as they are and nothing is thrown, unless the message
    itself is [null] or [undefined], on which reading [cells] throws. *)
Theorem handleLiveData_discards (data : jsval) (now : float) (st : State) :
  isArray (member data "cells") = false ->
  handleLiveData redraw data now st
  = (st, if nullish data then Throws else Returns).
Proof.
  unfold handleLiveData, member. intros Harr.
  destruct (get data "cells") as [cells | ] eqn:Hget.
  - assert (Hn : nullish data = false) by (destruct data; simpl in *; congruence).
    rewrite Hn, Harr, orb_true_r. reflexivity.
  - assert (Hn : nullish data = true) by (destruct data; simpl in *; congruence).
    rewrite Hn. reflexivity.
Qed.

Lemma filterArray_filter (elems : list jsval) :
  filterArray enabled elems
  = if existsb nullish elems then None
    else Some (filter (fun c => truthy (member c "enabled")) elems).
Proof.
  induction elems as [ | c rest IH]; [reflexivity |].
  cbn [filterArray existsb filter]. rewrite IH.
  unfold enabled, member.
  destruct c; simpl; try reflexivity;
    destruct (existsb nullish rest); try reflexivity;
    match goal with
    | |- context [truthy ?v] => destruct (truthy v); reflexivity
    end.
Qed.

(** X13. On a message with an array of cells: if an element is [null] or
    [undefined] the call throws and leaves the state as it was; otherwise
    the cells on display become the elements whose [enabled] member is
    truthy, in their order; the rate window takes the new time only when
    the drawing returns. *)
Theorem handleLiveData_filters
        (data : jsval) (elems : list jsval) (now : float) (st : State) :
  get data "cells" = Some (JArr elems) ->
  let kept := filter (fun c => truthy (member c "enabled")) elems in
  let shown := mkState kept (updateRateWindow st) (updateRateWindowSize st) in
  handleLiveData redraw data now st
  = if existsb nullish elems then (st, Throws)
    else match redraw kept with
         | Throws => (shown, Throws)
         | Returns => (trackUpdate now shown, Returns)
         end.
Proof.
  intros Hget. unfold handleLiveData. rewrite Hget. cbn [truthy isArray negb orb].
  rewrite filterArray_filter.
  destruct (existsb nullish elems); reflexivity.
Qed.

End LiveDataMessages.

Section LiveDataMessagesOnPage.
Import Value LiveDataManager.

Lemma handleLiveData_discards_text :
  isArray (member (JObj [("cells", JStr "none")]) "cells") = false
  /\ handleLiveData (fun _ => Returns) (JObj [("cells", JStr "none")])
       1700000000000%float constructor
     = (constructor, Returns)
  /\ handleLiveData (fun _ => Returns) JNull 1700000000000%float constructor
     = (constructor, Throws).
Proof.
  split; [reflexivity |]. split.
  - apply (handleLiveData_discards (fun _ => Returns)
             (JObj [("cells", JStr "none")]) 1700000000000%float constructor).
    reflexivity.
  - apply (handleLiveData_discards (fun _ => Returns)
             JNull 1700000000000%float constructor).
    reflexivity.
Defined.

Lemma handleLiveData_filters_marked :
  handleLiveData (fun _ => Returns) messageMarkedFalse 1700000000000%float constructor
  = (trackUpdate 1700000000000%float
       (mkState [cellMarkedFalse; JObj [("enabled", JBool true)]]
                (updateRateWindow constructor) (updateRateWindowSize constructor)),
     Returns).
Proof.
  apply (handleLiveData_filters (fun _ => Returns) messageMarkedFalse
           [cellMarkedFalse; JObj [("enabled", JBool false)];
            JObj [("enabled", JBool true)]]
           1700000000000%float constructor).
  reflexivity.
Defined.

End LiveDataMessagesOnPage.

(* ====================================================================== *)
(** * The window of the update rate                                        *)
(* ====================================================================== *)

Section RateWindow.
Import JS Value LiveDataManager.

Lemma lastN_all {A : Type} (n : nat) (l : list A) :
  (List.length l <= n)%nat -> lastN n l = l.
Proof.
  intros Hl. unfold lastN. replace (List.length l - n)%nat with 0%nat by lia.
  reflexivity.
Qed.

Lemma lastN_length {A : Type} (n : nat) (l : list A) :
  (List.length (lastN n l) <= n)%nat.
Proof.
  unfold lastN. rewrite length_skipn. lia.
Qed.

Lemma lastN_snoc {A : Type} (n : nat) (l : list A) (x : A) :
  (0 < n)%nat -> lastN n (lastN n l ++ [x]) = lastN n (l ++ [x]).
Proof.
  intros Hn. unfold lastN. rewrite !length_app, length_skipn. simpl.
  destruct (Nat.le_gt_cases (List.length l) n) as [Hle | Hgt].
  - replace (List.length l - n)%nat with 0%nat by lia. simpl.
    rewrite Nat.sub_0_r. reflexivity.
  - replace (List.length l - (List.length l - n) + 1 - n)%nat with 1%nat by lia.
    replace (List.length l + 1 - n)%nat with (1 + (List.length l - n))%nat by lia.
    rewrite <- skipn_skipn.
    rewrite (skipn_app (List.length l - n) l [x]).
    replace (List.length l - n - List.length l)%nat with 0%nat by lia.
    reflexivity.
Qed.

(** One message more: the window is the last ten of the old window and
    the new time. *)
Lemma trackUpdate_lastN (now : float) (st : State) :
  updateRateWindowSize st = 10%nat ->
  (List.length (updateRateWindow st) <= 10)%nat ->
  updateRateWindow (trackUpdate now st) = lastN 10 (updateRateWindow st ++ [now])
  /\ updateRateWindowSize (trackUpdate now st) = 10%nat
  /\ currentCells (trackUpdate now st) = currentCells st.
Proof.
  intros Hsize Hlen. unfold trackUpdate. simpl. rewrite Hsize.
  split; [| auto].
  unfold lastN. rewrite length_app. simpl.
  destruct (Nat.ltb_spec 10 (List.length (updateRateWindow st) + 1)).
  - replace (List.length (updateRateWindow st) + 1 - 10)%nat with 1%nat by lia.
    reflexivity.
  - replace (List.length (updateRateWindow st) + 1 - 10)%nat with 0%nat by lia.
    reflexivity.
Qed.

(** X14. The update-rate window is a queue of at most ten: after any
    number of messages it holds the times of the last ten of them, oldest
    first. *)
Theorem window_keeps_last_ten (times : list float) :
  windowAfter times = lastN 10 times
  /\ (List.length (windowAfter times) <= 10)%nat.
Proof.
  assert (Hgen : forall st,
             updateRateWindowSize st = 10%nat ->
             (List.length (updateRateWindow st) <= 10)%nat ->
             forall w, updateRateWindow st = lastN 10 w ->
             updateRateWindow (fold_left (fun st now => trackUpdate now st) times st)
             = lastN 10 (w ++ times)).
  { induction times as [ | t rest IH]; intros st Hsize Hlen w Hw; simpl.
    - rewrite app_nil_r. exact Hw.
    - destruct (trackUpdate_lastN t st Hsize Hlen) as (Hwin & Hsize' & _).
      rewrite (IH (trackUpdate t st) Hsize') with (w := (w ++ [t])%list).
      + rewrite <- app_assoc. reflexivity.
      + rewrite Hwin. apply lastN_length.
      + rewrite Hwin, Hw. apply lastN_snoc. lia. }
  assert (Hwin : windowAfter times = lastN 10 times).
  { unfold windowAfter. apply (Hgen constructor eq_refl) with (w := []).
    - simpl. lia.
    - reflexivity. }
  split; [exact Hwin |]. rewrite Hwin. apply lastN_length.
Qed.

End RateWindow.

(* ====================================================================== *)
(** * Properties of the zoom                                               *)
(* ====================================================================== *)

Section Zoom.
Import CanvasZoom.

Lemma press_levels (b : Button) (l : float) :
  In l zoomLevels ->
  exists l', In l' zoomLevels /\ press b (atLevel l) = atLevel l'.
Proof.
  intros Hl. unfold zoomLevels in Hl. simpl in Hl.
  repeat (destruct Hl as [Hl | Hl]; [subst l; destruct b; vm_compute;
    (eexists; split; [| reflexivity]);
    repeat (first [left; reflexivity | right]) |]).
  contradiction.
Qed.

Lemma fold_press_levels (buttons : list Button) :
  forall l, In l zoomLevels ->
  exists l', In l' zoomLevels /\
    fold_left (fun s b => press b s) buttons (atLevel l) = atLevel l'.
Proof.
  induction buttons as [| b bs IH]; intros l Hl.
  - exists l. split; [assumption | reflexivity].
  - simpl. destruct (press_levels b l Hl) as [l1 [H1 E1]].
    rewrite E1. apply IH. assumption.
Qed.

Lemma pressed_levels (buttons : list Button) :
  exists l, In l zoomLevels /\ pressed buttons = atLevel l.
Proof.
  unfold pressed. change constructor with (atLevel 1).
  apply fold_press_levels. simpl. tauto.
Qed.

(** X15. Whatever sequence of zoom buttons is clicked, the zoom level is
    one of the fifteen levels from 0.5 to 4 in steps of 0.25, so it stays
    within [minZoom] and [maxZoom], and the three constants keep their
    values. *)
Theorem zoom_within_bounds (buttons : list Button) :
  let s := pressed buttons in
  In (zoomLevel s) zoomLevels /\
  minZoom s = 0.5%float /\ maxZoom s = 4%float /\ zoomStep s = 0.25%float /\
  PrimFloat.leb (minZoom s) (zoomLevel s) = true /\
  PrimFloat.leb (zoomLevel s) (maxZoom s) = true.
Proof.
  cbv zeta. destruct (pressed_levels buttons) as [l [Hl E]]. rewrite E.
  cbn [zoomLevel minZoom maxZoom zoomStep atLevel].
  split; [assumption |]. repeat (split; [reflexivity |]).
  clear E. unfold zoomLevels in Hl. simpl in Hl.
  repeat (destruct Hl as [Hl | Hl];
    [subst l; vm_compute; split; reflexivity |]).
  contradiction.
Qed.

(** X16. After any sequence of clicks: where the zoom-in button is
    enabled ([zoomLevel < maxZoom]) a click on it raises the level and a
    click on zoom-out then restores the state; where it is disabled a
    click changes nothing; and the same with the two buttons exchanged.
    No rounding error accumulates. *)
Theorem zoom_steps_undo (buttons : list Button) :
  let s := pressed buttons in
  (if zoomInDisabled s then press ZoomIn s = s
   else press ZoomOut (press ZoomIn s) = s /\
        PrimFloat.ltb (zoomLevel s) (zoomLevel (press ZoomIn s)) = true) /\
  (if zoomOutDisabled s then press ZoomOut s = s
   else press ZoomIn (press ZoomOut s) = s /\
        PrimFloat.ltb (zoomLevel (press ZoomOut s)) (zoomLevel s) = true).
Proof.
  cbv zeta. destruct (pressed_levels buttons) as [l [Hl E]]. rewrite E.
  clear E. unfold zoomLevels in Hl. simpl in Hl.
  repeat (destruct Hl as [Hl | Hl];
    [subst l; vm_compute; repeat split; reflexivity |]).
  contradiction.
Qed.

(** X17. After any sequence of clicks the percentage shown,
    [getZoomPercent()], is a multiple of 25 from 50 to 400, and it is
    exactly 100 times the zoom level. *)
Theorem zoom_percent_exact (buttons : list Button) :
  let s := pressed buttons in
  exists k : Z,
    2 <= k <= 16 /\
    getZoomPercent s = JSMath.ofZ (25 * k) /\
    zoomLevel s = (JSMath.ofZ (25 * k) / 100)%float.
Proof.
  cbv zeta. destruct (pressed_levels buttons) as [l [Hl E]]. rewrite E.
  clear E. unfold zoomLevels in Hl. simpl in Hl.
  destruct Hl as [Hl | Hl]; [subst l; exists 2; split; [lia | vm_compute; split; reflexivity] |].
  destruct Hl as [Hl | Hl]; [subst l; exists 3; split; [lia | vm_compute; split; reflexivity] |].
  destruct Hl as [Hl | Hl]; [subst l; exists 4; split; [lia | vm_compute; split; reflexivity] |].
  destruct Hl as [Hl | Hl]; [subst l; exists 5; split; [lia | vm_compute; split; reflexivity] |].
  destruct Hl as [Hl | Hl]; [subst l; exists 6; split; [lia | vm_compute; split; reflexivity] |].
  destruct Hl as [Hl | Hl]; [subst l; exists 7; split; [lia | vm_compute; split; reflexivity] |].
  destruct Hl as [Hl | Hl]; [subst l; exists 8; split; [lia | vm_compute; split; reflexivity] |].
  destruct Hl as [Hl | Hl]; [subst l; exists 9; split; [lia | vm_compute; split; reflexivity] |].
  destruct Hl as [Hl | Hl]; [subst l; exists 10; split; [lia | vm_compute; split; reflexivity] |].
  destruct Hl as [Hl | Hl]; [subst l; exists 11; split; [lia | vm_compute; split; reflexivity] |].
  destruct Hl as [Hl | Hl]; [subst l; exists 12; split; [lia | vm_compute; split; reflexivity] |].
  destruct Hl as [Hl | Hl]; [subst l; exists 13; split; [lia | vm_compute; split; reflexivity] |].
  destruct Hl as [Hl | Hl]; [subst l; exists 14; split; [lia | vm_compute; split; reflexivity] |].
  destruct Hl as [Hl | Hl]; [subst l; exists 15; split; [lia | vm_compute; split; reflexivity] |].
  destruct Hl as [Hl | Hl]; [subst l; exists 16; split; [lia | vm_compute; split; reflexivity] |].
  contradiction.
Qed.

End Zoom.

(* ====================================================================== *)
(** * Properties of waiting for the configuration                          *)
(* ====================================================================== *)

Section WaitForConfig.
Import Value Utility.

Lemma tick_settled (timeout : option Z) (seen : list jsval) (p : Promise) :
  (forall w, p <> Pending w) ->
  fold_left (fun p configData => tick timeout configData p) seen p = p.
Proof.
  induction seen as [| d ds IH]; intros Hp; [reflexivity |].
  simpl. destruct p as [w | data | m].
  - exfalso. apply (Hp w). reflexivity.
  - apply IH. intros w. discriminate.
  - apply IH. intros w. discriminate.
Qed.

Lemma deadline_reached (timeout : option Z) (n : Z) :
  1 <= n -> (timeoutOf timeout <= n * interval <-> deadline timeout <= n).
Proof.
  intros Hn. unfold deadline, interval.
  set (t := timeoutOf timeout).
  pose proof (Z.div_mod (t + 100 - 1) 100 ltac:(lia)) as Hd.
  pose proof (Z.mod_pos_bound (t + 100 - 1) 100 ltac:(lia)) as Hm.
  lia.
Qed.

Lemma ticks_absent (timeout : option Z) (seen : list jsval) :
  forall w, absent seen ->
  0 <= w -> w mod interval = 0 ->
  (w = 0 \/ w < timeoutOf timeout) ->
  fold_left (fun p configData => tick timeout configData p) seen (Pending w) =
  if deadline timeout <=? w / interval + Z.of_nat (length seen)
  then (if (length seen =? 0)%nat then Pending w else timedOut)
  else Pending (w + interval * Z.of_nat (length seen)).
Proof.
  induction seen as [| d ds IH]; intros w Habs Hw Hmod Hlt.
  - cbn [fold_left length Nat.eqb].
    destruct (_ <=? _); [reflexivity | f_equal; lia].
  - inversion Habs as [| ? ? Hd Hds]; subst.
    cbn [fold_left]. unfold tick at 2. rewrite Hd. cbv zeta.
    assert (Hq : w = interval * (w / interval)).
    { pose proof (Z.div_mod w interval ltac:(unfold interval; lia)). lia. }
    assert (Hq0 : 0 <= w / interval).
    { apply Z.div_pos; unfold interval; lia. }
    assert (Hdl : timeoutOf timeout <= (w / interval + 1) * interval <->
                  deadline timeout <= w / interval + 1).
    { apply deadline_reached. lia. }
    replace ((w / interval + 1) * interval) with (w + interval) in Hdl by lia.
    cbn [length Nat.eqb].
    destruct (timeoutOf timeout <=? w + interval) eqn:Ht.
    + apply Z.leb_le in Ht. rewrite tick_settled by (intros ?; discriminate).
      assert (Hle : deadline timeout <= w / interval + Z.of_nat (S (length ds))) by lia.
      apply Z.leb_le in Hle. rewrite Hle. reflexivity.
    + apply Z.leb_gt in Ht.
      rewrite IH; try assumption.
      * assert (E : (w + interval) / interval = w / interval + 1).
        { rewrite Hq at 1. unfold interval.
          replace (100 * (w / 100) + 100) with ((w / 100 + 1) * 100) by lia.
          apply Z.div_mul. lia. }
        rewrite E.
        replace (w / interval + 1 + Z.of_nat (length ds))
          with (w / interval + Z.of_nat (S (length ds))) by lia.
        destruct (deadline timeout <=? w / interval + Z.of_nat (S (length ds))) eqn:Hc.
        -- destruct ds as [| d' ds']; [| reflexivity].
           exfalso. apply Z.leb_le in Hc. cbn [length] in Hc. lia.
        -- f_equal. lia.
      * unfold interval in *. lia.
      * unfold interval in *. rewrite <- Z.add_mod_idemp_r by lia.
        rewrite Z.mod_same, Z.add_0_r by lia. assumption.
      * right. lia.
Qed.

Lemma poll_absent (timeout : option Z) (atCall : jsval) (seen : list jsval) :
  absent (atCall :: seen) ->
  poll timeout atCall seen =
  if deadline timeout <=? Z.of_nat (length seen)
  then timedOut
  else Pending (interval * Z.of_nat (length seen)).
Proof.
  intros Habs. inversion Habs as [| ? ? Hd Hds]; subst.
  unfold poll, waitForConfig. rewrite Hd.
  rewrite ticks_absent; try assumption; try lia; try reflexivity.
  change (0 / interval) with 0. rewrite !Z.add_0_l.
  destruct seen as [| d ds]; [| reflexivity].
  cbn [length Nat.eqb]. unfold deadline.
  destruct (_ <=? _) eqn:E; [| reflexivity].
  apply Z.leb_le in E. change (Z.of_nat 0) with 0 in E. lia.
Qed.

(** X18. While no configuration appears, the promise of
    [waitForConfig] is pending with its counter at 100 ms per run of the
    timer, and it is rejected at the run at which the counter reaches the
    timeout: run 50 with the default of 5000 ms, and the first run for a
    timeout that is not positive. *)
Theorem waitForConfig_times_out (timeout : option Z) (atCall : jsval) (seen : list jsval) :
  absent (atCall :: seen) ->
  let runs := Z.of_nat (length seen) in
  (runs < deadline timeout -> poll timeout atCall seen = Pending (interval * runs))
  /\ (deadline timeout <= runs -> poll timeout atCall seen = timedOut)
  /\ (forall n, 1 <= n ->
       (timeoutOf timeout <= n * interval <-> deadline timeout <= n))
  /\ deadline None = 50.
Proof.
  intros Habs runs. rewrite (poll_absent timeout atCall seen Habs). fold runs.
  split; [| split; [| split]].
  - intros H. apply Z.leb_gt in H. rewrite H. reflexivity.
  - intros H. apply Z.leb_le in H. rewrite H. reflexivity.
  - intros n Hn. apply deadline_reached. assumption.
  - reflexivity.
Qed.

(** X19. The promise resolves with the configuration found first.  A
    configuration present at the call resolves it at once, and nothing
    seen later changes it.  A configuration found first at a run of the
    timer resolves it if that run is not after the deadline: within a
    run the test for the configuration precedes the test of the counter,
    so a configuration that appears at the deadline run itself is still
    in time, and one run later the promise is rejected already. *)
Theorem waitForConfig_resolves (timeout : option Z) (atCall : jsval)
      (before after : list jsval) (configData : jsval) :
  truthy configData = true ->
  poll timeout configData after = Resolved configData
  /\ (absent (atCall :: before) ->
      poll timeout atCall (before ++ configData :: after) =
      if deadline timeout <=? Z.of_nat (length before)
      then timedOut
      else Resolved configData).
Proof.
  intros Hdata. split.
  - unfold poll, waitForConfig. rewrite Hdata.
    apply tick_settled. intros w. discriminate.
  - intros Habs.
    pose proof (poll_absent timeout atCall before Habs) as H.
    unfold poll in *. rewrite fold_left_app, H. cbn [fold_left].
    destruct (_ <=? _).
    + apply tick_settled. intros w. discriminate.
    + unfold tick at 2. rewrite Hdata.
      apply tick_settled. intros w. discriminate.
Qed.

Lemma waitForConfig_times_out_default :
  absent (JUndefined :: repeat JNull 50)
  /\ poll None JUndefined (repeat JNull 49) = Pending 4900
  /\ poll None JUndefined (repeat JNull 50) = timedOut
  /\ poll (Some 0) JUndefined [JNull] = timedOut.
Proof.
  split; [repeat constructor |]. split; [| split].
  - apply (waitForConfig_times_out None JUndefined (repeat JNull 49));
      [repeat constructor | vm_compute; reflexivity].
  - apply (waitForConfig_times_out None JUndefined (repeat JNull 50));
      [repeat constructor | vm_compute; discriminate].
  - apply (waitForConfig_times_out (Some 0) JUndefined [JNull]);
      [repeat constructor | vm_compute; discriminate].
Defined.

Lemma waitForConfig_resolves_late :
  truthy (JObj []) = true
  /\ absent (JUndefined :: repeat JNull 49)
  /\ poll None (JObj []) [JNull; JObj [("x", JNum 1)]] = Resolved (JObj [])
  /\ poll None JUndefined (repeat JNull 49 ++ [JObj []; JNull])%list = Resolved (JObj [])
  /\ poll None JUndefined (repeat JNull 50 ++ [JObj []])%list = timedOut.
Proof.
  assert (Hdata : truthy (JObj []) = true) by reflexivity.
  split; [exact Hdata |]. split; [repeat constructor |]. split; [| split].
  - exact (proj1 (waitForConfig_resolves None JUndefined []
                    [JNull; JObj [("x", JNum 1)]] (JObj []) Hdata)).
  - rewrite (proj2 (waitForConfig_resolves None JUndefined (repeat JNull 49) [JNull]
                      (JObj []) Hdata));
      [reflexivity | repeat constructor].
  - rewrite (proj2 (waitForConfig_resolves None JUndefined (repeat JNull 50) []
                      (JObj []) Hdata));
      [reflexivity | repeat constructor].
Defined.

End WaitForConfig.

(* ====================================================================== *)
(** * Properties of the lists of the settings page                         *)
(* ====================================================================== *)

Section SettingsLists.
Import JS Value ConfigManager.

Lemma splitComma_nonempty (s : string) : splitComma s <> [].
Proof.
  destruct s as [| c r]; simpl; [discriminate |].
  destruct (Ascii.eqb c ","); [discriminate |].
  destruct (splitComma r); discriminate.
Qed.

Lemma splitComma_commaFree (s : string) :
  Forall (fun piece => commaFree piece = true) (splitComma s).
Proof.
  induction s as [| c r IH]; simpl.
  - constructor; [reflexivity | constructor].
  - destruct (Ascii.eqb c ",") eqn:Ec.
    + constructor; [reflexivity | assumption].
    + destruct (splitComma r) as [| piece pieces].
      * constructor; [simpl; rewrite Ec; reflexivity | constructor].
      * inversion IH; subst. constructor; [| assumption].
        simpl. rewrite Ec. assumption.
Qed.

Lemma splitComma_piece (p rest : string) :
  commaFree p = true ->
  splitComma (p ++ String "," rest) = p :: splitComma rest.
Proof.
  induction p as [| c r IH]; intros Hp; simpl.
  - reflexivity.
  - simpl in Hp. apply andb_true_iff in Hp. destruct Hp as [Hc Hr].
    apply negb_true_iff in Hc. rewrite Hc, (IH Hr). reflexivity.
Qed.

Lemma splitComma_last (p : string) :
  commaFree p = true -> splitComma p = [p].
Proof.
  induction p as [| c r IH]; intros Hp; simpl.
  - reflexivity.
  - simpl in Hp. apply andb_true_iff in Hp. destruct Hp as [Hc Hr].
    apply negb_true_iff in Hc. rewrite Hc, (IH Hr). reflexivity.
Qed.

Lemma splitComma_joinComma (parts : list string) :
  parts <> [] ->
  Forall (fun piece => commaFree piece = true) parts ->
  splitComma (joinComma parts) = parts.
Proof.
  induction parts as [| p rest IH]; intros Hne Hall; [congruence |].
  inversion Hall as [| ? ? Hp Hrest]; subst.
  destruct rest as [| q rest'].
  - simpl. apply splitComma_last. assumption.
  - change (joinComma (p :: q :: rest'))
      with (p ++ String "," (joinComma (q :: rest'))).
    rewrite splitComma_piece by assumption.
    rewrite IH; [reflexivity | discriminate | assumption].
Qed.

Lemma trimStart_commaFree (s : string) :
  commaFree s = true -> commaFree (trimStart s) = true.
Proof.
  induction s as [| c r IH]; intros H; simpl; [reflexivity |].
  destruct (isWhiteSpace c); [| assumption].
  simpl in H. apply andb_true_iff in H. apply IH. tauto.
Qed.

Lemma trimEnd_cons (c : ascii) (r : string) :
  trimEnd (String c r) =
  if (String.eqb (trimEnd r) "") && isWhiteSpace c then ""
  else String c (trimEnd r).
Proof.
  simpl. destruct (trimEnd r); simpl; [| reflexivity].
  destruct (isWhiteSpace c); reflexivity.
Qed.

Lemma trimEnd_commaFree (s : string) :
  commaFree s = true -> commaFree (trimEnd s) = true.
Proof.
  induction s as [| c r IH]; intros H; [reflexivity |].
  rewrite trimEnd_cons. simpl in H. apply andb_true_iff in H.
  destruct (_ && _); [reflexivity |].
  simpl. rewrite (proj1 H), (IH (proj2 H)). reflexivity.
Qed.

Lemma trimEnd_idempotent (s : string) : trimEnd (trimEnd s) = trimEnd s.
Proof.
  induction s as [| c r IH]; [reflexivity |].
  rewrite trimEnd_cons.
  destruct (String.eqb (trimEnd r) "") eqn:Ee; cbn [andb].
  - apply String.eqb_eq in Ee.
    destruct (isWhiteSpace c) eqn:Ec; [reflexivity |].
    rewrite trimEnd_cons, Ee. simpl. rewrite Ec. reflexivity.
  - rewrite trimEnd_cons, IH, Ee. reflexivity.
Qed.

Lemma trimStart_started (s : string) :
  match trimStart s with
  | String c _ => isWhiteSpace c = false
  | EmptyString => True
  end.
Proof.
  induction s as [| c r IH]; simpl; [exact I |].
  destruct (isWhiteSpace c) eqn:Ec; [assumption | assumption].
Qed.

Lemma trimStart_trimEnd (s : string) :
  match s with String c _ => isWhiteSpace c = false | EmptyString => True end ->
  trimStart (trimEnd s) = trimEnd s.
Proof.
  destruct s as [| c r]; intros H; [reflexivity |].
  rewrite trimEnd_cons. rewrite H, andb_false_r. simpl. rewrite H. reflexivity.
Qed.

Lemma trim_idempotent (s : string) : trim (trim s) = trim s.
Proof.
  unfold trim. rewrite trimStart_trimEnd by apply trimStart_started.
  apply trimEnd_idempotent.
Qed.

Lemma trim_commaFree (s : string) :
  commaFree s = true -> commaFree (trim s) = true.
Proof.
  intros H. unfold trim. apply trimEnd_commaFree, trimStart_commaFree, H.
Qed.

Lemma length_positive (s : string) :
  (0 <? Z.of_nat (String.length s)) = true <-> s <> "".
Proof.
  destruct s; simpl; split; intros H; try discriminate; try congruence.
  apply Z.ltb_lt. lia.
Qed.

Lemma entries_clean (text : jsval) (l : list string) :
  entries text = Some l -> Forall entry l.
Proof.
  unfold entries. intros H.
  destruct (if truthy text then text else JStr "") as [| | | | s | |];
    try discriminate.
  injection H as <-. apply Forall_forall. intros c Hc.
  apply filter_In in Hc. destruct Hc as [Hin Hlen].
  apply in_map_iff in Hin. destruct Hin as [piece [<- Hpiece]].
  pose proof (splitComma_commaFree s) as Hfree.
  rewrite Forall_forall in Hfree.
  split; [apply length_positive; assumption |].
  split; [apply trim_commaFree, Hfree, Hpiece | apply trim_idempotent].
Qed.

(** X20. Every entry [getEngineTypes()] or [getCanSpeedList()] returns
    is non-empty, has no comma and has no white space at either end. *)
Theorem lists_hold_entries (data : jsval) (l : list string) :
  getEngineTypes data = Some l \/ getCanSpeedList data = Some l ->
  Forall entry l.
Proof.
  unfold getEngineTypes, getCanSpeedList. intros [H | H].
  - destruct (negb (truthy data)); [injection H as <-; constructor |].
    destruct (get data "ENGINE_CODES"); [| discriminate].
    eapply entries_clean. eassumption.
  - destruct (negb (truthy data)); [injection H as <-; constructor |].
    destruct (get data "CAN_SPEED_LIST"); [| discriminate].
    eapply entries_clean. eassumption.
Qed.

Lemma lists_hold_entries_engines :
  getEngineTypes (setting "ENGINE_CODES" "engine_codes_list" " ME7 , ,EDC 16,")
  = Some ["ME7"; "EDC 16"]
  /\ Forall entry ["ME7"; "EDC 16"].
Proof.
  assert (H : getEngineTypes
                (setting "ENGINE_CODES" "engine_codes_list" " ME7 , ,EDC 16,")
              = Some ["ME7"; "EDC 16"]) by (vm_compute; reflexivity).
  split; [exact H |].
  apply (lists_hold_entries
           (setting "ENGINE_CODES" "engine_codes_list" " ME7 , ,EDC 16,")).
  left. exact H.
Defined.

Lemma trimStart_blank (a s : string) :
  blank a = true -> trimStart (a ++ s) = trimStart s.
Proof.
  induction a as [| c r IH]; intros H; [reflexivity |].
  simpl in H. apply andb_true_iff in H. destruct H as [Hc Hr].
  simpl. rewrite Hc. apply IH. assumption.
Qed.

Lemma trimEnd_blank_only (b : string) : blank b = true -> trimEnd b = "".
Proof.
  induction b as [| c r IH]; intros H; [reflexivity |].
  simpl in H. apply andb_true_iff in H. destruct H as [Hc Hr].
  rewrite trimEnd_cons, (IH Hr), Hc. reflexivity.
Qed.

Lemma trimEnd_blank (s b : string) :
  blank b = true -> trimEnd (s ++ b) = trimEnd s.
Proof.
  intros Hb. induction s as [| c r IH].
  - simpl. apply trimEnd_blank_only. assumption.
  - change (String c r ++ b) with (String c (r ++ b)).
    rewrite !trimEnd_cons, IH. reflexivity.
Qed.

Lemma trimStart_app (s b : string) :
  trimStart s <> "" -> trimStart (s ++ b) = trimStart s ++ b.
Proof.
  induction s as [| c r IH]; intros H; [simpl in H; congruence |].
  simpl in *. destruct (isWhiteSpace c); [apply IH; assumption | reflexivity].
Qed.

Lemma trim_padded (a c b : string) :
  blank a = true -> blank b = true -> c <> "" -> trim c = c ->
  trim (a ++ c ++ b) = c.
Proof.
  intros Ha Hb Hne Hc. unfold trim in *.
  rewrite trimStart_blank by assumption.
  assert (Hs : trimStart c <> "").
  { intros E. rewrite E in Hc. simpl in Hc. congruence. }
  rewrite trimStart_app by assumption.
  rewrite trimEnd_blank by assumption. assumption.
Qed.

Lemma padded_commaFree (a c b : string) :
  blank a = true -> blank b = true -> commaFree c = true ->
  commaFree (a ++ c ++ b) = true.
Proof.
  assert (Hblank : forall s t, blank s = true -> commaFree t = true ->
                               commaFree (s ++ t) = true).
  { induction s as [| x r IH]; intros t Hs Ht; [assumption |].
    simpl in Hs. apply andb_true_iff in Hs. destruct Hs as [Hx Hr].
    simpl. rewrite (IH t Hr Ht), andb_true_r.
    destruct (Ascii.eqb x ",") eqn:E; [| reflexivity].
    apply Ascii.eqb_eq in E. subst x. vm_compute in Hx. discriminate. }
  assert (Hfree : forall s t, commaFree s = true -> commaFree t = true ->
                              commaFree (s ++ t) = true).
  { induction s as [| x r IH]; intros t Hs Ht; [assumption |].
    simpl in Hs. apply andb_true_iff in Hs. destruct Hs as [Hx Hr].
    simpl. rewrite Hx, (IH t Hr Ht). reflexivity. }
  intros Ha Hb Hc. apply Hblank; [assumption |].
  apply Hfree; [assumption |].
  clear Ha Hc. induction b as [| x r IH]; [reflexivity |].
  simpl in Hb. apply andb_true_iff in Hb. destruct Hb as [Hx Hr].
  simpl. rewrite (IH Hr), andb_true_r.
  destruct (Ascii.eqb x ",") eqn:E; [| reflexivity].
  apply Ascii.eqb_eq in E. subst x. vm_compute in Hx. discriminate.
Qed.

Lemma trim_padded_all (items : list (string * string * string)) :
  Forall (fun item => padding item /\ entry (codeOf item)) items ->
  filter (fun c => 0 <? Z.of_nat (String.length c))
         (map trim (map padded items)) = map codeOf items.
Proof.
  induction 1 as [| [[a c] b] rest [[Ha Hb] [Hne [Hfree Htrim]]] Hrest IH];
    [reflexivity |].
  cbn [map padded codeOf filter] in *.
  rewrite trim_padded by assumption.
  apply length_positive in Hne. rewrite Hne. f_equal. exact IH.
Qed.

Lemma entries_padded (items : list (string * string * string)) :
  Forall (fun item => padding item /\ entry (codeOf item)) items ->
  entries (JStr (joinComma (map padded items))) = Some (map codeOf items).
Proof.
  intros Hall. unfold entries.
  assert (Hsplit : filter (fun c => 0 <? Z.of_nat (String.length c))
            (map trim (splitComma (joinComma (map padded items)))) =
          map codeOf items).
  { destruct items as [| item items']; [reflexivity |].
    rewrite splitComma_joinComma.
    - apply trim_padded_all. assumption.
    - discriminate.
    - apply Forall_forall. intros p Hp. apply in_map_iff in Hp.
      destruct Hp as [[[a c] b] [<- Hin]].
      rewrite Forall_forall in Hall. destruct (Hall _ Hin) as [[Ha Hb] [_ [Hfree _]]].
      apply padded_commaFree; assumption. }
  cbn [truthy].
  destruct (String.eqb (joinComma (map padded items)) "") eqn:E; cbn [negb].
  - apply String.eqb_eq in E. rewrite E in Hsplit. rewrite <- Hsplit. reflexivity.
  - rewrite Hsplit. reflexivity.
Qed.

(** X21. Entries written with a comma between them and any white space
    around them are read back as they are, in their order, by
    [getEngineTypes()] and by [getCanSpeedList()]. *)
Theorem lists_read_back (items : list (string * string * string)) :
  Forall (fun item => padding item /\ entry (codeOf item)) items ->
  getEngineTypes
    (setting "ENGINE_CODES" "engine_codes_list" (joinComma (map padded items)))
  = Some (map codeOf items) /\
  getCanSpeedList
    (setting "CAN_SPEED_LIST" "kbps" (joinComma (map padded items)))
  = Some (map codeOf items).
Proof.
  intros Hall. split.
  - unfold getEngineTypes, setting. cbn -[entries joinComma].
    apply entries_padded. assumption.
  - unfold getCanSpeedList, setting. cbn -[entries joinComma].
    apply entries_padded. assumption.
Qed.

Lemma lists_read_back_speeds :
  Forall (fun item => padding item /\ entry (codeOf item))
         [("", "125", ""); (" ", "250", ""); ("", "500", "  ")]
  /\ joinComma (map padded [("", "125", ""); (" ", "250", ""); ("", "500", "  ")])
     = "125, 250,500  "
  /\ getCanSpeedList (setting "CAN_SPEED_LIST" "kbps" "125, 250,500  ")
     = Some ["125"; "250"; "500"].
Proof.
  assert (H : Forall (fun item => padding item /\ entry (codeOf item))
                [("", "125", ""); (" ", "250", ""); ("", "500", "  ")]).
  { repeat constructor; discriminate. }
  split; [exact H |]. split; [reflexivity |].
  exact (proj2 (lists_read_back _ H)).
Defined.

End SettingsLists.

(* ====================================================================== *)
(** * Properties of adding a screen                                        *)
(* ====================================================================== *)

Section Screens.
Import JS Value ConfigManager.















End Screens.
